(* ===== verification/_CoqProject ===== *)
-Q . S2P
Prelude.v
Frame.v
Loader.v
Select.v
Clean.v
Explode.v
Aggregate.v
Rank.v
Hist.v
Regression.v
Plot.v
Notebook.v
