(* ===== verification/Prelude.v ===== *)
(** * A verification library for the TMDb genre-popularity analysis

    The program is the notebook script [src/Investigate_a_Dataset.py].  It
    loads [tmdb-movies.csv] with pandas and runs a linear data pipeline over
    one variable [df]:

    - Loader (line 42): [df = pd.read_csv('tmdb-movies.csv')], pandas'
      C tokenizer, header and column-type inference;
    - Column Selector (line 68): [df = df[[genres, popularity, vote_average,
      runtime, budget_adj, revenue_adj, release_year]]];
    - inspection cells (lines 76, 84, 92-93): null counts, the number of
      duplicated rows, and a [drop_duplicates()] whose result is neither
      assigned nor shown (it is not the last line of its cell);
    - Row Filter (line 100): [df = df[(df != 0).all(1)]];
    - Genre Expander (lines 108-113): check through the [.str] accessor
      that [genres] holds text, strip the ['|'] wrappers of [genres],
      split on ['|'], [stack], re-key the tokens by the row label, left-[join]
      them to [df] as column [genre], and renumber the rows;
    - Aggregator (lines 121-139): six [groupby('genre').<col>.mean()] series,
      combined with [pd.concat(..., axis=1)] into [genre_data];
    - Ranking (lines 155, 178): [reset_index] and
      [sort_values('popularity', ascending=False)];
    - Reporter (lines 164-319): a bar chart of mean popularity per genre,
      and for popularity and each factor a histogram ([Series.hist]) and a
      scatter by genre ([sns.lmplot]), with a line of fit
      ([sns.regplot]) for budget and revenue.

    The cells run in one Jupyter namespace; each reads the variables the
    previous ones bound, and the plotting cells read [d].

    ** Layout of the development

    - [Prelude] (this file): the exceptions the script can raise, the
      [result] error monad with stdpp's monad classes, sums of rationals
      ([Qsum] and its [map] lemmas), the [pandas] hint database and the
      shared tactics.
    - [Frame]: the pandas data model: a cell ([CStr], [CNum], [CNaN]), its
      equivalence (numeric values up to [Qeq], NaN equal to NaN as
      [duplicated] treats it), frames as column names plus labelled rows,
      the well-formedness invariant, column lookup and [reset_index].
    - [Loader]: [pd.read_csv] on the text of the file: the tokenizer state
      machine of [tokenizer.c] (states [START_RECORD] ... [WHITESPACE_LINE],
      [end_field], [end_line], [parser_handle_eof]), the header names of
      [TextReader._get_header] with its renaming [while] loop, the column
      conversion of [_convert_tokens] ([STR_NA_VALUES], [precise_xstrtod],
      boolean words) with the dtype it infers ([column_is_object]), the
      implicit index, and the file lookup with
      [FileNotFoundError].  A CSV writer in Python's [QUOTE_MINIMAL] format
      is the inverse the tokenizer is checked against.
    - [Select]: [df[[...]]], with [KeyError] for missing columns.
    - [Clean]: [isnull().sum()], [duplicated()], [drop_duplicates()] and the
      zero filter [(df != 0).all(1)].
    - [Explode]: Python's [str.strip('|')] and [str.split('|')], the dtype
      check of pandas' [.str] accessor ([str_validate]), [stack], the left
      [join] on the index, and the composed expander.  Frames carry no
      dtype, so the expander takes the dtype of [df.genres] as an argument;
      the notebook passes the one [read_csv] gave the column
      ([Notebook.genres_object]), which the selection and the row filter
      keep.
    - [Aggregate]: group keys (NaN dropped, keys sorted as [groupby] does),
      the NaN-skipping mean, [groupby(..).col.mean()] and [concat(axis=1)].
    - [Rank]: [sort_values(ascending=False)] as an interface ([DescSorter])
      with NaN last, its stable insertion-sort instance, and the ranking
      cell of line 178.
    - [Hist]: [np.histogram] with [bins=n]: the range, the [linspace]
      edges, numpy's fast bin index with its two corrections, [bincount].
    - [Regression]: the line [regplot] fits, [pinv(X).dot(y)] for
      [X = [1 | x]], with its full-rank and rank-one branches.
    - [Plot]: the pyplot state of a cell (open figures and current axes),
      the axes setters, seaborn's [barplot], [lmplot] and [regplot] (with
      its guard [if len(self.x) <= 1: self.fit_reg = False]), pandas'
      [Series.hist], and the twelve plotting cells as [run_report].
    - [Notebook]: the namespace as a [gmap], every cell of lines 42-319 as
      [run_cell], Run All as [run_cells] and as the step relation
      [nb_step], interactive runs in any order as [jupyter_step].

    ** What the theorems show

    - Loader (C3, C14, C17, C22, C23, C28, C30): the tokenizer reads back
      what [to_csv] writes; a line longer than the lines before it, and an
      unclosed quote, raise pandas' [ParserError] with its line number; the
      frame [read_csv] builds is well formed, numbered, and typed column by
      column; a first data line longer than the header becomes the index
      and shifts the values left of their names; a column has dtype
      [object] exactly when pandas' inference says so; the
      header-renaming loop ends within its fuel.
    - Stages (C1, C2, C4-C13, C15, C16, C18, C19): each stage's functional
      behaviour on every branch, its error paths, the strip/split round
      trip, well-formedness preservation, the printed duplicate count as
      rows less distinct rows, and the group means as sums over counts with
      bounds.
    - Ranking (C21): with any sort meeting [sort_values]' specification,
      the row at rank [i] has at most [i] rows above it and more than [i]
      at least as large, so without ties the ranking is determined.
    - Notebook (C20, C24-C27, C29): Run All computes the composed pipeline;
      line 92 shows nothing and leaves the duplicates in [df]; the store
      invariant holds in every state reached by running cells in any
      order; Run All succeeds on every file text whose header has the
      seven columns, whose [genres] is read as text and whose averaged
      columns hold only numbers and missing values (the Loader composed
      with the pipeline), and stops at line 109 with [AttributeError] when
      [genres] is not read as text; the ranking cell succeeds once
      [genre_data] is bound and can only fail with [NameError].
    - Reporter (C31-C40): numpy's fast bin index lies in the bin whose
      edges surround the value; [Series.hist] on a float column never
      raises and counts each non-missing value once; the counts add up;
      the [pinv] line is a least-squares line, its slope has the sign of
      the covariance, and it has least norm when x is constant; each
      plotting cell shows one figure with the expected artists, title and
      labels; a fit cell draws a line only when at least two points are
      left, and on a [d] of at most one row raises nothing.

    ** Modelling choices

    Floating-point values are modelled by exact rationals [Q]: rounding of
    float64 sums, of [linspace] and of the bin index is not modelled, so
    the means are the exact arithmetic means the spec describes, and on
    exact values numpy's fast bin index agrees with its [searchsorted]
    method ([Hist.bin_index_search]).  Strings are byte strings: splitting and stripping
    on the ASCII byte ['|'] agrees with Python's code-point operations on
    UTF-8 text, and byte order agrees with code-point order.  The plotting
    cells use the inline backend: each cell starts with no open figure and
    shows the figures it opened.  [regplot] is modelled with seaborn's
    default [truncate=True] (the line spans the data range, 100 points)
    and [ci=None] as the script passes it.  The only fuel is that of the
    header-renaming [while] loop of [read_csv], [length header + 1]
    iterations, which C23 shows is always enough; every other definition
    is structurally recursive, so Run All, a structural recursion over the
    cells, terminates by construction.  Dtypes: the frame model holds
    values, not dtypes; the only dtype the script depends on is that of
    [genres] at the [.str] accessor, which is passed to the expander and,
    in the notebook, read off the loaded column (C30 shows this reading
    agrees with [read_csv]'s inference).  Numeric columns are one dtype
    (int64 and float64 are not told apart).  [read_csv] follows pandas 2 (its [STR_NA_VALUES] list and its
    mangling of repeated names).

    ** Not modelled

    - In [pd.read_csv] (line 42): the bytes of the file and their decoding
      (the model reads the text), carriage-return line ends, the words
      [inf] and [infinity] (read here as text; pandas reads them as
      infinite floats, which rationals cannot hold), and the per-chunk type
      inference of [low_memory] reading (the model infers each column's
      type over the whole file).  The notebook model starts from the frame
      [read_csv] returns with a [RangeIndex]; C27 composes the two.  The
      Loader's display cells ([display(df)], [df.shape], [df.info()]) are
      modelled by what they compute ([info] by its non-null counts; dtypes
      and memory usage are not modelled).
    - Rendering: colours, figure sizes, legends, grid lines, the bootstrap
      confidence bands ([ci] is [None] here) and the pixel output of
      matplotlib; the model records which artists each axes holds.
    - The imports (lines 25-28) and [pd.options.display.max_columns]
      (line 43): configuration with no effect on the computed values. *)


From Stdlib Require Export QArith.
From Stdlib Require Import Lqa Psatz.
From stdpp Require Export base list strings sets.

(** Exceptions raised by the pandas calls of the script. *)
Inductive exc :=
| KeyError (missing : list string)
| AttributeError (what : string)
| ValueError (what : string)
| TypeError (what : string)
| NameError (name : string)
| ParserError (what : string)
| FileNotFoundError (path : string).

(** A computation of the script either returns a value or raises. *)
Inductive result (A : Type) : Type :=
| Ok (a : A)
| Err (e : exc).
Arguments Ok {A} a.
Arguments Err {A} e.

#[export] Instance result_ret : MRet result := λ A a, Ok a.
#[export] Instance result_bind : MBind result :=
  λ A B k m, match m with Ok a => k a | Err e => Err e end.
#[export] Instance result_fmap : FMap result :=
  λ A B f m, match m with Ok a => Ok (f a) | Err e => Err e end.

Declare Scope pandas_scope.
Delimit Scope pandas_scope with pd.
Open Scope pandas_scope.

(** [raise e] mirrors Python's [raise]. *)
Notation "'raise' e" := (Err e) (at level 10) : pandas_scope.

(** Sum of a list of rationals, as [Series.sum] computes it exactly. *)
Definition Qsum (l : list Q) : Q := foldr Qplus 0%Q l.

Create HintDb pandas.
Create Rewrite HintDb pandas.

Section ResultLemmas.
Context {A B : Type}.

Lemma bind_Ok (m : result A) (k : A → result B) (b : B) :
  (m ≫= k) = Ok b ↔ ∃ a, m = Ok a ∧ k a = Ok b.
Proof.
  destruct m as [a|e]; simpl; split.
  - eauto.
  - intros (? & [= <-] & ?); done.
  - done.
  - intros (? & ? & _); done.
Qed.

Lemma bind_Err_inv (m : result A) (k : A → result B) (e : exc) :
  (m ≫= k) = Err e → m = Err e ∨ ∃ a, m = Ok a ∧ k a = Err e.
Proof. destruct m as [a|e']; intros H; [right; by exists a | left; simpl in H; by injection H as ->]. Qed.

Lemma fmap_Ok (f : A → B) (m : result A) (b : B) :
  f <$> m = Ok b ↔ ∃ a, m = Ok a ∧ b = f a.
Proof.
  destruct m as [a|e]; simpl; split.
  - intros [= <-]; eauto.
  - intros (? & [= <-] & ->); done.
  - done.
  - intros (? & ? & _); done.
Qed.
Lemma Ok_bind (a : A) (k : A → result B) : Ok a ≫= k = k a.
Proof. done. Qed.

Lemma Err_bind (e : exc) (k : A → result B) : Err e ≫= k = Err e.
Proof. done. Qed.

Lemma ret_Ok (a : A) : mret a = Ok a.
Proof. done. Qed.
End ResultLemmas.

Lemma mapM_result_Ok {A B} (f : A → result B) (l : list A) (l' : list B) :
  mapM f l = Ok l' ↔ Forall2 (λ x y, f x = Ok y) l l'.
Proof.
  revert l'. induction l as [|x l IH]; intros l'; simpl.
  - split; [intros [= <-]; constructor | intros H; inversion H; done].
  - destruct (f x) as [y|e] eqn:Hf; simpl.
    + destruct (mapM f l) as [ys|e] eqn:Hm; simpl; unfold mret, result_ret.
      * split.
        -- intros [= <-]. constructor; [done | by apply IH].
        -- intros H. inversion H as [|? y' ? ys' Hy Hys]; subst.
           apply IH in Hys. rewrite Hf in Hy. congruence.
      * split; [done|]. intros H. inversion H as [|? y' ? ys' Hy Hys]; subst.
        apply IH in Hys. done.
    + split; [done|]. intros H. inversion H; subst. congruence.
Qed.

Lemma mapM_result_length {A B} (f : A → result B) (l : list A) (l' : list B) :
  mapM f l = Ok l' → length l' = length l.
Proof. intros H%mapM_result_Ok. symmetry. by eapply Forall2_length. Qed.

(** ** Lists *)

Lemma Forall_sublist_of {A} (P : A → Prop) (l1 l2 : list A) :
  l1 `sublist_of` l2 → Forall P l2 → Forall P l1.
Proof.
  intros Hsub%sublist_subseteq Hall. rewrite Forall_forall in *. set_solver.
Qed.

Lemma sublist_map {A B} (f : A → B) (l1 l2 : list A) :
  l1 `sublist_of` l2 → map f l1 `sublist_of` map f l2.
Proof. induction 1; simpl; by constructor. Qed.

Lemma list_sum_cons (x : nat) (l : list nat) : list_sum (x :: l) = (x + list_sum l)%nat.
Proof. done. Qed.

Lemma lookup_map_list {A B} (f : A → B) (l : list A) i : map f l !! i = f <$> l !! i.
Proof. revert i. induction l; intros [|i]; simpl; auto. Qed.

Lemma lookup_total_map_list `{Inhabited A, Inhabited B} (f : A → B) (l : list A) i :
  i < length l → map f l !!! i = f (l !!! i).
Proof.
  intros Hi. apply list_lookup_total_correct.
  by rewrite lookup_map_list, list_lookup_lookup_total_lt.
Qed.

Lemma flat_map_ext_elem {A B} (f g : A → list B) (l : list A) :
  (∀ x, x ∈ l → f x = g x) → flat_map f l = flat_map g l.
Proof.
  induction l as [|x l IH]; intros H; simpl; [done|].
  rewrite H by by left. f_equal. apply IH. intros y Hy. apply H. by right.
Qed.

Section Filters.
Context {A} (P : A → Prop) {Pdec : ∀ x, Decision (P x)}.

Lemma filter_all_false (l : list A) : (∀ x, x ∈ l → ¬ P x) → filter P l = [].
Proof.
  induction l as [|x l IH]; intros H; [done|].
  rewrite filter_cons_False by (apply H; by left). apply IH. intros y Hy. apply H. by right.
Qed.

Lemma filter_all_true (l : list A) : (∀ x, x ∈ l → P x) → filter P l = l.
Proof.
  induction l as [|x l IH]; intros H; [done|].
  rewrite filter_cons_True by (apply H; by left). f_equal. apply IH. intros y Hy. apply H. by right.
Qed.
End Filters.

Lemma elem_of_map {A B} (f : A → B) (l : list A) y :
  y ∈ map f l ↔ ∃ x, y = f x ∧ x ∈ l.
Proof.
  rewrite list_elem_of_In, in_map_iff. setoid_rewrite list_elem_of_In.
  split; intros (x & H1 & H2); exists x; auto.
Qed.

Lemma elem_of_flat_map {A B} (f : A → list B) (l : list A) y :
  y ∈ flat_map f l ↔ ∃ x, x ∈ l ∧ y ∈ f x.
Proof. rewrite list_elem_of_In, in_flat_map. by setoid_rewrite list_elem_of_In. Qed.

Lemma map_flat_map {A B C} (g : B → C) (f : A → list B) (l : list A) :
  map g (flat_map f l) = flat_map (λ x, map g (f x)) l.
Proof. induction l as [|x l IH]; simpl; [done|]. by rewrite map_app, IH. Qed.

Lemma length_flat_map {A B} (f : A → list B) (l : list A) :
  length (flat_map f l) = list_sum (map (λ x, length (f x)) l).
Proof. induction l as [|x l IH]; simpl; [done|]. by rewrite length_app, IH. Qed.

Lemma mapM_result_map {A B} (f : A → result B) (g : A → B) (l : list A) :
  (∀ x, x ∈ l → f x = Ok (g x)) → mapM f l = Ok (map g l).
Proof.
  intros H. apply mapM_result_Ok. induction l as [|x l IH]; simpl; constructor.
  - apply H. by left.
  - apply IH. intros y Hy. apply H. by right.
Qed.

Lemma mapM_result_total {A B} (f : A → result B) (l : list A) :
  (∀ x, x ∈ l → ∃ y, f x = Ok y) → ∃ l', mapM f l = Ok l'.
Proof.
  induction l as [|x l IH]; intros H; [by exists []|]. simpl.
  destruct (H x (list_elem_of_here _ _)) as [y ->].
  destruct IH as [l' ->]; [intros z Hz; apply H; by right|]. by exists (y :: l').
Qed.

Lemma mapM_result_Err {A B} (f : A → result B) (l : list A) x e :
  x ∈ l → f x = Err e → (∀ y e', f y = Err e' → e' = e) → mapM f l = Err e.
Proof.
  intros Hx Hfx Huniq. induction l as [|y l IH]; [by apply not_elem_of_nil in Hx|].
  simpl. destruct (f y) as [b|e'] eqn:Hfy; simpl.
  - apply elem_of_cons in Hx as [->|Hx]; [congruence|]. by rewrite IH.
  - f_equal. by apply (Huniq y).
Qed.

(** ** Sums of rationals *)

Section Qsums.
Local Open Scope Q_scope.

Lemma Qsum_nil : Qsum [] = 0.
Proof. reflexivity. Qed.

Lemma Qsum_cons x l : Qsum (x :: l) = x + Qsum l.
Proof. reflexivity. Qed.

Lemma Qsum_app l1 l2 : Qsum (l1 ++ l2) == Qsum l1 + Qsum l2.
Proof.
induction l1 as [|x l1 IH]; simpl.
- by rewrite Qplus_0_l.
- unfold Qsum in *. simpl. rewrite IH. ring.
Qed.

(** Every element between [lo] and [hi]: the sum lies between [n*lo] and
  [n*hi]. *)
Lemma Qsum_lower lo l :
Forall (λ x, lo <= x) l → inject_Z (Z.of_nat (length l)) * lo <= Qsum l.
Proof.
induction 1 as [|x l Hx Hl IH]; simpl.
- rewrite Qmult_0_l. apply Qle_refl.
- rewrite Nat2Z.inj_succ, <- Z.add_1_l, inject_Z_plus.
  unfold Qsum in *. simpl.
  setoid_replace ((inject_Z 1 + inject_Z (Z.of_nat (length l))) * lo)
    with (lo + inject_Z (Z.of_nat (length l)) * lo) using relation Qeq by ring.
  by apply Qplus_le_compat.
Qed.

Lemma Qsum_upper hi l :
Forall (λ x, x <= hi) l → Qsum l <= inject_Z (Z.of_nat (length l)) * hi.
Proof.
induction 1 as [|x l Hx Hl IH]; simpl.
- rewrite Qmult_0_l. apply Qle_refl.
- rewrite Nat2Z.inj_succ, <- Z.add_1_l, inject_Z_plus.
  unfold Qsum in *. simpl.
  setoid_replace ((inject_Z 1 + inject_Z (Z.of_nat (length l))) * hi)
    with (hi + inject_Z (Z.of_nat (length l)) * hi) using relation Qeq by ring.
  by apply Qplus_le_compat.
Qed.

Lemma Qsq_nonneg (x : Q) : 0 <= x * x.
Proof. nra. Qed.

Section Maps.
Context {A : Type}.
Implicit Types (f g : A → Q) (l : list A).

Lemma Qsum_map_ext f g l : (∀ x, x ∈ l → f x == g x) → Qsum (map f l) == Qsum (map g l).
Proof.
  intros H. induction l as [|x l' IH]; simpl; [done|]. unfold Qsum in *. simpl.
  rewrite H by by left. rewrite IH; [done|]. intros y Hy. apply H. by right.
Qed.

Lemma Qsum_map_plus f g l : Qsum (map (λ x, f x + g x) l) == Qsum (map f l) + Qsum (map g l).
Proof. induction l as [|x l' IH]; simpl; [done|]. unfold Qsum in *. simpl. rewrite IH. ring. Qed.

Lemma Qsum_map_scale c f l : Qsum (map (λ x, c * f x) l) == c * Qsum (map f l).
Proof. induction l as [|x l' IH]; simpl; [by rewrite Qmult_0_r|]. unfold Qsum in *. simpl. rewrite IH. ring. Qed.

Lemma Qsum_map_const c l : Qsum (map (λ _, c) l) == inject_Z (Z.of_nat (length l)) * c.
Proof.
  induction l as [|x l' IH]; simpl; [done|]. unfold Qsum in *. simpl. rewrite IH.
  rewrite Nat2Z.inj_succ, <- Z.add_1_l, inject_Z_plus. ring.
Qed.

Lemma Qsum_map_nonneg f l : (∀ x, 0 <= f x) → 0 <= Qsum (map f l).
Proof.
  intros H. induction l as [|x l' IH]; simpl; [done|]. unfold Qsum in *. simpl.
  apply (Qplus_le_compat 0 _ 0); [apply H|apply IH].
Qed.

(** A sum of squares is zero only when every term is. *)
Lemma Qsum_map_sq_zero f l : Qsum (map (λ x, f x * f x) l) == 0 → ∀ x, x ∈ l → f x == 0.
Proof.
  induction l as [|y l' IH]; intros Hs x Hx; [by apply not_elem_of_nil in Hx|].
  unfold Qsum in Hs. simpl in Hs. fold (Qsum (map (λ x, f x * f x) l')) in Hs.
  assert (0 <= Qsum (map (λ x, f x * f x) l')) by (apply Qsum_map_nonneg; intros; apply Qsq_nonneg).
  pose proof (Qsq_nonneg (f y)).
  apply elem_of_cons in Hx as [->|Hx]; [nra|]. apply IH; [lra|done].
Qed.
End Maps.
End Qsums.

#[export] Hint Rewrite @Qsum_cons @Ok_bind @Err_bind @ret_Ok : pandas.
#[export] Hint Resolve Qsum_lower Qsum_upper : pandas.

(** [inv_result] splits every hypothesis [m ≫= k = Ok b] and
    [f <$> m = Ok b] into its parts. *)
Ltac inv_result :=
  repeat match goal with
  | H : (_ ≫= _) = Ok _ |- _ =>
      apply bind_Ok in H; destruct H as (? & ? & ?)
  | H : (_ <$> _) = Ok _ |- _ =>
      apply fmap_Ok in H; destruct H as (? & ? & ?)
  | H : Ok _ = Ok _ |- _ => injection H as H
  | H : Ok _ = Err _ |- _ => discriminate H
  | H : Err _ = Ok _ |- _ => discriminate H
  end; subst.
