(* ===== verification/Frame.v ===== *)
(** * The pandas data model shared by every stage of the script

    A cell holds what a DataFrame element holds in the script: a Python
    [str] (the [genres] column is of dtype object), a number (the int64 and
    float64 columns, modelled as rationals), or a missing value (NaN).  A
    frame is a list of column names and a list of labelled rows, each row
    the list of its cells in column order (values only: dtypes are not
    carried, see [Explode.str_validate]); the label type is a parameter
    because the script indexes frames by row numbers and, after [groupby],
    by genre names. *)

From S2P Require Import Prelude.

(** ** Cells *)

Inductive cell :=
| CStr (s : string)
| CNum (q : Q)
| CNaN.

#[export] Instance cell_inhabited : Inhabited cell := populate CNaN.

(** Value equality as [duplicated] and [groupby] use it: numbers compare
    by value, and NaN is equal to NaN (pandas factorizes all NaNs to one
    code). *)
Definition cell_eqb (a b : cell) : bool :=
  match a, b with
  | CStr s, CStr t => bool_decide (s = t)
  | CNum p, CNum q => Qeq_bool p q
  | CNaN, CNaN => true
  | _, _ => false
  end.

#[export] Instance cell_equiv : Equiv cell := λ a b, cell_eqb a b = true.

#[export] Instance cell_equiv_dec : RelDecision (≡@{cell}).
Proof. intros a b. unfold equiv, cell_equiv. apply _. Defined.

Lemma cell_equiv_CNum p q : CNum p ≡ CNum q ↔ (p == q)%Q.
Proof. unfold equiv, cell_equiv; simpl. apply Qeq_bool_iff. Qed.

Lemma cell_equiv_CStr s t : CStr s ≡ CStr t ↔ s = t.
Proof. unfold equiv, cell_equiv; simpl. by rewrite bool_decide_eq_true. Qed.

Lemma cell_equiv_CNaN c : CNaN ≡ c ↔ c = CNaN.
Proof. unfold equiv, cell_equiv. destruct c; simpl; naive_solver. Qed.

#[export] Instance cell_equivalence : Equivalence (≡@{cell}).
Proof.
  split; red; unfold equiv, cell_equiv.
  - intros [s|q|]; simpl; rewrite ?bool_decide_eq_true, ?Qeq_bool_iff; done.
  - intros [s|p|] [t|q|]; simpl; rewrite ?bool_decide_eq_true, ?Qeq_bool_iff;
      first [done | congruence | apply Qeq_sym].
  - intros [s|p|] [t|q|] [u|r|]; simpl; rewrite ?bool_decide_eq_true, ?Qeq_bool_iff;
      first [done | congruence | apply Qeq_trans].
Qed.

(** Equivalent strings and missing values are equal; only numbers have
    several representations. *)
Lemma cell_equiv_not_num a b :
  a ≡ b → (∀ q, a ≠ CNum q) → a = b.
Proof.
  destruct a as [s| |], b as [t| |]; rewrite ?cell_equiv_CStr; try done.
  - by intros ->.
  - intros _ H. by destruct (H q).
Qed.

(** [pd.isna] on one cell. *)
Definition isnull (c : cell) : bool :=
  match c with CNaN => true | _ => false end.

(** The tests [lib.infer_dtype] makes of one value. *)
Definition is_str (c : cell) : bool := match c with CStr _ => true | _ => false end.
Definition is_num (c : cell) : bool := match c with CNum _ => true | _ => false end.

(** A column with no string: what numeric operations ([mean],
    comparisons with numbers) require. *)
Definition no_str (cs : list cell) : Prop := ∀ s, CStr s ∉ cs.

(** A cell of a float64 column: a number or NaN. *)
Definition float_cell (c : cell) : Prop := ∀ t, c ≠ CStr t.

Lemma float_lookup_total (cs : list cell) i : Forall float_cell cs → float_cell (cs !!! i).
Proof.
  intros Hcs t. destruct (cs !! i) as [c|] eqn:Hc.
  - rewrite (list_lookup_total_correct _ _ _ Hc). rewrite Forall_lookup in Hcs. by eapply Hcs.
  - by rewrite list_lookup_total_alt, Hc.
Qed.

#[export] Instance no_str_dec cs : Decision (no_str cs).
Proof.
  destruct (decide (Forall (λ c, match c with CStr _ => false | _ => true end = true) cs))
    as [H|H]; [left|right]; unfold no_str; rewrite Forall_forall in H.
  - intros s Hs. by specialize (H _ Hs).
  - intros Hns. apply H. intros [s| |] Hc; [destruct (Hns s Hc)|done|done].
Defined.

(** ** Frames *)

Record frame (L : Type) := mk_frame {
  columns : list string;
  rows : list (L * list cell)
}.
Arguments mk_frame {L} columns rows.
Arguments columns {L} f.
Arguments rows {L} f.

(** A Series: a name and labelled values. *)
Record series (L : Type) := mk_series {
  sname : string;
  sdata : list (L * cell)
}.
Arguments mk_series {L} sname sdata.
Arguments sname {L} s.
Arguments sdata {L} s.

(** The frame invariant: column names are unique and every row has one
    cell per column. *)
Definition row_fits (n : nat) {L} (r : L * list cell) : Prop := length r.2 = n.

Definition wf_frame {L} (f : frame L) : Prop :=
  NoDup (columns f) ∧ Forall (row_fits (length (columns f))) (rows f).

#[export] Instance row_fits_dec n {L} (r : L * list cell) : Decision (row_fits n r).
Proof. unfold row_fits. apply _. Defined.

#[export] Instance wf_frame_dec {L} (f : frame L) : Decision (wf_frame f).
Proof. unfold wf_frame. apply _. Defined.

(** [df.columns.get_loc(c)]: the position of a column. *)
Definition col_index (c : string) (cols : list string) : option nat :=
  fst <$> list_find (λ x, x = c) cols.

(** [df[c]] or [df.c]: the column as a series, [KeyError] when absent. *)
Definition get_column {L} (f : frame L) (c : string) : result (series L) :=
  match col_index c (columns f) with
  | Some i => Ok (mk_series c (map (λ r, (r.1, r.2 !!! i)) (rows f)))
  | None => raise (KeyError [c])
  end.

(** [df.c] (attribute access): as [df[c]], but a missing column raises
    [AttributeError]. *)
Definition get_attr {L} (f : frame L) (c : string) : result (series L) :=
  match get_column f c with
  | Ok s => Ok s
  | Err _ => raise (AttributeError c)
  end.

(** [reset_index(drop=True)]: renumber the rows [0 .. n-1]. *)
Definition relabel {L A} (rs : list (L * A)) : list (nat * A) :=
  zip (seq 0 (length rs)) (map snd rs).

Definition reset_index_drop {L} (f : frame L) : frame nat :=
  mk_frame (columns f) (relabel (rows f)).

(** [reset_index()]: the index becomes the first column, named by the
    index name [iname]; the rows are renumbered. *)
Definition reset_index {L} (iname : string) (lbl : L → cell) (f : frame L)
  : frame nat :=
  mk_frame (iname :: columns f)
           (relabel (map (λ r, (r.1, lbl r.1 :: r.2)) (rows f))).

(** ** Lemmas *)

Lemma frame_eq {L} (f g : frame L) : columns f = columns g → rows f = rows g → f = g.
Proof. destruct f, g; simpl; by intros -> ->. Qed.

Lemma col_index_Some c cols i :
  col_index c cols = Some i ↔ cols !! i = Some c ∧ ∀ j, j < i → cols !! j ≠ Some c.
Proof.
  unfold col_index. rewrite fmap_Some. split.
  - intros [[i' x] [Hf ->]]. apply list_find_Some in Hf as (Hl & -> & Hbefore).
    split; [done|]. intros j Hj Hc. by apply (Hbefore j c).
  - intros [Hl Hb]. exists (i, c). split; [|done].
    apply list_find_Some. split_and!; [done|done|].
    intros j y Hj Hy ->. by apply (Hb j).
Qed.

Lemma col_index_None c cols : col_index c cols = None ↔ c ∉ cols.
Proof.
  unfold col_index. rewrite fmap_None, list_find_None, Forall_forall.
  split; [intros H Hin; by apply (H c)|]. intros H x Hx ->. done.
Qed.

Lemma col_index_lt c cols i : col_index c cols = Some i → i < length cols.
Proof. intros [H _]%col_index_Some. by eapply lookup_lt_Some. Qed.

Lemma relabel_snd {L A} (rs : list (L * A)) : map snd (relabel rs) = map snd rs.
Proof.
  unfold relabel. rewrite snd_zip; [done|]. by rewrite length_map, length_seq.
Qed.

Lemma relabel_length {L A} (rs : list (L * A)) : length (relabel rs) = length rs.
Proof. by rewrite <- (length_map snd), relabel_snd, length_map. Qed.

Lemma relabel_fst {L A} (rs : list (L * A)) : map fst (relabel rs) = seq 0 (length rs).
Proof.
  unfold relabel. rewrite fst_zip; [done|]. by rewrite length_map, length_seq.
Qed.

Lemma Forall_relabel {L A} (P : A → Prop) (rs : list (L * A)) :
  Forall (λ r, P r.2) (relabel rs) ↔ Forall (λ r, P r.2) rs.
Proof.
  rewrite <- (Forall_map snd P), relabel_snd, Forall_map. done.
Qed.

Lemma reset_index_drop_wf {L} (f : frame L) : wf_frame f → wf_frame (reset_index_drop f).
Proof.
  intros [Hnd Hrows]. split; [done|]. unfold row_fits in *. simpl.
  by apply (Forall_relabel (λ r, length r = _)).
Qed.

Lemma NoDup_seq_labels {A} (rs : list (nat * A)) :
  map fst rs = seq 0 (length rs) → NoDup (map fst rs).
Proof. intros ->. apply NoDup_seq. Qed.

(** [reset_index()] moves the index into a new first column: the frame
    stays well formed when the index name is not a column, and the new
    labels are unique. *)
Lemma reset_index_wf {L} iname (lbl : L → cell) (f : frame L) :
  wf_frame f → iname ∉ columns f →
  wf_frame (reset_index iname lbl f) ∧ NoDup (map fst (rows (reset_index iname lbl f))).
Proof.
  intros [Hnd Hrows] Hin. split; [split|].
  - by constructor.
  - unfold row_fits in *. simpl. apply (Forall_relabel (λ r, length r = _)).
    apply Forall_map. eapply Forall_impl; [exact Hrows|]. intros r Hr. simpl. by rewrite Hr.
  - simpl. rewrite relabel_fst. apply NoDup_seq.
Qed.

#[export] Hint Resolve reset_index_drop_wf col_index_lt : pandas.
