(* ===== verification/Loader.v ===== *)
(** * The Loader: [df = pd.read_csv('tmdb-movies.csv')] (line 42)

    pandas' default C engine reads the file in three stages, each a part
    of this file:
    - the tokenizer of [pandas/_libs/src/parser/tokenizer.c]
      ([tokenize_bytes], [end_field], [end_line], [parser_handle_eof]): a
      state machine over the characters that cuts the text into lines of
      fields, with double-quote quoting (two quotes for one inside quotes), blank
      and whitespace-only lines skipped, short lines padded with empty
      fields and long lines refused ([ParserError]);
    - the header of [TextReader._get_header] ([parsers.pyx]): empty names
      become ["Unnamed: i"] and repeated names are renamed ["x.1"],
      ["x.2"], ... by a [while] loop;
    - the column conversion of [TextReader._convert_tokens]: a column whose
      fields are all missing ([STR_NA_VALUES]) or numbers ([xstrtod]) is
      numeric, one of missing values and [True]/[False] words is boolean
      (kept here as 1 and 0, which is how the script's operations treat a
      bool), and any other column holds strings, missing fields being NaN;
      [column_is_object] is the dtype this gives ([object] for the last
      kind, and for every column of a file without data lines), and
      [object_cells] reads it back off the loaded cells.
    When the first data line has more fields than the header, the extra
    leading fields become the index; otherwise the rows are numbered. *)

From Stdlib Require Import Ascii DecimalString DecimalNat.
From stdpp Require Import gmap.
From S2P Require Import Prelude Frame.

Module Loader.


(** ** Characters and numbers in text *)

Definition comma : ascii := ","%char.
Definition quote : ascii := ascii_of_nat 34.
Definition newline : ascii := ascii_of_nat 10.

(** [IS_WHITESPACE] of the tokenizer. *)
Definition is_whitespace (c : ascii) : bool := bool_decide (c = " "%char ∨ c = ascii_of_nat 9).

(** [f"{n}"]. *)
Definition show_nat (n : nat) : string := NilEmpty.string_of_uint (Nat.to_uint n).

(** The prefix the Python layer puts before a tokenizer error. *)
Definition c_error (msg : string) : string := "Error tokenizing data. C error: " +:+ msg.

(** ** The tokenizer *)

Inductive tstate :=
| START_RECORD | START_FIELD | IN_FIELD | IN_QUOTED_FIELD | QUOTE_IN_QUOTED_FIELD
| WHITESPACE_LINE.

(** The parser's buffers: the characters of the field being read (last
    first), the fields of the line being read (last first), the completed
    lines (last first), and [file_lines], the number of lines of the file
    consumed, skipped lines included. *)
Record parser := mk_parser {
  pstate : tstate;
  stream : list ascii;
  words : list string;
  lines : list (list string);
  file_lines : nat
}.

Definition init_parser : parser := mk_parser START_RECORD [] [] [] 0.

(** [PUSH_CHAR(c)] and a new state. *)
Definition push (c : ascii) (st : tstate) (p : parser) : parser :=
  mk_parser st (c :: stream p) (words p) (lines p) (file_lines p).

Definition set_state (st : tstate) (p : parser) : parser :=
  mk_parser st (stream p) (words p) (lines p) (file_lines p).

(** [END_FIELD()]: the characters read become a field. *)
Definition end_field (st : tstate) (p : parser) : parser :=
  mk_parser st [] (String.string_of_list_ascii (rev (stream p)) :: words p) (lines p) (file_lines p).

(** [end_line]: the header line (line 0) is taken as it is; a data line
    with fewer fields than the line before is padded with empty fields; a
    line after the first data line with more fields than the line before
    raises. *)
Definition end_line (p : parser) : result parser :=
  let fs := rev (words p) in
  let n := length fs in
  match lines p with
  | [] => Ok (mk_parser START_RECORD [] [] [fs] (S (file_lines p)))
  | prev :: older =>
      let ex := length prev in
      if bool_decide (older ≠ [] ∧ ex < n) then
        Err (ParserError (c_error ("Expected " +:+ show_nat ex +:+ " fields in line "
                +:+ show_nat (S (file_lines p)) +:+ ", saw " +:+ show_nat n
                +:+ String newline EmptyString)))
      else Ok (mk_parser START_RECORD [] []
                 ((fs ++ replicate (ex - n) EmptyString) :: lines p) (S (file_lines p)))
  end.

(** A blank or whitespace-only line is skipped ([skip_blank_lines]). *)
Definition skip_line (p : parser) : parser :=
  mk_parser START_RECORD [] [] (lines p) (S (file_lines p)).

(** The [START_FIELD] case. *)
Definition start_field (c : ascii) (p : parser) : result parser :=
  if decide (c = newline) then end_line (end_field START_FIELD p)
  else if decide (c = quote) then Ok (set_state IN_QUOTED_FIELD p)
  else if decide (c = comma) then Ok (end_field START_FIELD p)
  else Ok (push c IN_FIELD p).

(** The [IN_FIELD] case: a quote inside an unquoted field is a character. *)
Definition in_field (c : ascii) (p : parser) : result parser :=
  if decide (c = newline) then end_line (end_field START_FIELD p)
  else if decide (c = comma) then Ok (end_field START_FIELD p)
  else Ok (push c IN_FIELD p).

(** One character.  A line that starts with blanks is [WHITESPACE_LINE]
    until its first other character; the C code then backtracks to the
    start of the line and reads it as a field, which is [in_field] on the
    blanks kept in the buffer. *)
Definition step (p : parser) (c : ascii) : result parser :=
  match pstate p with
  | START_RECORD =>
      if decide (c = newline) then Ok (skip_line p)
      else if is_whitespace c then Ok (push c WHITESPACE_LINE p)
      else start_field c p
  | WHITESPACE_LINE =>
      if decide (c = newline) then Ok (skip_line p)
      else if is_whitespace c then Ok (push c WHITESPACE_LINE p)
      else in_field c p
  | START_FIELD => start_field c p
  | IN_FIELD => in_field c p
  | IN_QUOTED_FIELD =>
      if decide (c = quote) then Ok (set_state QUOTE_IN_QUOTED_FIELD p)
      else Ok (push c IN_QUOTED_FIELD p)
  | QUOTE_IN_QUOTED_FIELD =>
      if decide (c = quote) then Ok (push c IN_QUOTED_FIELD p)
      else if decide (c = comma) then Ok (end_field START_FIELD p)
      else if decide (c = newline) then end_line (end_field START_FIELD p)
      else Ok (push c IN_FIELD p)
  end.

Fixpoint feed (p : parser) (s : string) : result parser :=
  match s with
  | EmptyString => Ok p
  | String c s' => p' ← step p c; feed p' s'
  end.

(** [parser_handle_eof]. *)
Definition handle_eof (p : parser) : result parser :=
  match pstate p with
  | START_RECORD | WHITESPACE_LINE => Ok p
  | IN_QUOTED_FIELD =>
      Err (ParserError (c_error ("EOF inside string starting at row " +:+ show_nat (file_lines p))))
  | _ => end_line (end_field START_FIELD p)
  end.

(** The lines of the file, header first. *)
Definition tokenize (text : string) : result (list (list string)) :=
  p ← feed init_parser text;
  p' ← handle_eof p;
  mret (rev (lines p')).

(** ** The header *)

(** An empty name is replaced by its position. *)
Definition unnamed (i : nat) (name : string) : string :=
  if decide (name = EmptyString) then "Unnamed: " +:+ show_nat i else name.

Definition mangled (old : string) (k : nat) : string := old +:+ "." +:+ show_nat k.

(** The [while cur_count > 0] loop of [_get_header]:
<<
    while cur_count > 0:
        counts[old_col] = cur_count + 1
        col = f"{old_col}.{cur_count}"
        if col in this_header:
            cur_count += 1
        else:
            cur_count = counts.get(col, 0)
>>
    with [fuel] bounding the number of iterations; [mangle_loop_exits]
    shows that the fuel [mangle_one] gives is enough. *)
Fixpoint mangle_loop (fuel : nat) (hdr : list string) (counts : gmap string nat)
    (old col : string) (cur : nat) : string * gmap string nat * nat :=
  match fuel with
  | O => (col, counts, cur)
  | S f =>
      if decide (cur = 0) then (col, counts, cur)
      else
        let counts' := <[old := S cur]> counts in
        let col' := mangled old cur in
        if decide (col' ∈ hdr) then mangle_loop f hdr counts' old col' (S cur)
        else mangle_loop f hdr counts' old col' (default 0 (counts' !! col'))
  end.

(** One iteration of [for i in col_loop_order]. *)
Definition mangle_one (hc : list string * gmap string nat) (i : nat)
    : list string * gmap string nat :=
  let '(hdr, counts) := hc in
  let old := hdr !!! i in
  let '(col, counts', cur) :=
    mangle_loop (S (length hdr)) hdr counts old old (default 0 (counts !! old)) in
  (<[i := col]> hdr, <[col := S cur]> counts').

(** Named columns are visited before unnamed ones. *)
Definition col_loop_order (raw : list string) : list nat :=
  filter (λ i, raw !!! i ≠ EmptyString) (seq 0 (length raw))
  ++ filter (λ i, raw !!! i = EmptyString) (seq 0 (length raw)).

Definition header_names (raw : list string) : list string :=
  (foldl mangle_one (imap unnamed raw, ∅) (col_loop_order raw)).1.

(** ** Reading a field *)

(** [STR_NA_VALUES], the default [na_values]. *)
Definition na_values : list string :=
  ["-1.#IND"; "1.#QNAN"; "1.#IND"; "-1.#QNAN"; "#N/A N/A"; "#N/A"; "N/A"; "n/a";
   "NA"; "<NA>"; "#NA"; "NULL"; "null"; "NaN"; "-NaN"; "nan"; "-nan"; "None"; ""].

Definition is_na (s : string) : bool := bool_decide (s ∈ na_values).

(** [isspace_ascii] and [isdigit_ascii]. *)
Definition isspace_ascii (c : ascii) : bool :=
  let n := nat_of_ascii c in bool_decide (n = 32 ∨ 9 ≤ n ≤ 13).

Definition digit_of (c : ascii) : option Z :=
  let n := nat_of_ascii c in
  if bool_decide (48 ≤ n ≤ 57) then Some (Z.of_nat n - 48)%Z else None.

Fixpoint skip_space (s : string) : string :=
  match s with
  | String c s' => if isspace_ascii c then skip_space s' else s
  | EmptyString => s
  end.

(** An optional sign: [true] for a minus. *)
Definition take_sign (s : string) : bool * string :=
  match s with
  | String c s' =>
      if decide (c = "-"%char) then (true, s')
      else if decide (c = "+"%char) then (false, s') else (false, s)
  | EmptyString => (false, s)
  end.

(** A run of digits, accumulated onto [acc]: the value, the number of
    digits and the rest. *)
Fixpoint take_digits (s : string) (acc : Z) : Z * nat * string :=
  match s with
  | String c s' =>
      match digit_of c with
      | Some d => let '(v, k, r) := take_digits s' (acc * 10 + d)%Z in (v, S k, r)
      | None => (acc, 0, s)
      end
  | EmptyString => (acc, 0, s)
  end.

Definition signed (neg : bool) (z : Z) : Z := if neg then (- z)%Z else z.

(** [precise_xstrtod] with [decimal='.'], [sci='E'], no thousands
    separator and trailing blanks skipped, followed by the caller's check
    that the whole field was read: blanks, a sign, digits with an optional
    fraction (at least one digit in all), an optional exponent whose
    letter must be followed by digits, blanks.  The value is exact. *)
Definition xstrtod (s : string) : option Q :=
  let '(neg, s1) := take_sign (skip_space s) in
  let '(m, nint, s2) := take_digits s1 0 in
  let '(m', nfrac, s3) :=
    match s2 with
    | String c s' => if decide (c = "."%char) then take_digits s' m else (m, 0, s2)
    | EmptyString => (m, 0, s2)
    end in
  if decide (nint + nfrac = 0) then None
  else
    let exp :=
      match s3 with
      | String c s' =>
          if decide (c = "e"%char ∨ c = "E"%char) then
            let '(eneg, s4) := take_sign s' in
            let '(e, k, s5) := take_digits s4 0 in
            if decide (k = 0) then None else Some (signed eneg e, s5)
          else Some (0%Z, s3)
      | EmptyString => Some (0%Z, s3)
      end in
    match exp with
    | Some (e, s6) =>
        if decide (skip_space s6 = EmptyString)
        then Some (inject_Z (signed neg m') * Qpower 10 (e - Z.of_nat nfrac))%Q
        else None
    | None => None
    end.

(** The boolean words of [_true_values] and [_false_values]. *)
Definition bool_word (s : string) : option Q :=
  if bool_decide (s ∈ ["True"; "TRUE"; "true"]) then Some 1%Q
  else if bool_decide (s ∈ ["False"; "FALSE"; "false"]) then Some 0%Q else None.

Definition convert_with (parse : string → option Q) (s : string) : option cell :=
  if is_na s then Some CNaN else CNum <$> parse s.

(** [_convert_tokens] without a dtype: integers and floats, then booleans,
    then objects. *)
Definition convert_column (fs : list string) : list cell :=
  match mapM (convert_with xstrtod) fs with
  | Some cs => cs
  | None =>
      match mapM (convert_with bool_word) fs with
      | Some cs => cs
      | None => map (λ s, if is_na s then CNaN else CStr s) fs
      end
  end.

(** Whether [_convert_tokens] leaves the column of dtype [object]: its
    fields parse neither as numbers nor as booleans.  A file with no data
    line gives [object] columns ([_get_empty_meta]). *)
Definition column_is_object (fs : list string) : bool :=
  match fs with
  | [] => true
  | _ =>
      match mapM (convert_with xstrtod) fs, mapM (convert_with bool_word) fs with
      | None, None => true
      | _, _ => false
      end
  end.

(** The same dtype read off the cells of a loaded column: an [object]
    column is an empty one or one holding a string. *)
Definition object_cells (cs : list cell) : bool :=
  match cs with [] => true | _ => existsb is_str cs end.

(** ** The frame *)

Definition column_fields (rs : list (list string)) (j : nat) : list string :=
  map (λ r, r !!! j) rs.

Definition convert_rows (width : nat) (rs : list (list string)) : list (list cell) :=
  let cols := map (λ j, convert_column (column_fields rs j)) (seq 0 width) in
  imap (λ i _, map (λ col, col !!! i) cols) rs.

(** The result: a frame with a [RangeIndex], or, when the first data line
    is longer than the header, a frame indexed by its leading fields. *)
Inductive loaded :=
| RangeLoad (f : frame nat)
| IndexLoad (f : frame (list cell)).

(** [pd.read_csv(path)] on the text of the file; a file with no line
    raises [EmptyDataError], a [ValueError]. *)
Definition read_csv (text : string) : result loaded :=
  ls ← tokenize text;
  match ls with
  | [] => Err (ValueError "No columns to parse from file")
  | raw :: data =>
      let names := header_names raw in
      let width := match data with [] => length raw | r :: _ => length r end in
      let k := width - length raw in
      let cells := convert_rows width data in
      if decide (k = 0) then Ok (RangeLoad (mk_frame names (imap pair cells)))
      else Ok (IndexLoad (mk_frame names (map (λ r, (take k r, drop k r)) cells)))
  end.

(** [pd.read_csv(path)]: the file system maps paths to the text of the
    files; a missing file raises [FileNotFoundError]. *)
Definition read_csv_path (fs : gmap string string) (path : string) : result loaded :=
  match fs !! path with
  | Some text => read_csv text
  | None => Err (FileNotFoundError path)
  end.


(** ** Writing CSV text *)

(** The text Python's [csv.writer] produces with [QUOTE_MINIMAL] and
    line feeds, as [DataFrame.to_csv] writes it: a field holding a comma,
    a quote or a line end is quoted, its quotes doubled; a line that would
    be empty is written as two quotes.  It is the inverse the tokenizer is
    checked against. *)
Definition special (c : ascii) : bool :=
  bool_decide (c = comma ∨ c = quote ∨ c = newline ∨ c = ascii_of_nat 13).

Fixpoint has_special (s : string) : bool :=
  match s with EmptyString => false | String c s' => special c || has_special s' end.

Fixpoint all_ws (s : string) : bool :=
  match s with EmptyString => true | String c s' => is_whitespace c && all_ws s' end.

Fixpoint escape (s : string) : string :=
  match s with
  | EmptyString => EmptyString
  | String c s' =>
      if decide (c = quote) then String quote (String quote (escape s')) else String c (escape s')
  end.

Definition quoted (s : string) : string := String quote (escape s +:+ String quote EmptyString).

Definition write_field (f : string) : string := if has_special f then quoted f else f.

Fixpoint write_fields (fs : list string) : string :=
  match fs with
  | [] => EmptyString
  | [f] => write_field f
  | f :: fs => write_field f +:+ String comma (write_fields fs)
  end.

Definition write_line (r : list string) : string :=
  (if decide (r = [EmptyString]) then quoted EmptyString else write_fields r)
  +:+ String newline EmptyString.

Definition write_csv (ls : list (list string)) : string :=
  foldr (λ r s, write_line r +:+ s) EmptyString ls.

(** A line the reader gets back: not empty, and not a single field of
    blanks, which the writer leaves unquoted and the reader skips as a
    blank line. *)
Definition writable (r : list string) : bool :=
  match r with
  | [] => false
  | [f] => negb (all_ws f && bool_decide (f ≠ EmptyString))
  | _ => true
  end.

(** Resolve the [decide]s of the tokenizer on known characters. *)
Ltac dec_simp :=
  repeat first [ rewrite decide_True by done | rewrite decide_False by done
               | rewrite decide_True by (intros; discriminate)
               | rewrite decide_False by (intros ?; discriminate) ].

(** One character of the tokenizer. *)
Ltac step1 :=
  cbn [feed]; unfold step, start_field, in_field; cbn [pstate]; dec_simp; simpl;
  unfold push, set_state; cbn [stream words lines file_lines].

(** ** The header names are distinct *)

Lemma show_nat_inj n m : show_nat n = show_nat m → n = m.
Proof.
  unfold show_nat. intros H. apply (f_equal NilEmpty.uint_of_string) in H.
  rewrite !NilEmpty.usu in H. injection H as H.
  by rewrite <- (DecimalNat.Unsigned.of_to n), <- (DecimalNat.Unsigned.of_to m), H.
Qed.

Lemma string_app_cancel_l (a s t : string) : a +:+ s = a +:+ t → s = t.
Proof. induction a as [|c a IH]; simpl; [done|]. intros H. injection H. apply IH. Qed.

Lemma mangled_inj old k k' : mangled old k = mangled old k' → k = k'.
Proof.
  unfold mangled. intros H. apply string_app_cancel_l in H. injection H. apply show_nat_inj.
Qed.

(** The names [old.cur], [old.(cur+1)], ... are distinct, so at most
    [length hdr] consecutive ones are taken. *)
Lemma mangled_run_bound (hdr : list string) old cur m :
  (∀ k, cur ≤ k < cur + m → mangled old k ∈ hdr) → m ≤ length hdr.
Proof.
  intros H. transitivity (length (map (mangled old) (seq cur m))); [by rewrite length_map, length_seq|].
  apply NoDup_incl_length.
  - apply NoDup_map_NoDup_ForallPairs; [|apply seq_NoDup]. intros ????. apply mangled_inj.
  - intros x Hx. apply in_map_iff in Hx as (k & <- & Hk). apply in_seq in Hk.
    apply list_elem_of_In, H. lia.
Qed.

Definition dom_in (hdr : list string) (counts : gmap string nat) : Prop :=
  ∀ x, is_Some (counts !! x) → x ∈ hdr.

Lemma mangle_loop_zero f hdr counts old col : mangle_loop f hdr counts old col 0 = (col, counts, 0).
Proof. by destruct f. Qed.

(** The loop exits ([cur_count] is 0) on a name not in the header, having
    only raised the count of [old], when the fuel exceeds every run of
    taken names. *)
Lemma mangle_loop_exits f hdr counts old col cur :
  old ∈ hdr → dom_in hdr counts → 0 < cur →
  (∀ m, (∀ k, cur ≤ k < cur + m → mangled old k ∈ hdr) → m < f) →
  ∃ col' v, mangle_loop f hdr counts old col cur = (col', <[old := v]> counts, 0)
            ∧ 0 < v ∧ col' ∉ hdr.
Proof.
  revert counts col cur. induction f as [|f IH]; intros counts col cur Hold Hdom Hcur Hrun.
  { exfalso. apply (Nat.lt_irrefl 0), Hrun. lia. }
  simpl. destruct (decide (cur = 0)); [lia|].
  assert (dom_in hdr (<[old:=S cur]> counts)) as Hdom'.
  { intros x [<-|[_ Hx]]%lookup_insert_is_Some; auto. }
  destruct (decide (mangled old cur ∈ hdr)) as [Hin|Hnin].
  - destruct (IH (<[old:=S cur]> counts) (mangled old cur) (S cur)) as (col' & v & -> & Hv & Hc);
      [done|done|lia| |].
    + intros m Hm. enough (S m < S f) by lia. apply Hrun. intros k Hk.
      destruct (decide (k = cur)) as [->|]; [done|]. apply Hm. lia.
    + exists col', v. by rewrite insert_insert_eq.
  - assert (<[old:=S cur]> counts !! mangled old cur = None) as ->.
    { apply eq_None_not_Some. by intros ?%Hdom'. }
    simpl. rewrite mangle_loop_zero. exists (mangled old cur), (S cur). split_and!; [done|lia|done].
Qed.

Definition names_at (hdr : list string) (done : list nat) : list string := map (λ j, hdr !!! j) done.

Lemma names_at_insert hdr done i x :
  i ∉ done → names_at (<[i:=x]> hdr) done = names_at hdr done.
Proof.
  intros Hi. apply map_ext_in. intros j Hj%list_elem_of_In.
  rewrite list_lookup_total_insert_ne; [done|]. by intros ->.
Qed.

Lemma names_at_in hdr done : Forall (λ j, j < length hdr) done → ∀ x, x ∈ names_at hdr done → x ∈ hdr.
Proof.
  intros Hb x (j & <- & Hj)%list_elem_of_In%in_map_iff.
  apply list_elem_of_lookup_total_2. rewrite Forall_forall in Hb. apply Hb, list_elem_of_In, Hj.
Qed.

(** What the fold of [mangle_one] keeps: the names given so far are
    distinct, they are exactly the keys of [counts], and every count is
    positive. *)
Record mangle_inv (n : nat) (done : list nat) (hc : list string * gmap string nat) : Prop := {
  inv_len : length hc.1 = n;
  inv_bound : Forall (λ j, j < n) done;
  inv_dom : ∀ x, is_Some (hc.2 !! x) ↔ x ∈ names_at hc.1 done;
  inv_pos : ∀ x v, hc.2 !! x = Some v → 0 < v;
  inv_nodup : NoDup (names_at hc.1 done)
}.

(** [mangle_one] gives position [i] a name not given before, and only
    adds that name to the counts. *)
Lemma mangle_one_fresh n done hdr counts i :
  i < n → mangle_inv n done (hdr, counts) →
  ∃ col counts', mangle_one (hdr, counts) i = (<[i:=col]> hdr, <[col := 1]> counts')
    ∧ (col ∉ names_at hdr done)
    ∧ (∀ x, is_Some (counts' !! x) ↔ is_Some (counts !! x))
    ∧ (∀ x v, counts' !! x = Some v → 0 < v).
Proof.
  intros Hi [Hlen Hb Hdom Hpos _]. cbn [fst snd] in Hlen, Hb, Hdom, Hpos.
  assert (hdr !!! i ∈ hdr) as Hold by (apply list_elem_of_lookup_total_2; lia).
  assert (dom_in hdr counts) as Hdin by (intros x Hx; by apply (names_at_in hdr done); [rewrite Hlen|apply Hdom]).
  unfold mangle_one. destruct (counts !! (hdr !!! i)) as [v|] eqn:Hv; cbv [default id].
  - destruct (mangle_loop_exits (S (length hdr)) hdr counts (hdr !!! i) (hdr !!! i) v)
      as (col & v' & -> & Hv' & Hc); [done|done|by eapply Hpos| |].
    { intros m Hm%mangled_run_bound. lia. }
    exists col, (<[hdr !!! i := v']> counts). split_and!; [done| |..].
    + intros Hin. by apply Hc, (names_at_in hdr done); [rewrite Hlen|].
    + intros x. rewrite lookup_insert_is_Some'. split; [|by right].
      intros [<-|?]; [by rewrite Hv|done].
    + intros x w [[<- <-]|[_ Hx]]%lookup_insert_Some; [done|by eapply Hpos].
  - rewrite mangle_loop_zero. exists (hdr !!! i), counts. split_and!; [done| |done|done].
    intros Hin%Hdom. by rewrite Hv in Hin; destruct Hin.
Qed.

Lemma mangle_one_inv n done hc i :
  i < n → i ∉ done → mangle_inv n done hc → mangle_inv n (done ++ [i]) (mangle_one hc i).
Proof.
  destruct hc as [hdr counts]. intros Hi Hnd Hinv.
  destruct (mangle_one_fresh n done hdr counts i Hi Hinv) as (col & counts' & -> & Hc & Hd & Hp).
  destruct Hinv as [Hlen Hb Hdom Hpos Hnodup]; simpl in *.
  assert (names_at (<[i:=col]> hdr) (done ++ [i]) = names_at hdr done ++ [col]) as Hnames.
  { unfold names_at at 1. rewrite map_app, <- (names_at_insert hdr done i col Hnd). simpl.
    rewrite list_lookup_total_insert_eq by lia. done. }
  split; simpl; rewrite ?Hnames.
  - by rewrite length_insert.
  - apply Forall_app. auto.
  - intros x. rewrite lookup_insert_is_Some', Hd, Hdom, elem_of_app, list_elem_of_singleton.
    naive_solver.
  - intros x v [[<- <-]|[_ Hx]]%lookup_insert_Some; [lia|by eapply Hp].
  - apply NoDup_app. split_and!; [done| |apply NoDup_singleton].
    intros x Hx ->%list_elem_of_singleton. done.
Qed.

Lemma foldl_mangle_inv n l done hc :
  NoDup (done ++ l) → Forall (λ j, j < n) l → mangle_inv n done hc →
  mangle_inv n (done ++ l) (foldl mangle_one hc l).
Proof.
  revert done hc. induction l as [|i l IH]; intros done hc Hnd Hb Hinv; simpl.
  { by rewrite app_nil_r. }
  apply Forall_cons in Hb as [Hi Hb]. rewrite cons_middle, app_assoc in Hnd |- *.
  apply IH; [done|done|]. apply mangle_one_inv; [done| |done].
  intros Hin. apply NoDup_app in Hnd as (Hnd & _ & _). apply NoDup_app in Hnd as (_ & Hdis & _).
  by apply (Hdis i Hin), list_elem_of_singleton.
Qed.

Lemma names_at_seq (hdr : list string) : names_at hdr (seq 0 (length hdr)) = hdr.
Proof.
  induction hdr as [|x hdr IH]; [done|]. cbn [length]. rewrite <- cons_seq, <- seq_shift.
  unfold names_at in *. simpl. rewrite map_map. simpl. by rewrite IH.
Qed.

Lemma col_loop_order_perm raw : col_loop_order raw ≡ₚ seq 0 (length raw).
Proof.
  unfold col_loop_order.
  rewrite (list_filter_iff (λ i, raw !!! i = EmptyString) (λ i, ¬ raw !!! i ≠ EmptyString)).
  - apply (filter_app_complement (λ i, raw !!! i ≠ EmptyString)).
  - intros x. destruct (decide (raw !!! x = EmptyString)); naive_solver.
Qed.

Lemma header_inv raw :
  mangle_inv (length raw) (col_loop_order raw)
    (foldl mangle_one (imap unnamed raw, ∅) (col_loop_order raw)).
Proof.
  rewrite <- (app_nil_l (col_loop_order raw)). apply foldl_mangle_inv.
  - rewrite col_loop_order_perm. apply NoDup_seq.
  - rewrite col_loop_order_perm. apply Forall_seq. lia.
  - split; simpl; [by rewrite length_imap|done| |done|constructor].
    intros x. rewrite lookup_empty. split; [by intros []|by intros ?%elem_of_nil].
Qed.

Lemma header_names_length raw : length (header_names raw) = length raw.
Proof. apply (inv_len _ _ _ (header_inv raw)). Qed.

(** The column names [read_csv] gives are distinct, whatever the header. *)
Lemma header_names_nodup raw : NoDup (header_names raw).
Proof.
  pose proof (inv_nodup _ _ _ (header_inv raw)) as Hnd.
  rewrite <- (names_at_seq (header_names raw)), header_names_length.
  unfold names_at in *. by rewrite <- col_loop_order_perm.
Qed.

(** ** The shape of the lines *)

(** What [end_line] keeps of the completed lines (most recent first):
    the data lines all have one length, at least the header's. *)
Definition lines_ok (ls : list (list string)) : Prop :=
  match rev ls with
  | [] => True
  | h :: data => ∃ w, length h ≤ w ∧ Forall (λ r, length r = w) data
  end.

Lemma end_line_ok p p' : end_line p = Ok p' → lines_ok (lines p) → lines_ok (lines p').
Proof.
  unfold end_line, lines_ok. destruct (lines p) as [|prev older]; intros Hp Hok.
  { injection Hp as <-. simpl. by exists (length (rev (words p))). }
  case_bool_decide as Hlong; [done|]. injection Hp as <-. cbn [lines rev] in *.
  destruct older as [|o older].
  - simpl. exists (length (rev (words p)) + (length prev - length (rev (words p)))).
    split; [lia|]. constructor; [|done]. by rewrite length_app, length_replicate.
  - assert (¬ length prev < length (rev (words p))) by (intros ?; by apply Hlong).
    cbn [rev] in Hok |- *. destruct (rev older ++ [o]) as [|h data] eqn:Ho.
    { by destruct (rev older). }
    simpl in *. destruct Hok as (w & Hw & Hdata). exists w. split; [done|].
    apply Forall_app. split; [done|]. constructor; [|done].
    apply Forall_app in Hdata as [_ Hprev]. apply Forall_cons in Hprev as [Hprev _].
    rewrite length_app, length_replicate. lia.
Qed.

Lemma step_lines_ok p c p' : step p c = Ok p' → lines_ok (lines p) → lines_ok (lines p').
Proof.
  unfold step, start_field, in_field. intros Hp Hok.
  repeat case_match; simplify_eq/=; try done; by eapply end_line_ok.
Qed.

Lemma feed_lines_ok s p p' : feed p s = Ok p' → lines_ok (lines p) → lines_ok (lines p').
Proof.
  revert p. induction s as [|c s IH]; intros p Hp Hok; simpl in Hp; [by simplify_eq|].
  destruct (step p c) as [q|] eqn:Hq; [|done]. apply (IH q); [done|]. by eapply step_lines_ok.
Qed.

Lemma tokenize_shape text ls :
  tokenize text = Ok ls →
  match ls with [] => True | h :: data => ∃ w, length h ≤ w ∧ Forall (λ r, length r = w) data end.
Proof.
  unfold tokenize. destruct (feed init_parser text) as [p|] eqn:Hp; [|done]. simpl.
  destruct (handle_eof p) as [p'|] eqn:He; [|done]. intros [= <-].
  assert (lines_ok (lines p')) as Hok; [|exact Hok].
  assert (lines_ok (lines p)) as Hp' by (by eapply (feed_lines_ok _ init_parser)).
  unfold handle_eof in He. repeat case_match; simplify_eq; try done; by eapply end_line_ok.
Qed.

(** ** The frame [read_csv] builds *)

(** A column of one type: numbers and NaN, or strings and NaN. *)
Definition column_typed (cs : list cell) : Prop :=
  Forall float_cell cs ∨ Forall (λ c, ∀ q, c ≠ CNum q) cs.

Lemma mapM_convert_float parse fs cs :
  mapM (convert_with parse) fs = Some cs → length cs = length fs ∧ Forall float_cell cs.
Proof.
  intros Hm%mapM_Some. split; [by rewrite (Forall2_length _ _ _ Hm)|].
  induction Hm as [|s c fs cs Hc _ IH]; constructor; [|done].
  unfold convert_with in Hc. case_match; [by injection Hc as <-|].
  apply fmap_Some in Hc as (q & _ & ->). done.
Qed.

Lemma convert_column_length fs : length (convert_column fs) = length fs.
Proof.
  unfold convert_column. repeat case_match; try by eapply mapM_convert_float. apply length_map.
Qed.

(** Every column [read_csv] builds is of one type. *)
Lemma convert_column_typed fs : column_typed (convert_column fs).
Proof.
  unfold convert_column, column_typed.
  repeat case_match; try (left; by eapply mapM_convert_float).
  right. apply Forall_map, Forall_forall. intros s _ q. by case_match.
Qed.

Lemma convert_rows_shape w rs :
  length (convert_rows w rs) = length rs ∧ Forall (λ r, length r = w) (convert_rows w rs).
Proof.
  unfold convert_rows. split; [apply length_imap|].
  apply Forall_lookup. intros i r (x & _ & Hr)%list_lookup_imap_Some. subst r.
  by rewrite length_map, length_map, length_seq.
Qed.

Lemma convert_rows_column w rs j :
  j < w → map (λ r, r !!! j) (convert_rows w rs) = convert_column (column_fields rs j).
Proof.
  intros Hj. apply (list_eq_same_length _ _ (length rs)).
  { by rewrite convert_column_length; unfold column_fields; rewrite length_map. }
  { by rewrite length_map, (proj1 (convert_rows_shape w rs)). }
  intros i x y Hi. rewrite lookup_map_list. unfold convert_rows.
  rewrite list_lookup_imap, (list_lookup_lookup_total_lt rs i Hi). simpl.
  intros [= <-] Hy. rewrite <- (list_lookup_total_correct _ _ _ Hy).
  rewrite lookup_total_map_list by (rewrite length_map, length_seq; lia).
  rewrite lookup_total_map_list by (rewrite length_seq; lia).
  by rewrite lookup_total_seq_lt by lia.
Qed.

Lemma imap_pair_labels {A} (l : list A) :
  map fst (imap pair l) = seq 0 (length l) ∧ map snd (imap pair l) = l.
Proof.
  cut (∀ k, map fst (imap (λ i x, (k + i, x)) l) = seq k (length l)
            ∧ map snd (imap (λ i x, (k + i, x)) l) = l); [intros H; apply (H 0)|].
  induction l as [|x l IH]; intros k; [done|]. rewrite imap_cons. simpl.
  rewrite (imap_ext _ (λ i y, (S k + i, y))) by (intros; simpl; f_equal; lia).
  destruct (IH (S k)) as [-> ->]. by rewrite Nat.add_0_r.
Qed.


Lemma read_csv_range text f :
  read_csv text = Ok (RangeLoad f) →
  ∃ raw data, tokenize text = Ok (raw :: data) ∧ columns f = header_names raw ∧
    rows f = imap pair (convert_rows (length raw) data).
Proof.
  unfold read_csv. destruct (tokenize text) as [ls|] eqn:Ht; [|done]. simpl.
  destruct ls as [|raw data]; [done|].
  destruct (tokenize_shape _ _ Ht) as (w & Hw & Hd).
  case_decide as Hk; [|done]. intros [= <-]. exists raw, data. split_and!; [done|done|]. simpl.
  do 3 f_equal. destruct data as [|r data]; [done|]. apply Forall_cons in Hd as [Hr _]. simpl in *. lia.
Qed.

Lemma range_column (raw : list string) (data : list (list string)) j :
  j < length raw →
  map (λ r, r.2 !!! j) (imap pair (convert_rows (length raw) data))
  = convert_column (column_fields data j).
Proof.
  intros Hj. destruct (imap_pair_labels (convert_rows (length raw) data)) as [_ Hsnd].
  replace (map (λ r, r.2 !!! j) _)
    with (map (λ r, r !!! j) (map snd (imap pair (convert_rows (length raw) data))))
    by (by rewrite map_map).
  by rewrite Hsnd, convert_rows_column.
Qed.

(** C17: the frame [pd.read_csv] returns with a [RangeIndex] is well
    formed (distinct column names, one cell per column in every row), its
    rows are numbered [0 .. n-1], and each column has one type: numbers
    and NaN, or strings and NaN, never numbers and strings mixed. *)
Theorem read_csv_frame text f :
  read_csv text = Ok (RangeLoad f) →
  wf_frame f ∧ map fst (rows f) = seq 0 (length (rows f)) ∧
  ∀ j, j < length (columns f) → column_typed (map (λ r, r.2 !!! j) (rows f)).
Proof.
  intros (raw & data & _ & Hc & Hr)%read_csv_range. unfold wf_frame. rewrite Hc, Hr.
  destruct (imap_pair_labels (convert_rows (length raw) data)) as [Hfst Hsnd].
  destruct (convert_rows_shape (length raw) data) as [_ Hlen].
  split_and!.
  - apply header_names_nodup.
  - rewrite header_names_length.
    apply (Forall_map snd (λ r, length r = length raw)). by rewrite Hsnd.
  - by rewrite Hfst, length_imap.
  - intros j Hj. rewrite header_names_length in Hj.
    rewrite range_column by done. apply convert_column_typed.
Qed.

(** C28: when the first data line has [k] fields more than the header,
    pandas makes the [k] leading fields the index: the column named after
    the [j]-th header field holds the [(k + j)]-th field of every line, so
    the values sit [k] columns to the left of the name of the column they
    came from. *)
Theorem read_csv_implicit_index text raw r data :
  tokenize text = Ok (raw :: r :: data) → length raw < length r →
  ∃ f, read_csv text = Ok (IndexLoad f) ∧ columns f = header_names raw ∧
    ∀ j, j < length raw →
      map (λ row, row.2 !!! j) (rows f)
      = convert_column (column_fields (r :: data) (length r - length raw + j)).
Proof.
  intros Ht Hlong. unfold read_csv. rewrite Ht, Ok_bind. cbn beta iota zeta.
  rewrite decide_False by lia. eexists. split; [reflexivity|]. split; [done|].
  intros j Hj. cbn [rows]. rewrite map_map, <- (convert_rows_column (length r)) by lia.
  apply map_ext. intros x. apply lookup_total_drop.
Qed.

(** A column of the file whose fields are all numbers or missing values
    is read as numbers. *)
Lemma convert_column_numeric fs :
  Forall (λ s, is_na s = true ∨ is_Some (xstrtod s)) fs → Forall float_cell (convert_column fs).
Proof.
  intros Hfs. unfold convert_column.
  destruct (mapM_is_Some_2 (convert_with xstrtod) fs) as [cs Hcs].
  { eapply Forall_impl; [exact Hfs|]. intros s Hs. unfold compose, convert_with.
    destruct (is_na s) eqn:Hna; [by eexists|]. destruct Hs as [|[q ->]]; [congruence|by eexists]. }
  rewrite Hcs. by eapply mapM_convert_float.
Qed.


Lemma object_cells_str cs s : CStr s ∈ cs → object_cells cs = true.
Proof.
  destruct cs as [|c cs]; [by intros ?%not_elem_of_nil|]. intros Hs.
  apply existsb_exists. exists (CStr s). split; [by apply list_elem_of_In|done].
Qed.

(** The dtype of a loaded column can be read off its cells. *)
Lemma convert_column_object fs : object_cells (convert_column fs) = column_is_object fs.
Proof.
  destruct fs as [|f fs']; [done|]. unfold convert_column, column_is_object.
  destruct (mapM (convert_with xstrtod) _) as [cs|] eqn:Hn;
    [|destruct (mapM (convert_with bool_word) _) as [cs|] eqn:Hb].
  1,2: let H := match goal with H : mapM _ _ = Some _ |- _ => H end in
       destruct (mapM_convert_float _ _ _ H) as [Hl Hf];
       destruct cs as [|c cs]; [simpl in Hl; lia|]; apply not_true_iff_false;
       intros (x & Hx & Hs)%existsb_exists; rewrite Forall_forall in Hf;
       apply list_elem_of_In in Hx; apply Hf in Hx; destruct x as [t| |]; [by destruct (Hx t)|done|done].
  apply mapM_None_1, Exists_exists in Hb as (x & Hx & Hxb).
  apply (object_cells_str _ x), elem_of_map. exists x. split; [|done].
  unfold convert_with in Hxb. by destruct (is_na x).
Qed.

(** An [object] column of [read_csv] holds no number. *)
Lemma object_column_no_num fs :
  column_is_object fs = true → Forall (λ c, is_num c = false) (convert_column fs).
Proof.
  rewrite <- convert_column_object. destruct (convert_column_typed fs) as [Hf|Hn].
  - destruct (convert_column fs) as [|c cs]; [constructor|]. cbn [object_cells].
    intros (x & Hx & Hs)%existsb_exists. apply list_elem_of_In in Hx.
    rewrite Forall_forall in Hf. destruct x as [t| |]; [by destruct (Hf _ Hx t)|done|done].
  - intros _. eapply Forall_impl; [exact Hn|]. intros [t|q|] Hc; [done|by destruct (Hc q)|done].
Qed.



(** C23: the [while cur_count > 0] loop of [_get_header] terminates: with
    the fuel [mangle_one] gives it, [length hdr + 1], every call the header
    makes (the old name in the header, every counted name in the header)
    leaves the loop with [cur_count = 0], as Python's loop does, since the
    names [old.k] it tries are distinct and each but the last is taken. *)
Theorem mangle_loop_terminates hdr counts old cur :
  old ∈ hdr → dom_in hdr counts →
  (mangle_loop (S (length hdr)) hdr counts old old cur).2 = 0.
Proof.
  intros Hold Hdom. destruct cur as [|cur]; [by rewrite mangle_loop_zero|].
  destruct (mangle_loop_exits (S (length hdr)) hdr counts old old (S cur))
    as (col & v & -> & _); [done|done|lia| |done].
  intros m Hm%mangled_run_bound. lia.
Qed.

(** ** The tokenizer reads back what the writer writes *)

Lemma feed_app p s t : feed p (s +:+ t) = p' ← feed p s; feed p' t.
Proof.
  revert p. induction s as [|c s IH]; intros p; simpl; [done|].
  destruct (step p c); simpl; [apply IH|done].
Qed.

Definition chars_rev (s : string) (acc : list ascii) : list ascii :=
  rev (String.list_ascii_of_string s) ++ acc.

Lemma chars_rev_field s : String.string_of_list_ascii (rev (chars_rev s [])) = s.
Proof.
  unfold chars_rev. rewrite app_nil_r, rev_involutive. apply String.string_of_list_ascii_of_string.
Qed.

(** The inside of a quoted field and its closing quote. *)
Lemma feed_quoted_body s acc ws ls fl :
  feed (mk_parser IN_QUOTED_FIELD acc ws ls fl) (escape s +:+ String quote EmptyString)
  = Ok (mk_parser QUOTE_IN_QUOTED_FIELD (chars_rev s acc) ws ls fl).
Proof.
  revert acc. induction s as [|c s IH]; intros acc; simpl; [done|].
  assert (chars_rev (String c s) acc = chars_rev s (c :: acc)) as ->
    by (unfold chars_rev; simpl; by rewrite <- app_assoc).
  destruct (decide (c = quote)) as [->|Hc]; simpl; [step1; step1|step1]; apply IH.
Qed.

(** An unquoted field: every character is kept. *)
Lemma feed_plain s acc ws ls fl :
  has_special s = false →
  feed (mk_parser IN_FIELD acc ws ls fl) s = Ok (mk_parser IN_FIELD (chars_rev s acc) ws ls fl).
Proof.
  revert acc. induction s as [|c s IH]; intros acc Hs; simpl; [done|].
  simpl in Hs. apply orb_false_iff in Hs as [Hc Hs]. unfold special in Hc.
  rewrite bool_decide_eq_false in Hc.
  assert (c ≠ newline ∧ c ≠ comma) as [??] by naive_solver. step1.
  unfold chars_rev in *. rewrite (IH (c :: acc) Hs). simpl. by rewrite <- app_assoc.
Qed.

(** What a field delimiter does to the field read. *)
Definition close (d : ascii) (p : parser) : result parser :=
  if decide (d = comma) then Ok p else end_line p.

Definition delim (d : ascii) : Prop := d = comma ∨ d = newline.

Lemma feed_one p c : feed p (String c EmptyString) = step p c.
Proof. simpl. by destruct (step p c). Qed.

(** A comma or a line end after a field, in any state but the quoted one
    (a blank-only start of line ends only with a comma). *)
Lemma delim_step st acc ws ls fl d :
  delim d → st ≠ START_RECORD → st ≠ IN_QUOTED_FIELD → (st = WHITESPACE_LINE → d = comma) →
  step (mk_parser st acc ws ls fl) d
  = close d (mk_parser START_FIELD [] (String.string_of_list_ascii (rev acc) :: ws) ls fl).
Proof.
  unfold close. intros [-> | ->] H1 H2 H3; destruct st; try done; step1; try done.
  by specialize (H3 eq_refl).
Qed.

Lemma quoted_body st f ws ls fl :
  st = START_RECORD ∨ st = START_FIELD →
  feed (mk_parser st [] ws ls fl) (quoted f)
  = Ok (mk_parser QUOTE_IN_QUOTED_FIELD (chars_rev f []) ws ls fl).
Proof. intros [-> | ->]; unfold quoted; step1; apply feed_quoted_body. Qed.

Lemma plain_body f ws ls fl :
  has_special f = false →
  ∃ st, feed (mk_parser START_FIELD [] ws ls fl) f = Ok (mk_parser st (chars_rev f []) ws ls fl)
        ∧ st ≠ START_RECORD ∧ st ≠ IN_QUOTED_FIELD ∧ st ≠ WHITESPACE_LINE.
Proof.
  destruct f as [|c f]; intros Hs; [by exists START_FIELD|]. simpl in Hs.
  apply orb_false_iff in Hs as [Hc Hs]. unfold special in Hc. rewrite bool_decide_eq_false in Hc.
  assert (c ≠ newline ∧ c ≠ comma ∧ c ≠ quote) as (?&?&?) by naive_solver.
  exists IN_FIELD. step1. rewrite feed_plain by done. unfold chars_rev. simpl.
  by rewrite <- app_assoc.
Qed.

(** A line that starts with blanks: the blanks are kept in the field. *)
Lemma blank_body f acc ls fl :
  has_special f = false →
  ∃ st, feed (mk_parser WHITESPACE_LINE acc [] ls fl) f = Ok (mk_parser st (chars_rev f acc) [] ls fl)
        ∧ st ≠ START_RECORD ∧ st ≠ IN_QUOTED_FIELD ∧ (st = WHITESPACE_LINE → all_ws f = true).
Proof.
  revert acc. induction f as [|c f IH]; intros acc Hs; [by exists WHITESPACE_LINE|]. simpl in Hs.
  apply orb_false_iff in Hs as [Hc Hs]. unfold special in Hc. rewrite bool_decide_eq_false in Hc.
  assert (c ≠ newline ∧ c ≠ comma) as [??] by naive_solver.
  assert (chars_rev (String c f) acc = chars_rev f (c :: acc)) as ->
    by (unfold chars_rev; simpl; by rewrite <- app_assoc).
  cbn [feed all_ws]. destruct (is_whitespace c) eqn:Hw.
  - assert (step (mk_parser WHITESPACE_LINE acc [] ls fl) c
            = Ok (mk_parser WHITESPACE_LINE (c :: acc) [] ls fl)) as ->
      by (unfold step; cbn [pstate]; dec_simp; by rewrite Hw).
    rewrite Ok_bind. destruct (IH (c :: acc) Hs) as (st & -> & ? & ? & Hst).
    by exists st.
  - assert (step (mk_parser WHITESPACE_LINE acc [] ls fl) c
            = Ok (mk_parser IN_FIELD (c :: acc) [] ls fl)) as ->
      by (unfold step, in_field; cbn [pstate]; dec_simp; rewrite Hw; by dec_simp).
    rewrite Ok_bind, feed_plain by done. by exists IN_FIELD.
Qed.

Lemma step_record_blank c ls fl :
  c ≠ quote →
  step (mk_parser START_RECORD [] [] ls fl) c = step (mk_parser WHITESPACE_LINE [] [] ls fl) c.
Proof.
  intros Hq. unfold step, start_field, in_field. cbn [pstate].
  destruct (decide (c = newline)), (is_whitespace c); try done.
  by rewrite decide_False by done.
Qed.

Lemma string_app_cons x (a b : string) : String x a +:+ b = String x (a +:+ b).
Proof. done. Qed.

Lemma string_app_nil_l (a : string) : EmptyString +:+ a = a.
Proof. done. Qed.

Lemma string_app_assoc (a b c : string) : (a +:+ b) +:+ c = a +:+ (b +:+ c).
Proof. induction a as [|x a IH]; [done|]. by rewrite !string_app_cons, IH. Qed.

Lemma string_app_nil_r (a : string) : a +:+ EmptyString = a.
Proof. induction a as [|x a IH]; [done|]. by rewrite string_app_cons, IH. Qed.

Ltac side := first [done | intros; discriminate | by left | by right | auto].

(** A field in the middle of a line, its delimiter and the rest [t]. *)
Lemma field_mid f d t ws ls fl :
  delim d →
  feed (mk_parser START_FIELD [] ws ls fl) (write_field f +:+ String d t)
  = close d (mk_parser START_FIELD [] (f :: ws) ls fl) ≫= (λ p, feed p t).
Proof.
  intros Hd. rewrite feed_app. unfold write_field. destruct (has_special f) eqn:Hs.
  - rewrite quoted_body by auto. rewrite Ok_bind. cbn [feed].
    rewrite delim_step by side. by rewrite chars_rev_field.
  - destruct (plain_body f ws ls fl Hs) as (st & -> & ? & ? & ?). rewrite Ok_bind. cbn [feed].
    rewrite delim_step by side. by rewrite chars_rev_field.
Qed.

(** The first field of a line. *)
Lemma field_first f d t ls fl :
  delim d → (d = newline → all_ws f = false) →
  feed (mk_parser START_RECORD [] [] ls fl) (write_field f +:+ String d t)
  = close d (mk_parser START_FIELD [] [f] ls fl) ≫= (λ p, feed p t).
Proof.
  intros Hd Hnl. unfold write_field. destruct (has_special f) eqn:Hs.
  - rewrite feed_app, quoted_body by auto. rewrite Ok_bind. cbn [feed].
    rewrite delim_step by side. by rewrite chars_rev_field.
  - assert (∀ c u, f +:+ String d t = String c u → c ≠ quote) as Hq.
    { intros c u Heq. destruct f as [|c0 f]; rewrite ?string_app_cons in Heq;
        simpl in Heq; injection Heq as <- _.
      - by destruct Hd as [-> | ->].
      - simpl in Hs. apply orb_false_iff in Hs as [Hc _]. intros ->. done. }
    destruct (f +:+ String d t) as [|c u] eqn:Hft; [by destruct f|].
    cbn [feed]. rewrite step_record_blank by (eapply Hq; done).
    change (step _ c ≫= _) with (feed (mk_parser WHITESPACE_LINE [] [] ls fl) (String c u)).
    rewrite <- Hft, feed_app. destruct (blank_body f [] ls fl Hs) as (st & -> & ? & ? & Hst).
    rewrite Ok_bind. cbn [feed]. rewrite delim_step; [by rewrite chars_rev_field|done|done|done|].
    intros ->. destruct Hd as [| ->]; [done|]. specialize (Hst eq_refl). specialize (Hnl eq_refl). congruence.
Qed.

Lemma fields_rest fs ws t ls fl :
  fs ≠ [] →
  feed (mk_parser START_FIELD [] ws ls fl) ((write_fields fs +:+ String newline EmptyString) +:+ t)
  = end_line (mk_parser START_FIELD [] (rev fs ++ ws) ls fl) ≫= (λ p, feed p t).
Proof.
  revert ws. induction fs as [|f [|f2 fs] IH]; intros ws Hfs; [done| |].
  - cbn [write_fields rev app]. rewrite string_app_assoc. rewrite string_app_cons, string_app_nil_l.
    rewrite field_mid by (by right). unfold close. by rewrite decide_False.
  - change (write_fields (f :: f2 :: fs)) with (write_field f +:+ String comma (write_fields (f2 :: fs))).
    rewrite !string_app_assoc, string_app_cons.
    rewrite field_mid by (by left). unfold close. rewrite decide_True, Ok_bind by done.
    rewrite <- !string_app_assoc, IH by done.
    replace (rev (f :: f2 :: fs) ++ ws) with (rev (f2 :: fs) ++ f :: ws); [done|].
    cbn [rev]. by rewrite <- !app_assoc.
Qed.

(** A written line is read back as one line. *)
Lemma line_read r t ls fl :
  writable r = true →
  feed (mk_parser START_RECORD [] [] ls fl) (write_line r +:+ t)
  = end_line (mk_parser START_FIELD [] (rev r) ls fl) ≫= (λ p, feed p t).
Proof.
  unfold write_line. destruct r as [|f [|f2 fs]]; intros Hw; [done| |].
  - cbn [rev app]. case_decide as He.
    + injection He as ->. rewrite string_app_assoc, string_app_cons, string_app_nil_l.
      rewrite feed_app, quoted_body by auto. rewrite Ok_bind. cbn [feed].
      rewrite delim_step by side. by rewrite chars_rev_field.
    + cbn [write_fields]. rewrite string_app_assoc, string_app_cons, string_app_nil_l.
      rewrite field_first; [unfold close; by rewrite decide_False|by right|].
      intros _. cbn in Hw. destruct (all_ws f); [|done].
      rewrite bool_decide_true in Hw; [done|]. by intros ->.
  - rewrite decide_False by done.
    change (write_fields (f :: f2 :: fs)) with (write_field f +:+ String comma (write_fields (f2 :: fs))).
    rewrite !string_app_assoc, string_app_cons.
    rewrite field_first by (by left || done). unfold close. rewrite decide_True, Ok_bind by done.
    rewrite <- !string_app_assoc. rewrite fields_rest by done. simpl. by rewrite <- !app_assoc.
Qed.

Lemma end_line_same w r ls fl :
  length r = w → Forall (λ r', length r' = w) ls →
  end_line (mk_parser START_FIELD [] (rev r) ls fl) = Ok (mk_parser START_RECORD [] [] (r :: ls) (S fl)).
Proof.
  unfold end_line. cbn [lines words file_lines]. rewrite rev_involutive. intros Hr Hls.
  destruct ls as [|prev older]; [done|]. apply Forall_cons in Hls as [Hp _].
  rewrite bool_decide_false by lia. by rewrite Hr, Hp, Nat.sub_diag, app_nil_r.
Qed.

Lemma feed_csv w rows t ls fl :
  Forall (λ r, length r = w ∧ writable r = true) rows → Forall (λ r, length r = w) ls →
  feed (mk_parser START_RECORD [] [] ls fl) (write_csv rows +:+ t)
  = feed (mk_parser START_RECORD [] [] (rev rows ++ ls) (length rows + fl)) t.
Proof.
  revert ls fl. induction rows as [|r rows IH]; intros ls fl Hrows Hls; [done|].
  apply Forall_cons in Hrows as [[Hr Hw] Hrows]. cbn [write_csv foldr].
  rewrite string_app_assoc, line_read, (end_line_same w) by done. rewrite Ok_bind.
  fold (write_csv rows). rewrite IH; [|done|by constructor]. simpl. by rewrite <- app_assoc, Nat.add_succ_r.
Qed.

Lemma write_csv_app ls1 ls2 : write_csv (ls1 ++ ls2) = write_csv ls1 +:+ write_csv ls2.
Proof.
  induction ls1 as [|r ls1 IH]; [done|].
  change (write_csv ((r :: ls1) ++ ls2)) with (write_line r +:+ write_csv (ls1 ++ ls2)).
  change (write_csv (r :: ls1)) with (write_line r +:+ write_csv ls1).
  by rewrite IH, string_app_assoc.
Qed.

(** C3: the tokenizer reads back the lines [to_csv] writes: for lines of
    one width, none of them a single field of blanks (which the writer
    leaves unquoted and the reader skips), tokenizing the written text
    gives the lines, quoted fields, doubled quotes, commas and line ends
    inside fields included. *)
Theorem tokenize_write_csv w rows :
  Forall (λ r, length r = w ∧ writable r = true) rows → tokenize (write_csv rows) = Ok rows.
Proof.
  intros Hrows. unfold tokenize, init_parser.
  rewrite <- (string_app_nil_r (write_csv rows)), (feed_csv w) by done.
  simpl. by rewrite app_nil_r, rev_involutive.
Qed.

(** C14: a line with more fields than the lines before it, after the
    first data line, makes [read_csv] raise [ParserError] with pandas'
    message [Expected w fields in line k, saw m], [k] counted from 1. *)
Theorem tokenize_too_many_fields w pre r post :
  Forall (λ r, length r = w ∧ writable r = true) pre → 2 ≤ length pre → w < length r →
  tokenize (write_csv (pre ++ r :: post))
  = Err (ParserError (c_error ("Expected " +:+ show_nat w +:+ " fields in line "
          +:+ show_nat (S (length pre)) +:+ ", saw " +:+ show_nat (length r)
          +:+ String newline EmptyString))).
Proof.
  intros Hpre Hlen Hr.
  assert (1 ≤ w) as Hw.
  { destruct pre as [|r0 pre']; [simpl in Hlen; lia|]. apply Forall_cons in Hpre as [[Hr0 Hw0] _].
    destruct r0; simpl in *; [discriminate|lia]. }
  unfold tokenize, init_parser.
  rewrite write_csv_app, (feed_csv w) by done. cbn [write_csv foldr].
  rewrite line_read; [|destruct r as [|? [|? ?]]; simpl in *; [lia|lia|done]].
  unfold end_line. cbn [lines words file_lines]. rewrite rev_involutive, Nat.add_0_r, app_nil_r.
  destruct (rev pre) as [|prev [|o older]] eqn:Hrev;
    [by apply (f_equal length) in Hrev; rewrite length_rev in Hrev; simpl in Hrev; lia..|].
  assert (length prev = w) as Hp.
  { assert (prev ∈ pre) as Hin by (apply list_elem_of_In, in_rev; rewrite Hrev; by left).
    rewrite Forall_forall in Hpre. by apply Hpre. }
  rewrite bool_decide_true by (split; [done|lia]). by rewrite Hp.
Qed.

Lemma feed_in_quote s acc ws ls fl :
  (∀ c, c ∈ String.list_ascii_of_string s → c ≠ quote) →
  feed (mk_parser IN_QUOTED_FIELD acc ws ls fl) s = Ok (mk_parser IN_QUOTED_FIELD (chars_rev s acc) ws ls fl).
Proof.
  revert acc. induction s as [|c s IH]; intros acc Hs; [done|].
  assert (c ≠ quote) by (apply Hs; left). step1.
  rewrite IH by (intros; apply Hs; by right). unfold chars_rev. simpl. by rewrite <- app_assoc.
Qed.

(** C22: a quote that is never closed: after any number of well-formed
    lines, a field that opens a quote and runs to the end of the text makes
    the tokenizer raise [ParserError] ("EOF inside string starting at row
    n"), [n] the number of lines read before it. *)
Theorem tokenize_unclosed_quote w rows s :
  Forall (λ r, length r = w ∧ writable r = true) rows →
  (∀ c, c ∈ String.list_ascii_of_string s → c ≠ quote) →
  tokenize (write_csv rows +:+ String quote s)
  = Err (ParserError (c_error ("EOF inside string starting at row " +:+ show_nat (length rows)))).
Proof.
  intros Hrows Hs. unfold tokenize, init_parser. rewrite (feed_csv w) by done.
  step1. rewrite feed_in_quote by done. simpl. by rewrite Nat.add_0_r.
Qed.

(** ** Witnesses *)

(** A few lines of a TMDb-like file: a title with a comma (quoted when
    written), a movie without genres and a missing budget. *)
Definition sample_lines : list (list string) :=
  [["original_title"; "genres"; "popularity"; "budget_adj"];
   ["Mad Max: Fury Road"; "Action|Adventure"; "28.419936"; "1.379999e8"];
   ["Kids, Inc."; ""; "0.5"; "0"];
   ["Inside Out"; "Comedy|Animation|Family"; "6.326804"; ""]].

Definition sample_text : string := write_csv sample_lines.

Lemma tokenize_write_csv_witness : tokenize sample_text = Ok sample_lines.
Proof. apply (tokenize_write_csv 4). apply (bool_decide_unpack _). vm_compute. exact I. Defined.

Definition long_line : list string := ["Up"; "Animation"; "3.1"; "1.5e8"; "96"].

Lemma tokenize_too_many_fields_witness :
  tokenize (write_csv (sample_lines ++ long_line :: []))
  = Err (ParserError (c_error ("Expected " +:+ show_nat 4 +:+ " fields in line "
          +:+ show_nat (S (length sample_lines)) +:+ ", saw " +:+ show_nat (length long_line)
          +:+ String newline EmptyString))).
Proof.
  apply tokenize_too_many_fields; [apply (bool_decide_unpack _); vm_compute; exact I|simpl; lia..].
Defined.

Lemma mangle_loop_terminates_witness :
  (mangle_loop 4 ["a"; "a"; "a.1"] {[ "a" := 1 ]} "a" "a" 1).2 = 0.
Proof.
  apply (mangle_loop_terminates ["a"; "a"; "a.1"] {[ "a" := 1 ]} "a" 1); [by left|].
  intros x Hx. destruct (decide (x = "a")) as [->|Hne]; [by left|].
  rewrite lookup_singleton_ne in Hx by done. by destruct Hx.
Defined.

Definition sample_loaded : frame nat :=
  match read_csv sample_text with Ok (RangeLoad f) => f | _ => mk_frame [] [] end.

Lemma read_csv_frame_witness :
  wf_frame sample_loaded ∧ map fst (rows sample_loaded) = seq 0 (length (rows sample_loaded)) ∧
  ∀ j, j < length (columns sample_loaded) → column_typed (map (λ r, r.2 !!! j) (rows sample_loaded)).
Proof. apply (read_csv_frame sample_text). vm_compute. reflexivity. Defined.


(** An unclosed quote after the sample lines. *)
Lemma tokenize_unclosed_quote_witness :
  tokenize (write_csv sample_lines +:+ String quote "Toy Story, 1995")
  = Err (ParserError (c_error ("EOF inside string starting at row " +:+ show_nat 4))).
Proof.
  apply (tokenize_unclosed_quote 4); [apply (bool_decide_unpack _); vm_compute; exact I|].
  intros c Hc. vm_compute in Hc.
  repeat (apply elem_of_cons in Hc as [->|Hc]; [vm_compute; discriminate|]).
  by apply not_elem_of_nil in Hc.
Defined.

(** A file whose data lines carry one field more than its header. *)
Definition indexed_lines : list (list string) :=
  [["title"; "popularity"]; ["0"; "Up"; "3.1"]; ["1"; "Heat"; "2.5"]].

Lemma read_csv_implicit_index_witness :
  ∃ f, read_csv (write_csv indexed_lines) = Ok (IndexLoad f) ∧
    columns f = header_names ["title"; "popularity"] ∧
    ∀ j, j < 2 →
      map (λ row, row.2 !!! j) (rows f)
      = convert_column (column_fields [["0"; "Up"; "3.1"]; ["1"; "Heat"; "2.5"]] (3 - 2 + j)).
Proof.
  apply (read_csv_implicit_index _ ["title"; "popularity"] ["0"; "Up"; "3.1"] [["1"; "Heat"; "2.5"]]);
    [vm_compute; reflexivity|simpl; lia].
Defined.

End Loader.
