(* ===== verification/Select.v ===== *)
(** * Column Selector: [df = df[["genres", "popularity", ...]]] (line 68)

    Indexing a frame with a list of names keeps those columns, in the order
    of the list, and every row; a name that is not a column raises
    [KeyError] listing the missing names. *)

From S2P Require Import Prelude Frame.

Module Select.

(** The seven columns the analysis keeps (line 68). *)
Definition analysis_columns : list string :=
  ["genres"; "popularity"; "vote_average"; "runtime"; "budget_adj";
   "revenue_adj"; "release_year"].

(** The cells of one row at the given positions. *)
Definition pick_row {L} (idxs : list nat) (r : L * list cell) : L * list cell :=
  (r.1, map (λ i, r.2 !!! i) idxs).

(** [df[names]]. *)
Definition select {L} (names : list string) (f : frame L) : result (frame L) :=
  let missing := filter (λ n, n ∉ columns f) names in
  match missing with
  | [] =>
      let idxs := omap (λ n, col_index n (columns f)) names in
      Ok (mk_frame names (map (pick_row idxs) (rows f)))
  | _ :: _ => raise (KeyError missing)
  end.

(** ** Lemmas *)

Lemma omap_col_index_all (names cols : list string) :
  Forall (λ n, n ∈ cols) names →
  Forall2 (λ n i, col_index n cols = Some i) names
          (omap (λ n, col_index n cols) names).
Proof.
  induction 1 as [|n names Hn _ IH]; simpl; [constructor|].
  destruct (col_index n cols) as [i|] eqn:Hi.
  - by constructor.
  - by apply col_index_None in Hi.
Qed.

Lemma filter_not_in_nil (names cols : list string) :
  filter (λ n, n ∉ cols) names = [] ↔ Forall (λ n, n ∈ cols) names.
Proof.
  split.
  - intros H. apply Forall_forall. intros n Hn.
    destruct (decide (n ∈ cols)) as [|Hni]; [done|].
    exfalso. by eapply (filter_nil_not_elem_of (λ n, n ∉ cols)).
  - induction 1 as [|n ns Hn _ IH]; [done|].
    rewrite filter_cons_False; [done|]. by intros [].
Qed.

(** The cell at position [k] of a selected row is the cell of the
    column named [names !! k] in the original row. *)
Lemma pick_row_lookup {L} (names cols : list string) (r : L * list cell) k n :
  Forall (λ n, n ∈ cols) names →
  length r.2 = length cols →
  names !! k = Some n →
  ∃ i, cols !! i = Some n ∧
       (pick_row (omap (λ n, col_index n cols) names) r).2 !! k = r.2 !! i.
Proof.
  intros Hall Hlen Hk. pose proof (omap_col_index_all _ _ Hall) as HF.
  destruct (Forall2_lookup_l _ _ _ _ _ HF Hk) as (i & Hi & Hci).
  exists i. split; [by apply col_index_Some in Hci as []|].
  simpl. rewrite list_lookup_fmap, Hi. simpl.
  apply col_index_lt in Hci. rewrite <- Hlen in Hci.
  destruct (lookup_lt_is_Some_2 _ _ Hci) as [c Hc].
  rewrite Hc. by rewrite (list_lookup_total_correct _ _ _ Hc).
Qed.

Lemma select_unfold_ok {L} (names : list string) (f : frame L) :
  Forall (λ n, n ∈ columns f) names →
  select names f =
    Ok (mk_frame names (map (pick_row (omap (λ n, col_index n (columns f)) names)) (rows f))).
Proof. intros H. unfold select. by rewrite (proj2 (filter_not_in_nil _ _) H). Qed.

(** ** Properties *)

(** C12: when every requested name is a column, [df[names]] succeeds; its
    columns are exactly [names], every row keeps its label, and the cell at
    position [k] is the original row's cell of the column [names !! k]. *)
Theorem select_ok {L} (names : list string) (f : frame L) :
  wf_frame f → Forall (λ n, n ∈ columns f) names →
  ∃ f', select names f = Ok f' ∧ columns f' = names ∧
    Forall2 (λ r r', r'.1 = r.1 ∧
               ∀ k n, names !! k = Some n →
                 ∃ i, columns f !! i = Some n ∧ r'.2 !! k = r.2 !! i)
            (rows f) (rows f').
Proof.
  intros [_ Hrows] Hall. rewrite select_unfold_ok by done.
  eexists; split_and!; [done|done|]. simpl.
  apply Forall2_fmap_r, Forall_Forall2_diag.
  eapply Forall_impl; [exact Hrows|]. intros r Hr. split; [done|].
  intros k n Hk. by apply pick_row_lookup.
Qed.

(** C13: a requested name that is not a column makes [df[names]] raise
    [KeyError] carrying every missing name, in the order requested. *)
Theorem select_missing {L} (names : list string) (f : frame L) n :
  n ∈ names → n ∉ columns f →
  select names f = raise (KeyError (filter (λ n, n ∉ columns f) names)).
Proof.
  intros Hn Hni. unfold select.
  destruct (filter (λ n, n ∉ columns f) names) eqn:Hfil; [|done].
  exfalso. by eapply (filter_nil_not_elem_of (λ n, n ∉ columns f)).
Qed.

(** Selecting distinct names of a well-formed frame gives a well-formed
    frame. *)
Lemma select_wf {L} (names : list string) (f f' : frame L) :
  wf_frame f → NoDup names → select names f = Ok f' → wf_frame f'.
Proof.
  intros Hwf Hnd Hsel. unfold select in Hsel.
  destruct (filter _ names) eqn:Hfil; [|done]. inv_result.
  split; [done|]. apply Forall_fmap, Forall_true. intros r. unfold row_fits. simpl.
  rewrite length_map. apply filter_not_in_nil in Hfil.
  pose proof (omap_col_index_all _ _ Hfil) as HF. symmetry. by eapply Forall2_length.
Qed.

(** Selecting columns keeps every row and its label. *)
Lemma select_labels {L} (names : list string) (f f' : frame L) :
  select names f = Ok f' → map fst (rows f') = map fst (rows f).
Proof.
  intros Hsel. unfold select in Hsel. destruct (filter _ names); [|done].
  inv_result. simpl. by rewrite map_map.
Qed.

(** Column [k] of the selected rows is column [j] of the original rows
    when the [k]-th requested name is found at position [j]. *)
Lemma pick_row_column {L} (idxs : list nat) (rs : list (L * list cell)) k j :
  idxs !! k = Some j →
  map (λ r, (pick_row idxs r).2 !!! k) rs = map (λ r, r.2 !!! j) rs.
Proof.
  intros Hk. apply map_ext. intros r. simpl.
  by rewrite list_lookup_total_alt, list_lookup_fmap, Hk.
Qed.

(** A column of the selection that holds no string, when the original
    column holds none. *)
Lemma select_no_str {L} (f f' : frame L) k n j :
  select analysis_columns f = Ok f' → analysis_columns !! k = Some n →
  col_index n (columns f) = Some j → no_str (map (λ r, r.2 !!! j) (rows f)) →
  no_str (map (λ r, r.2 !!! k) (rows f')) ∧
  Forall (λ r, length r.2 = length analysis_columns) (rows f').
Proof.
  intros Hsel Hk Hj Hns. unfold select in Hsel.
  destruct (filter _ analysis_columns) eqn:Hfil; [|done]. inv_result. simpl.
  apply filter_not_in_nil in Hfil. pose proof (omap_col_index_all _ _ Hfil) as HF.
  destruct (Forall2_lookup_l _ _ _ _ _ HF Hk) as (j' & Hj' & Hcj). rewrite Hj in Hcj.
  injection Hcj as <-. rewrite map_map, (pick_row_column _ _ _ _ Hj'). split; [done|].
  apply Forall_map, Forall_true. intros r. unfold pick_row. cbn [snd]. rewrite length_map.
  symmetry. exact (Forall2_length _ _ _ HF).
Qed.

(** A column of the selection is the column of the frame it was picked
    from. *)
Lemma select_column {L} (f f' : frame L) k n j :
  select analysis_columns f = Ok f' → analysis_columns !! k = Some n →
  col_index n (columns f) = Some j →
  map (λ r, r.2 !!! k) (rows f') = map (λ r, r.2 !!! j) (rows f).
Proof.
  intros Hsel Hk Hj. unfold select in Hsel.
  destruct (filter _ analysis_columns) eqn:Hfil; [|done]. inv_result. simpl.
  apply filter_not_in_nil in Hfil. pose proof (omap_col_index_all _ _ Hfil) as HF.
  destruct (Forall2_lookup_l _ _ _ _ _ HF Hk) as (j' & Hj' & Hcj). rewrite Hj in Hcj.
  injection Hcj as <-. by rewrite map_map, (pick_row_column _ _ _ _ Hj').
Qed.

#[export] Hint Resolve select_wf : pandas.

(** ** A raw TMDb frame *)

(** The columns of [tmdb-movies.csv], with one movie. *)
Definition tmdb_columns : list string :=
  ["id"; "imdb_id"; "popularity"; "budget"; "revenue"; "original_title"; "cast";
   "homepage"; "director"; "tagline"; "keywords"; "overview"; "runtime"; "genres";
   "production_companies"; "release_date"; "vote_count"; "vote_average";
   "release_year"; "budget_adj"; "revenue_adj"].

Definition tmdb_sample : frame nat :=
  mk_frame tmdb_columns
    [(0, [CNum 135397; CStr "tt0369610"; CNum (32985763 # 1000000); CNum 150000000;
          CNum 1513528810; CStr "Jurassic World"; CStr "Chris Pratt"; CNaN;
          CStr "Colin Trevorrow"; CStr "The park is open."; CStr "monster|dna";
          CStr "Twenty-two years after ..."; CNum 124;
          CStr "Action|Adventure|Science Fiction|Thriller"; CStr "Universal Studios";
          CStr "6/9/15"; CNum 5562; CNum (65 # 10); CNum 2015;
          CNum (1379999919 # 10); CNum (13924815950 # 10)])].

Lemma select_ok_witness :
  ∃ f', select analysis_columns tmdb_sample = Ok f' ∧ columns f' = analysis_columns ∧
    Forall2 (λ r r', r'.1 = r.1 ∧
               ∀ k n, analysis_columns !! k = Some n →
                 ∃ i, columns tmdb_sample !! i = Some n ∧ r'.2 !! k = r.2 !! i)
            (rows tmdb_sample) (rows f').
Proof.
  apply select_ok.
  - apply (bool_decide_unpack (wf_frame tmdb_sample)). vm_compute. exact I.
  - apply (bool_decide_unpack (Forall (λ n, n ∈ columns tmdb_sample) analysis_columns)).
    vm_compute. exact I.
Defined.

Lemma select_missing_witness :
  select ["genres"; "rating"] tmdb_sample =
    raise (KeyError (filter (λ n, n ∉ columns tmdb_sample) ["genres"; "rating"])).
Proof.
  apply (select_missing _ _ "rating").
  - right. left.
  - apply (bool_decide_unpack ("rating" ∉ columns tmdb_sample)). vm_compute. exact I.
Defined.

End Select.
