(* ===== verification/Clean.v ===== *)
(** * Data cleaning cells (lines 76-101)

    [df.isnull().sum()] counts missing cells per column; [df.duplicated()]
    flags every row equal to an earlier one (keep='first');
    [df.drop_duplicates()] keeps the unflagged rows, so the count
    [sum(df.duplicated())] is the number of rows less the number of
    different rows; boolean indexing
    [df[mask]] keeps the rows whose mask is true; and the Row Filter
    [df[(df != 0).all(1)]] keeps the rows with no cell equal to zero. *)

From S2P Require Import Prelude Frame.

Module Clean.

(** [df.isnull().sum()] (line 76). *)
Definition null_counts {L} (f : frame L) : list (string * nat) :=
  imap (λ i c, (c, length (filter (λ r, isnull (r.2 !!! i) = true) (rows f))))
       (columns f).

(** Two rows are duplicates when they have equal cells in every column. *)
Definition row_equiv (r1 r2 : list cell) : Prop := Forall2 (≡) r1 r2.

#[export] Instance row_equiv_dec : RelDecision row_equiv.
Proof. intros r1 r2. unfold row_equiv. apply Forall2_dec. apply _. Defined.

(** [df.duplicated()]: the flag of each row, given the rows [seen] before
    it. *)
Fixpoint dup_flags {L} (seen : list (list cell)) (rs : list (L * list cell))
  : list bool :=
  match rs with
  | [] => []
  | r :: rs' =>
      bool_decide (Exists (λ s, row_equiv s r.2) seen) :: dup_flags (r.2 :: seen) rs'
  end.

Definition duplicated {L} (f : frame L) : list bool := dup_flags [] (rows f).

(** [sum(bools)] (lines 84 and 93). *)
Definition count_true (bs : list bool) : nat := length (filter (λ b, b = true) bs).

(** [df[mask]]: keep the rows whose mask entry is true, labels included. *)
Definition bool_index {L} (f : frame L) (mask : list bool) : frame L :=
  mk_frame (columns f) (map fst (filter (λ p, p.2 = true) (zip (rows f) mask))).

(** [df.drop_duplicates()] (line 92): [df[~df.duplicated()]]. *)
Definition drop_duplicates {L} (f : frame L) : frame L :=
  bool_index f (map negb (duplicated f)).

(** [x != 0] on one cell: a string or NaN is never equal to [0]. *)
Definition ne_zero (c : cell) : bool :=
  match c with CNum q => negb (Qeq_bool q 0) | _ => true end.

(** [(df != 0).all(1)]: per row, whether every cell is non-zero. *)
Definition ne_zero_all {L} (f : frame L) : list bool :=
  map (λ r, forallb id (map ne_zero r.2)) (rows f).

(** [df = df[(df != 0).all(1)]] (line 100). *)
Definition drop_zero_rows {L} (f : frame L) : frame L := bool_index f (ne_zero_all f).

(** The property the filter is meant to establish: no numeric zero. *)
Definition no_zero (r : list cell) : Prop := ∀ q, CNum q ∈ r → ¬ (q == 0)%Q.

(** ** Lemmas on masks *)

Lemma ne_zero_all_no_zero (r : list cell) :
  forallb id (map ne_zero r) = true ↔ no_zero r.
Proof.
  unfold no_zero. induction r as [|c r IH]; simpl.
  - split; [intros _ q Hq; by apply not_elem_of_nil in Hq | done].
  - rewrite andb_true_iff, IH. setoid_rewrite elem_of_cons. split.
    + intros [Hc Hr] q [<-|Hq]; [|by apply Hr].
      simpl in Hc. intros Hq0%Qeq_bool_iff. by rewrite Hq0 in Hc.
    + intros H. split; [|eauto]. destruct c as [s|q|]; simpl; [done| |done].
      destruct (Qeq_bool q 0) eqn:E; [|done].
      apply Qeq_bool_iff in E. by destruct (H q (or_introl eq_refl)).
Qed.

Definition is_num_zero (c : cell) : bool :=
  match c with CNum q => Qeq_bool q 0 | _ => false end.

Lemma no_zero_alt (r : list cell) : Forall (λ c, is_num_zero c = false) r ↔ no_zero r.
Proof.
  unfold no_zero. rewrite Forall_forall. split.
  - intros H q Hq Hq0%Qeq_bool_iff. specialize (H _ Hq). simpl in H. congruence.
  - intros H [s|q|] Hc; [done| |done]. simpl.
    destruct (Qeq_bool q 0) eqn:E; [|done]. apply Qeq_bool_iff in E. by destruct (H q).
Qed.

#[export] Instance no_zero_dec r : Decision (no_zero r).
Proof.
  destruct (decide (Forall (λ c, is_num_zero c = false) r)) as [H|H];
    [left|right]; by rewrite <- no_zero_alt.
Defined.

Section Masks.
Context {L : Type}.
Implicit Types (rs : list (L * list cell)) (f : frame L).

Lemma bool_index_map f (p : L * list cell → bool) :
  rows (bool_index f (map p (rows f))) = filter (λ r, p r = true) (rows f).
Proof.
  unfold bool_index; simpl. induction (rows f) as [|r rs IH]; [done|]. simpl.
  rewrite !filter_cons. simpl. destruct (decide (p r = true)); simpl; by rewrite IH.
Qed.

Lemma dup_flags_length seen rs : length (dup_flags seen rs) = length rs.
Proof. revert seen; induction rs; intros; simpl; auto. Qed.

(** The rows a mask keeps and the rows it drops add up. *)
Lemma mask_split rs (m : list bool) :
  length m = length rs →
  length (filter (λ p, p.2 = true) (zip rs (map negb m))) + count_true m = length rs.
Proof.
  revert m; induction rs as [|r rs IH]; intros [|b m] Hlen;
    [done | simpl in *; lia | simpl in *; lia |].
  simpl in Hlen. specialize (IH m ltac:(lia)). unfold count_true in *.
  cbn [zip map]. rewrite !filter_cons.
  destruct b; simpl; rewrite ?decide_True, ?decide_False by done; simpl; lia.
Qed.

Definition kept seen rs : list (L * list cell) :=
  map fst (filter (λ p, p.2 = true) (zip rs (map negb (dup_flags seen rs)))).

Lemma kept_cons seen r rs :
  kept seen (r :: rs) =
    if decide (Exists (λ s, row_equiv s r.2) seen) then kept (r.2 :: seen) rs
    else r :: kept (r.2 :: seen) rs.
Proof.
  unfold kept; simpl. rewrite filter_cons. simpl.
  case_bool_decide; simpl; rewrite ?decide_False, ?decide_True by done;
    by rewrite ?decide_True, ?decide_False by done.
Qed.

(** A kept row equals no row seen before it. *)
Lemma kept_fresh seen rs r :
  r ∈ kept seen rs → ∀ s, s ∈ seen → ¬ row_equiv s r.2.
Proof.
  revert seen; induction rs as [|r0 rs IH]; intros seen Hr s Hs Heq;
    [by unfold kept in Hr; simpl in Hr; apply not_elem_of_nil in Hr|].
  rewrite kept_cons in Hr. case_decide as Hex.
  - eapply IH; [exact Hr| |exact Heq]. by right.
  - apply elem_of_cons in Hr as [->|Hr].
    + apply Hex, Exists_exists. eauto.
    + eapply IH; [exact Hr| |exact Heq]. by right.
Qed.

(** Every row has an equal row that is kept, unless it equals a row seen
    before. *)
Lemma kept_cover seen rs r :
  r ∈ rs → (∃ s, s ∈ seen ∧ row_equiv s r.2) ∨ ∃ r', r' ∈ kept seen rs ∧ row_equiv r'.2 r.2.
Proof.
  revert seen; induction rs as [|r0 rs IH]; intros seen Hr;
    [by apply not_elem_of_nil in Hr|].
  rewrite kept_cons. apply elem_of_cons in Hr as [->|Hr].
  - case_decide as Hex.
    + left. by apply Exists_exists.
    + right. exists r0. split; [by left|]. unfold row_equiv. reflexivity.
  - destruct (IH (r0.2 :: seen) Hr) as [(s & Hs & Heq) | (r' & Hr' & Heq)].
    + apply elem_of_cons in Hs as [->|Hs]; [|by eauto].
      case_decide as Hex.
      * left. apply Exists_exists in Hex as (s & ? & Hs). exists s.
        split; [done|]. unfold row_equiv in *. by etrans.
      * right. exists r0. split; [by left|done].
    + right. exists r'. case_decide; [done|]. split; [by right|done].
Qed.

(** Kept rows are pairwise distinct. *)
Lemma kept_distinct seen rs :
  ForallOrdPairs (λ r1 r2, ¬ row_equiv r1.2 r2.2) (kept seen rs).
Proof.
  revert seen; induction rs as [|r0 rs IH]; intros seen; [constructor|].
  rewrite kept_cons. case_decide; [done|]. constructor; [|done].
  apply Forall_forall. intros r Hr. eapply kept_fresh; [exact Hr|]. by left.
Qed.
(** Rows pairwise distinct, and distinct from every row seen before, are
    never flagged. *)
Lemma dup_flags_distinct seen rs :
  (∀ r s, r ∈ rs → s ∈ seen → ¬ row_equiv s r.2) →
  ForallOrdPairs (λ r1 r2, ¬ row_equiv r1.2 r2.2) rs →
  count_true (dup_flags seen rs) = 0.
Proof.
  revert seen; induction rs as [|r rs IH]; intros seen Hseen Hpairs; [done|].
  inversion Hpairs as [|? ? Hhd Hpairs']; subst.
  unfold count_true in *; simpl. rewrite filter_cons_False.
  - apply IH; [|exact Hpairs']. intros r' s Hr' [->|Hs]%elem_of_cons.
    + rewrite Forall_forall in Hhd. by apply Hhd.
    + apply Hseen; [by right|done].
  - rewrite bool_decide_eq_true, Exists_exists. intros (s & Hs & Heq).
    by apply (Hseen r s); [left|..].
Qed.

(** [drop_duplicates()] leaves no duplicated row. *)
Lemma drop_duplicates_no_dup f : count_true (duplicated (drop_duplicates f)) = 0.
Proof.
  apply dup_flags_distinct; [intros r s _ Hs; by apply not_elem_of_nil in Hs|].
  apply (kept_distinct []).
Qed.

Lemma bool_index_sublist f (m : list bool) :
  rows (bool_index f m) `sublist_of` rows f.
Proof.
  unfold bool_index; simpl. generalize (rows f) as rs. intros rs. revert m.
  induction rs as [|r rs IH]; intros m; [destruct m; constructor|].
  destruct m as [|b m]; [apply sublist_nil_l|].
  cbn [zip]. rewrite filter_cons.
  case_decide; cbn [map fst]; [apply sublist_skip, IH | apply sublist_cons, IH].
Qed.

Lemma bool_index_labels f (m : list bool) :
  NoDup (map fst (rows f)) → NoDup (map fst (rows (bool_index f m))).
Proof. intros H. eapply sublist_NoDup; [exact H|]. apply sublist_map, bool_index_sublist. Qed.

Lemma bool_index_wf f (m : list bool) : wf_frame f → wf_frame (bool_index f m).
Proof.
  intros [Hnd Hrows]. split; [done|].
  eapply Forall_sublist_of; [apply bool_index_sublist|done].
Qed.

Lemma drop_zero_rows_eq f :
  rows (drop_zero_rows f) = filter (λ r, no_zero r.2) (rows f).
Proof.
  unfold drop_zero_rows, ne_zero_all. rewrite bool_index_map.
  apply list_filter_iff. intros r. apply ne_zero_all_no_zero.
Qed.
End Masks.

#[export] Hint Resolve bool_index_wf bool_index_sublist bool_index_labels : pandas.

(** ** Properties *)

(** C1: the Row Filter [df[(df != 0).all(1)]] keeps the columns, and keeps
    exactly the rows in which no cell is a numeric zero, in their original
    order and with their labels; strings and NaN never count as zero. *)
Theorem drop_zero_rows_spec {L} (f : frame L) :
  columns (drop_zero_rows f) = columns f ∧
  rows (drop_zero_rows f) = filter (λ r, no_zero r.2) (rows f).
Proof. split; [done|]. apply drop_zero_rows_eq. Qed.

(** Filtering an already filtered frame changes nothing. *)
Theorem drop_zero_rows_idempotent {L} (f : frame L) :
  drop_zero_rows (drop_zero_rows f) = drop_zero_rows f.
Proof.
  apply frame_eq; [done|]. rewrite !drop_zero_rows_eq.
  by apply list_filter_filter_r.
Qed.

(** What [drop_duplicates()] keeps. *)
Lemma drop_duplicates_kept {L} (f : frame L) :
  rows (drop_duplicates f) `sublist_of` rows f ∧
  ForallOrdPairs (λ r1 r2, ¬ row_equiv r1.2 r2.2) (rows (drop_duplicates f)) ∧
  ∀ r, r ∈ rows f → ∃ r', r' ∈ rows (drop_duplicates f) ∧ row_equiv r'.2 r.2.
Proof.
  split_and!; [apply bool_index_sublist | apply (kept_distinct []) |].
  intros r Hr. destruct (kept_cover [] (rows f) r Hr) as [(s & Hs & _)|Hk].
  - by apply not_elem_of_nil in Hs.
  - exact Hk.
Qed.

(** C15: [drop_duplicates()] keeps a subsequence of the rows in which no
    two rows are equal, and every row of the frame equals a kept row. *)
Theorem drop_duplicates_spec {L} (f : frame L) :
  rows (drop_duplicates f) `sublist_of` rows f ∧
  ForallOrdPairs (λ r1 r2, ¬ row_equiv r1.2 r2.2) (rows (drop_duplicates f)) ∧
  ∀ r, r ∈ rows f → ∃ r', r' ∈ rows (drop_duplicates f) ∧ row_equiv r'.2 r.2.
Proof. apply drop_duplicates_kept. Qed.

(** The rows [drop_duplicates()] keeps and the rows [duplicated()] flags
    add up to the frame. *)
Lemma drop_duplicates_length {L} (f : frame L) :
  length (rows (drop_duplicates f)) + count_true (duplicated f) = length (rows f).
Proof.
  unfold drop_duplicates, bool_index, duplicated; simpl.
  rewrite length_map. apply mask_split. apply dup_flags_length.
Qed.

Lemma ForallOrdPairs_map {A B} (g : A → B) (R : B → B → Prop) (l : list A) :
  ForallOrdPairs (λ x y, R (g x) (g y)) l → ForallOrdPairs R (map g l).
Proof. induction 1; simpl; constructor; [|done]. by apply Forall_map. Qed.

(** A list of pairwise different rows, each equal to a row of [b], is no
    longer than [b]: each row of [b] is claimed at most once. *)
Lemma distinct_rows_le (a b : list (list cell)) :
  ForallOrdPairs (λ r1 r2, ¬ row_equiv r1 r2) a →
  (∀ x, x ∈ a → ∃ y, y ∈ b ∧ row_equiv x y) → length a ≤ length b.
Proof.
  revert b. induction a as [|x a IH]; intros b Hpairs Hcov; [simpl; lia|].
  inversion Hpairs as [|? ? Hhd Hpairs']; subst.
  destruct (Hcov x (list_elem_of_here _ _)) as (y & Hy & Hxy).
  apply elem_of_Permutation in Hy as [b' Hb']. rewrite Hb'. simpl.
  enough (length a ≤ length b') by lia. apply IH; [done|].
  intros x' Hx'. destruct (Hcov x' (list_elem_of_further _ _ _ Hx')) as (y' & Hy' & Hxy').
  rewrite Hb' in Hy'. apply elem_of_cons in Hy' as [->|Hy']; [|eauto].
  exfalso. rewrite Forall_forall in Hhd. apply (Hhd x' Hx').
  unfold row_equiv in *. etrans; [exact Hxy|]. by symmetry.
Qed.

(** C16: the number [sum(df.duplicated())] printed by lines 84 and 93 is
    the number of rows less the number of different rows: for any list [u]
    holding one representative of each group of equal rows (its rows
    pairwise different, every row of the frame equal to one of them, each
    of them equal to a row of the frame), the count and [length u] add up
    to the number of rows. *)
Theorem duplicated_count {L} (f : frame L) (u : list (list cell)) :
  ForallOrdPairs (λ r1 r2, ¬ row_equiv r1 r2) u →
  (∀ r, r ∈ rows f → ∃ v, v ∈ u ∧ row_equiv v r.2) →
  (∀ v, v ∈ u → ∃ r, r ∈ rows f ∧ row_equiv v r.2) →
  count_true (duplicated f) + length u = length (rows f).
Proof.
  intros Hu Hcover Hin. rewrite <- (drop_duplicates_length f).
  destruct (drop_duplicates_kept f) as (Hsub & Hdist & Hkept).
  set (k := map snd (rows (drop_duplicates f))).
  assert (length u = length k) as Hlen; [|unfold k in Hlen; rewrite length_map in Hlen; lia].
  apply Nat.le_antisymm; apply distinct_rows_le.
  - done.
  - intros v Hv. destruct (Hin v Hv) as (r & Hr & Hvr). destruct (Hkept r Hr) as (r' & Hr' & Heq).
    exists r'.2. split; [apply elem_of_map; by exists r'|]. unfold row_equiv in *. etrans; [exact Hvr|]. by symmetry.
  - unfold k. apply (ForallOrdPairs_map snd (λ r1 r2, ¬ row_equiv r1 r2)). exact Hdist.
  - intros x (r' & -> & Hr')%elem_of_map. destruct (Hcover r') as (v & Hv & Heq).
    { eapply elem_of_sublist; [exact Hr'|exact Hsub]. }
    exists v. split; [done|]. unfold row_equiv in *. by symmetry.
Qed.

(** Two copies of one movie and one other: one duplicate, two different
    rows. *)
Definition dup_sample : frame nat :=
  mk_frame ["genres"; "popularity"]
    [(0, [CStr "Drama"; CNum 2]); (1, [CStr "Drama"; CNum (4 # 2)]); (2, [CStr "Comedy"; CNum 1])].

Lemma duplicated_count_witness :
  count_true (duplicated dup_sample) + length [[CStr "Drama"; CNum 2]; [CStr "Comedy"; CNum 1]]
  = length (rows dup_sample).
Proof.
  apply duplicated_count.
  - repeat constructor. apply (bool_decide_unpack _). vm_compute. exact I.
  - intros r Hr. simpl in Hr.
    repeat (apply elem_of_cons in Hr as [->|Hr]); [..|by apply not_elem_of_nil in Hr].
    1,2: exists [CStr "Drama"; CNum 2]; split; [by left|vm_compute; repeat constructor].
    exists [CStr "Comedy"; CNum 1]; split; [by right; left|vm_compute; repeat constructor].
  - intros v Hv. repeat (apply elem_of_cons in Hv as [->|Hv]); [..|by apply not_elem_of_nil in Hv].
    + exists (0, [CStr "Drama"; CNum 2]); split; [by left|vm_compute; repeat constructor].
    + exists (2, [CStr "Comedy"; CNum 1]); split; [by right; right; left|vm_compute; repeat constructor].
Defined.

End Clean.
