(* ===== verification/Explode.v ===== *)
(** * Genre Expander (lines 108-113)

    [all_genres = df.join(df.genres.str.strip('|').str.split('|', expand=True)
                          .stack().reset_index(level=1, drop=True)
                          .rename('genre')).reset_index(drop=True)]

    Module [PyStr] models the two Python string methods the expander
    applies to one genre string, [str.strip('|')] and [str.split('|')], with
    the inverse ['|'.join].  Module [Explode] models the pandas chain: the
    [.str] accessor, which raises [AttributeError] unless the series has
    dtype [object] and holds text (the dtype is an argument, since frames
    carry none), then gives NaN for a value that is not a string;
    [split(expand=True)]
    padding every row to the widest split with NaN, [stack] dropping the NaN
    cells, [reset_index(level=1, drop=True)] keeping the row label, the left
    [join] on the index, and the final renumbering. *)

From Stdlib Require Import Ascii.
From S2P Require Import Prelude Frame.

Module PyStr.

Definition pipe : ascii := "|"%char.

(** [s.lstrip('|')]. *)
Fixpoint lstrip (s : string) : string :=
  match s with
  | EmptyString => EmptyString
  | String c s' => if decide (c = pipe) then lstrip s' else s
  end.

(** [s.rstrip('|')]. *)
Fixpoint rstrip (s : string) : string :=
  match s with
  | EmptyString => EmptyString
  | String c s' =>
      let r := rstrip s' in
      if decide (c = pipe ∧ r = EmptyString) then EmptyString else String c r
  end.

(** [s.strip('|')] (line 109): CPython finds the first and the last
    character that is not ['|'] and returns the slice between them. *)
Definition strip (s : string) : string := rstrip (lstrip s).

(** [s.split('|')] (line 110): the token before the first ['|'] and the
    tokens after it; [""] splits into [[""]]. *)
Fixpoint split_aux (s : string) : string * list string :=
  match s with
  | EmptyString => (EmptyString, [])
  | String c s' =>
      let '(t, ts) := split_aux s' in
      if decide (c = pipe) then (EmptyString, t :: ts) else (String c t, ts)
  end.

Definition split (s : string) : list string :=
  let '(t, ts) := split_aux s in t :: ts.

(** ['|'.join(tokens)]. *)
Definition join (ts : list string) : string := String.concat (String pipe EmptyString) ts.

(** ** Auxiliary notions *)

Fixpoint pipes (n : nat) : string :=
  match n with 0 => EmptyString | S n => String pipe (pipes n) end.

Fixpoint count_pipe (s : string) : nat :=
  match s with
  | EmptyString => 0
  | String c s' => (if decide (c = pipe) then 1 else 0) + count_pipe s'
  end.

Definition first_char (s : string) : option ascii :=
  match s with EmptyString => None | String c _ => Some c end.

Fixpoint last_char (s : string) : option ascii :=
  match s with
  | EmptyString => None
  | String c EmptyString => Some c
  | String _ s' => last_char s'
  end.

(** ** Lemmas *)

(** stdpp makes [String.append] opaque to [simpl]; these are its two
    equations. *)
Lemma append_nil_l (t : string) : String.append EmptyString t = t.
Proof. reflexivity. Qed.

Lemma append_cons c (s t : string) :
  String.append (String c s) t = String c (String.append s t).
Proof. reflexivity. Qed.

Lemma append_assoc (a b c : string) :
  String.append a (String.append b c) = String.append (String.append a b) c.
Proof. induction a; rewrite ?append_nil_l, ?append_cons; congruence. Qed.

Lemma append_empty_r (a : string) : String.append a EmptyString = a.
Proof. induction a; rewrite ?append_nil_l, ?append_cons; congruence. Qed.

Lemma lstrip_spec s :
  ∃ a, s = String.append (pipes a) (lstrip s) ∧ first_char (lstrip s) ≠ Some pipe.
Proof.
  induction s as [|c s IH]; simpl.
  - by exists 0.
  - case_decide as Hc.
    + destruct IH as (a & Ha & Hf). exists (S a). simpl. rewrite append_cons, <- Ha. by subst.
    + exists 0. simpl. split; [done|]. by intros [= ?].
Qed.

Lemma last_char_cons c s : s ≠ EmptyString → last_char (String c s) = last_char s.
Proof. by destruct s. Qed.

Lemma rstrip_spec s :
  ∃ b, s = String.append (rstrip s) (pipes b) ∧ last_char (rstrip s) ≠ Some pipe.
Proof.
  induction s as [|c s IH]; simpl.
  - by exists 0.
  - destruct IH as (b & Hb & Hl). case_decide as Hc.
    + destruct Hc as [-> Hr]. exists (S b). rewrite Hr, append_nil_l in Hb.
      by rewrite Hb.
    + exists b. simpl. rewrite append_cons, <- Hb. split; [done|].
      destruct (rstrip s) as [|c' s'] eqn:Hr; [|done].
      intros [= ->]. by apply Hc.
Qed.

(** [rstrip] keeps a first character that is not a pipe. *)
Lemma rstrip_first s : first_char s ≠ Some pipe → first_char (rstrip s) = first_char s ∨ rstrip s = EmptyString.
Proof.
  destruct s as [|c s]; simpl; [by right|]. intros Hc.
  case_decide as H; [by right|]. by left.
Qed.

Lemma split_aux_join s :
  let '(t, ts) := split_aux s in
  join (t :: ts) = s.
Proof.
  induction s as [|c s IH]; simpl; [done|].
  destruct (split_aux s) as [t ts]. case_decide as Hc; unfold join in *; simpl in *.
  - by rewrite append_nil_l, append_cons, append_nil_l, IH, Hc.
  - destruct ts as [|t' ts]; simpl in *; [by rewrite IH|].
    by rewrite append_cons, IH.
Qed.

Lemma split_aux_tokens s :
  let '(t, ts) := split_aux s in
  Forall (λ u, count_pipe u = 0) (t :: ts) ∧ length ts = count_pipe s.
Proof.
  induction s as [|c s IH]; simpl; [split; [by repeat constructor|done]|].
  destruct (split_aux s) as [t ts]. destruct IH as [Hall Hlen].
  apply Forall_cons in Hall as [Ht Hts].
  case_decide as Hc; simpl.
  - split; [by repeat constructor|]. lia.
  - split; [constructor; [simpl; by rewrite decide_False|done]|]. lia.
Qed.

Lemma split_aux_nopipe t rest :
  count_pipe t = 0 →
  split_aux (String.append t rest) =
    let '(u, us) := split_aux rest in (String.append t u, us).
Proof.
  induction t as [|c t IH]; intros Hc; rewrite ?append_nil_l, ?append_cons.
  - by destruct (split_aux rest).
  - simpl in Hc. case_decide as Hp; [lia|]. simpl. rewrite IH by lia.
    destruct (split_aux rest). by rewrite decide_False.
Qed.

Lemma join_cons2 t t' ts :
  join (t :: t' :: ts) = String.append t (String pipe (join (t' :: ts))).
Proof. unfold join. simpl. by rewrite append_cons, append_nil_l. Qed.

Lemma split_aux_pipe r : split_aux (String pipe r) = (EmptyString, split r).
Proof. simpl. unfold split. destruct (split_aux r). simpl. by rewrite ?decide_True. Qed.

Lemma split_length s : length (split s) = S (count_pipe s).
Proof.
  unfold split. pose proof (split_aux_tokens s) as Htok.
  destruct (split_aux s) as [t ts]. destruct Htok as [_ Hlen]. simpl. lia.
Qed.

(** ** Properties *)

(** C7: [strip('|')] removes exactly the leading and trailing pipes: the
    input is some pipes, the result, and some pipes, and the result neither
    starts nor ends with a pipe. *)
Theorem strip_spec s :
  ∃ a b, s = String.append (pipes a) (String.append (strip s) (pipes b)) ∧
         first_char (strip s) ≠ Some pipe ∧ last_char (strip s) ≠ Some pipe.
Proof.
  destruct (lstrip_spec s) as (a & Ha & Hfa).
  destruct (rstrip_spec (lstrip s)) as (b & Hb & Hlb).
  exists a, b. unfold strip. split_and!.
  - by rewrite <- Hb.
  - destruct (rstrip_first _ Hfa) as [-> | ->]; [done|]. done.
  - done.
Qed.

(** C8: ['|'.join(s.split('|')) == s]: splitting loses nothing. *)
Theorem split_join s : join (split s) = s.
Proof. unfold split. pose proof (split_aux_join s). by destruct (split_aux s). Qed.

(** C9: [s.split('|')] has one token more than [s] has pipes, and no
    token contains a pipe. *)
Theorem split_tokens s :
  length (split s) = S (count_pipe s) ∧ Forall (λ t, count_pipe t = 0) (split s).
Proof.
  unfold split. pose proof (split_aux_tokens s) as Htok.
  destruct (split_aux s) as [t ts]. destruct Htok as [Hall Hlen].
  split; [simpl; lia | done].
Qed.

(** C10: joining a non-empty list of pipe-free tokens and splitting again
    gives the tokens back. *)
Theorem join_split ts :
  ts ≠ [] → Forall (λ t, count_pipe t = 0) ts → split (join ts) = ts.
Proof.
  intros Hne Hall. induction Hall as [|t ts Ht Hts IH]; [done|].
  destruct ts as [|t' ts].
  - unfold split, join. simpl. rewrite <- (append_empty_r t) at 1.
    rewrite split_aux_nopipe by done. simpl. by rewrite append_empty_r.
  - rewrite join_cons2. unfold split at 1. rewrite split_aux_nopipe by done.
    rewrite split_aux_pipe, IH by done. simpl. by rewrite append_empty_r.
Qed.

Lemma join_split_witness :
  split (join ["Action"; "Science Fiction"]) = ["Action"; "Science Fiction"].
Proof.
  apply join_split; [done|]. repeat constructor.
Defined.

End PyStr.

Module Explode.
Import PyStr.

(** [.str.strip('|')] on one cell: a value that is not a string gives NaN. *)
Definition str_strip (c : cell) : cell :=
  match c with CStr s => CStr (strip s) | _ => CNaN end.

(** The tokens [.str.split('|')] gives for one cell; [None] is NaN. *)
Definition str_split (c : cell) : option (list string) :=
  match c with CStr s => Some (split s) | _ => None end.

(** [.str.split('|', expand=True)]: one row per value, one column per token
    position, padded with NaN to the widest split. *)
Definition pad_tokens (width : nat) (o : option (list string)) : list cell :=
  match o with
  | Some ts => map CStr ts ++ replicate (width - length ts) CNaN
  | None => replicate width CNaN
  end.

Definition split_expand {L} (s : list (L * cell)) : list (L * list cell) :=
  let toks := map (λ p, str_split p.2) s in
  let width := foldr Nat.max 0 (map (λ o, default 0 (length <$> o)) toks) in
  zip (map fst s) (map (pad_tokens width) toks).

(** [.stack()] on one row: its non-missing cells, keyed by (label,
    column position). *)
Fixpoint stack_row {L} (l : L) (j : nat) (cs : list cell) : list ((L * nat) * cell) :=
  match cs with
  | [] => []
  | c :: cs' => (if isnull c then [] else [((l, j), c)]) ++ stack_row l (S j) cs'
  end.

Definition stack {L} (rs : list (L * list cell)) : list ((L * nat) * cell) :=
  flat_map (λ r, stack_row r.1 0 r.2) rs.

(** [.reset_index(level=1, drop=True)]: forget the column position. *)
Definition drop_level1 {L} (s : list ((L * nat) * cell)) : list (L * cell) :=
  map (λ p, (p.1.1, p.2)) s.

(** [df.join(s)] (how='left'): every row of [df] is paired with each value
    of [s] under its label, in the order of [s]; a row with no value gets
    NaN.  A series named like an existing column raises [ValueError]. *)
Definition join_left {L} `{EqDecision L} (f : frame L) (s : series L) : result (frame L) :=
  if decide (sname s ∈ columns f)
  then raise (ValueError "columns overlap but no suffix specified")
  else Ok (mk_frame (columns f ++ [sname s])
            (flat_map (λ r, match filter (λ p, p.1 = r.1) (sdata s) with
                            | [] => [(r.1, r.2 ++ [CNaN])]
                            | ms => map (λ p, (r.1, r.2 ++ [p.2])) ms
                            end) (rows f))).

(** [StringMethods._validate] (the [.str] accessor): pandas infers the
    type of the values, skipping NaN, and accepts "string", "empty",
    "bytes", "mixed" and "mixed-integer"; anything else, and every series
    whose dtype is not [object] (float64, int64, bool), raises
    [AttributeError].  Frames do not carry their dtypes, so [is_object] is
    passed in: the dtype of the series, which for a column of [read_csv]
    only the file decides ([Loader.column_is_object]).  On an [object]
    series the values decide: strings (with NaN or numbers) or only NaN
    pass, numbers alone do not. *)
Definition str_validate (is_object : bool) (cs : list cell) : result unit :=
  if is_object && (existsb is_str cs || negb (existsb is_num cs)) then mret ()
  else raise (AttributeError "Can only use .str accessor with string values!").

(** Lines 108-113; [genres_object] is the dtype of [df.genres]. *)
Definition explode_genres {L} `{EqDecision L} (genres_object : bool) (df : frame L)
  : result (frame nat) :=
  g ← get_attr df "genres";
  _ ← str_validate genres_object (map snd (sdata g));
  let stripped := map (λ p, (p.1, str_strip p.2)) (sdata g) in
  let tokens := drop_level1 (stack (split_expand stripped)) in
  j ← join_left df (mk_series "genre" tokens);
  mret (reset_index_drop j).

(** ** Lemmas *)

Section Lemmas.
Context {L : Type} `{EqDecision L}.

Lemma drop_level1_stack_row (l : L) j cs :
  drop_level1 (stack_row l j cs) = map (pair l) (filter (λ c, isnull c = false) cs).
Proof.
  revert j. induction cs as [|c cs IH]; intros j; [done|]. cbn [stack_row].
  unfold drop_level1 in *. rewrite map_app, IH, filter_cons.
  destruct (isnull c); simpl; by rewrite ?decide_True, ?decide_False.
Qed.

Lemma filter_not_null_replicate k :
  filter (λ c, isnull c = false) (replicate k CNaN) = [].
Proof. apply filter_all_false. by intros c (-> & _)%elem_of_replicate. Qed.

Lemma filter_not_null_padded (ts : list string) k :
  filter (λ c, isnull c = false) (map CStr ts ++ replicate k CNaN) = map CStr ts.
Proof.
  rewrite filter_app, filter_not_null_replicate, app_nil_r.
  apply filter_all_true. by intros c (t & -> & _)%elem_of_map.
Qed.

Lemma tokens_direct_width (s : list (L * cell)) w :
  drop_level1 (stack (zip (map fst s) (map (pad_tokens w) (map (λ p, str_split p.2) s)))) =
    flat_map (λ p, match str_split p.2 with
                   | Some ts => map (λ t, (p.1, CStr t)) ts
                   | None => []
                   end) s.
Proof.
  unfold stack. induction s as [|p s IH]; [done|]. cbn [map zip flat_map fst snd].
  unfold drop_level1 in *. rewrite map_app, IH. f_equal.
  fold (drop_level1 (stack_row p.1 0 (pad_tokens w (str_split p.2)))).
  rewrite drop_level1_stack_row. unfold pad_tokens.
  destruct (str_split p.2) as [ts|].
  - rewrite filter_not_null_padded. by rewrite map_map.
  - by rewrite filter_not_null_replicate.
Qed.

(** [split(expand=True).stack().reset_index(level=1, drop=True)] is the
    direct per-row expansion. *)
Lemma tokens_direct (s : list (L * cell)) :
  drop_level1 (stack (split_expand s)) =
    flat_map (λ p, match str_split p.2 with
                   | Some ts => map (λ t, (p.1, CStr t)) ts
                   | None => []
                   end) s.
Proof. apply tokens_direct_width. Qed.

Lemma filter_label_absent {B} (g : L * list cell → list B)
    (rs : list (L * list cell)) l :
  l ∉ map fst rs →
  filter (λ p, p.1 = l) (flat_map (λ r', map (pair r'.1) (g r')) rs) = [].
Proof.
  intros Hl. apply filter_all_false. intros p (r' & Hr' & Hp)%elem_of_flat_map Heq.
  apply elem_of_map in Hp as (b & -> & _). simpl in Heq. subst l.
  apply Hl, elem_of_map. by exists r'.
Qed.

(** Within a flat_map keyed by unique labels, the entries under one label
    are those of its row. *)
Lemma filter_label_flat_map {B} (g : L * list cell → list B)
    (rs : list (L * list cell)) r :
  NoDup (map fst rs) → r ∈ rs →
  filter (λ p, p.1 = r.1) (flat_map (λ r', map (pair r'.1) (g r')) rs) =
    map (pair r.1) (g r).
Proof.
  induction rs as [|r0 rs IH]; intros Hnd Hr; [by apply not_elem_of_nil in Hr|].
  simpl in Hnd. apply NoDup_cons in Hnd as [Hni Hnd]. simpl. rewrite filter_app.
  apply elem_of_cons in Hr as [->|Hr].
  - rewrite filter_all_true by (intros ? (? & -> & _)%elem_of_map; done).
    by rewrite filter_label_absent, app_nil_r.
  - assert (r0.1 ≠ r.1).
    { intros Heq. apply Hni. rewrite Heq. apply elem_of_map. by exists r. }
    rewrite filter_all_false by (intros ? (? & -> & _)%elem_of_map; done).
    by apply IH.
Qed.
(** The genre cells that [stack] yields for one row of [df]. *)
Definition genre_cells (gi : nat) (r : L * list cell) : list cell :=
  match str_split (str_strip (r.2 !!! gi)) with
  | Some ts => map CStr ts
  | None => []
  end.

Lemma explode_tokens (rs : list (L * list cell)) gi :
  drop_level1 (stack (split_expand
    (map (λ p, (p.1, str_strip p.2)) (map (λ r, (r.1, r.2 !!! gi)) rs)))) =
  flat_map (λ r, map (pair r.1) (genre_cells gi r)) rs.
Proof.
  rewrite tokens_direct. induction rs as [|r rs IH]; [done|].
  simpl. rewrite IH. f_equal. unfold genre_cells.
  destruct (str_split _); [by rewrite map_map|done].
Qed.

End Lemmas.

(** ** Properties *)

Section Properties.
Context {L : Type} `{EqDecision L}.

(** The genre column as the [.str] accessor sees it. *)
Lemma get_attr_genres (df : frame L) gi :
  col_index "genres" (columns df) = Some gi →
  get_attr df "genres" = Ok (mk_series "genres" (map (λ r, (r.1, r.2 !!! gi)) (rows df))).
Proof. intros Hgi. unfold get_attr, get_column. by rewrite Hgi. Qed.

(** A column of strings and NaN of dtype [object] passes the check. *)
Lemma str_validate_object (cs : list cell) :
  Forall (λ c, is_num c = false) cs → str_validate true cs = Ok ().
Proof.
  intros Hcs. unfold str_validate. simpl.
  assert (existsb is_num cs = false) as ->; [|by rewrite orb_true_r].
  apply not_true_iff_false. intros (c & Hc & Hn)%existsb_exists.
  rewrite Forall_forall in Hcs. rewrite (Hcs c) in Hn; [done|by apply list_elem_of_In].
Qed.

Lemma str_validate_Ok b cs : str_validate b cs = Ok () ∨
  str_validate b cs = raise (AttributeError "Can only use .str accessor with string values!").
Proof. unfold str_validate. case_match; auto. Qed.

(** The rows the expander produces once the [.str] check passes. *)
Lemma explode_genres_rows b (df : frame L) gi :
  NoDup (map fst (rows df)) →
  col_index "genres" (columns df) = Some gi → "genre" ∉ columns df →
  str_validate b (map (λ r, r.2 !!! gi) (rows df)) = Ok () →
  ∃ ag, explode_genres b df = Ok ag ∧
    columns ag = columns df ++ ["genre"] ∧
    map fst (rows ag) = seq 0 (length (rows ag)) ∧
    map snd (rows ag) =
      flat_map (λ r, match r.2 !!! gi with
                     | CStr s => map (λ t, r.2 ++ [CStr t]) (split (strip s))
                     | _ => [r.2 ++ [CNaN]]
                     end) (rows df).
Proof.
  intros Hnd Hgi Hng Hv. eexists. split.
  { unfold explode_genres. rewrite (get_attr_genres df gi Hgi), Ok_bind. simpl.
    rewrite (map_map (λ r, (r.1, r.2 !!! gi)) snd). simpl. rewrite Hv, Ok_bind.
    unfold join_left. simpl. rewrite decide_False by done. reflexivity. }
  simpl. split_and!; [done| by rewrite relabel_fst, relabel_length |].
  rewrite relabel_snd, explode_tokens, map_flat_map.
  apply flat_map_ext_elem. intros r Hr.
  rewrite filter_label_flat_map by done. unfold genre_cells.
  destruct (r.2 !!! gi) as [s| |]; simpl; [|done|done].
  unfold split. destruct (split_aux (strip s)) as [t ts]. simpl. by rewrite !map_map.
Qed.

(** A successful expansion passed the [.str] check. *)
Lemma explode_genres_validated b (df : frame L) (ag : frame nat) :
  explode_genres b df = Ok ag →
  ∃ gi, col_index "genres" (columns df) = Some gi ∧
    str_validate b (map (λ r, r.2 !!! gi) (rows df)) = Ok ().
Proof.
  intros Hag. unfold explode_genres in Hag.
  destruct (col_index "genres" (columns df)) as [gi|] eqn:Hgi.
  - exists gi. split; [done|]. rewrite (get_attr_genres df gi Hgi), Ok_bind in Hag.
    simpl in Hag. rewrite (map_map (λ r, (r.1, r.2 !!! gi)) snd) in Hag. simpl in Hag.
    by destruct (str_validate_Ok b (map (λ r, r.2 !!! gi) (rows df))) as [E|E];
      rewrite E in Hag.
  - unfold get_attr, get_column in Hag. by rewrite Hgi in Hag.
Qed.

(** C2: on a frame with unique labels and no [genre] column, whose
    [genres] column is of dtype [object] and holds strings and NaN (as
    [read_csv] reads a column with a string in it), the expander succeeds.
    [all_genres] has the columns of [df] and [genre], rows numbered from 0,
    and each row of [df], in order, becomes: one row per token of
    [s.strip('|').split('|')] when its genre is a string [s], with all
    other cells copied; one row with a NaN genre when its genre is
    missing. *)
Theorem explode_genres_spec (df : frame L) gi :
  NoDup (map fst (rows df)) →
  col_index "genres" (columns df) = Some gi → "genre" ∉ columns df →
  Forall (λ r, is_num (r.2 !!! gi) = false) (rows df) →
  ∃ ag, explode_genres true df = Ok ag ∧
    columns ag = columns df ++ ["genre"] ∧
    map fst (rows ag) = seq 0 (length (rows ag)) ∧
    map snd (rows ag) =
      flat_map (λ r, match r.2 !!! gi with
                     | CStr s => map (λ t, r.2 ++ [CStr t]) (split (strip s))
                     | _ => [r.2 ++ [CNaN]]
                     end) (rows df).
Proof.
  intros Hnd Hgi Hng Hnum. apply explode_genres_rows; [done..|].
  apply str_validate_object. by apply Forall_map.
Qed.

(** A [genres] column whose dtype is not [object] makes line 109 raise
    [AttributeError], whatever its values. *)
Lemma explode_genres_not_object (df : frame L) :
  "genres" ∈ columns df →
  explode_genres false df =
    raise (AttributeError "Can only use .str accessor with string values!").
Proof.
  intros Hg. destruct (col_index "genres" (columns df)) as [gi|] eqn:Hgi;
    [|by apply col_index_None in Hgi].
  unfold explode_genres. by rewrite (get_attr_genres df gi Hgi), Ok_bind.
Qed.

(** A successful expansion means there was no [genre] column: [join]
    would raise [ValueError] on the overlap. *)
Lemma explode_genres_no_genre b (df : frame L) (ag : frame nat) :
  explode_genres b df = Ok ag → "genre" ∉ columns df.
Proof.
  intros Hag. unfold explode_genres in Hag. inv_result.
  unfold join_left in *. simpl in *. by case_decide.
Qed.

(** The expander's rows are numbered [0 .. n-1]. *)
Lemma explode_genres_labels b (df : frame L) (ag : frame nat) :
  explode_genres b df = Ok ag → NoDup (map fst (rows ag)).
Proof.
  intros Hag. unfold explode_genres in Hag. inv_result.
  unfold mret, result_ret in *. inv_result. subst. simpl.
  rewrite relabel_fst. apply NoDup_seq.
Qed.

(** The expander succeeds exactly when [df.genres] exists and [join] finds
    no overlapping column. *)
Lemma explode_genres_succeeds (df : frame L) gi :
  col_index "genres" (columns df) = Some gi → "genre" ∉ columns df →
  Forall (λ r, is_num (r.2 !!! gi) = false) (rows df) →
  ∃ ag, explode_genres true df = Ok ag.
Proof.
  intros Hgi Hng Hnum. eexists. unfold explode_genres.
  rewrite (get_attr_genres df gi Hgi), Ok_bind. simpl.
  rewrite (map_map (λ r, (r.1, r.2 !!! gi)) snd). simpl.
  rewrite str_validate_object, Ok_bind by by apply Forall_map.
  unfold join_left. simpl. rewrite decide_False by done. reflexivity.
Qed.

Lemma explode_genres_columns b (df : frame L) (ag : frame nat) :
  explode_genres b df = Ok ag → columns ag = columns df ++ ["genre"].
Proof.
  intros Hag. unfold explode_genres in Hag. inv_result.
  unfold join_left, mret, result_ret in *. case_decide; [done|]. inv_result. by subst.
Qed.

(** Each row of [all_genres] is a row of [df] with one more cell. *)
Lemma explode_genres_extends b (df : frame L) (ag : frame nat) :
  explode_genres b df = Ok ag →
  Forall (λ r', ∃ r c, r ∈ rows df ∧ r'.2 = r.2 ++ [c]) (rows ag).
Proof.
  intros Hag. unfold explode_genres in Hag. inv_result.
  unfold join_left, mret, result_ret in *. case_decide; [done|]. inv_result. subst. simpl.
  apply (Forall_relabel (λ cs, ∃ r c, r ∈ rows df ∧ cs = r.2 ++ [c])), Forall_forall.
  intros r' (r & Hr & Hr')%elem_of_flat_map.
  destruct (filter _ _) as [|p ms].
  - apply list_elem_of_singleton in Hr' as ->. eauto.
  - apply (elem_of_map (λ p, (r.1, r.2 ++ [p.2])) (p :: ms)) in Hr' as (p' & -> & _).
    eauto.
Qed.

(** A column of [df] without strings stays without strings in
    [all_genres]. *)
Lemma explode_no_str b (df : frame L) (ag : frame nat) k :
  explode_genres b df = Ok ag → Forall (λ r, k < length r.2) (rows df) →
  no_str (map (λ r, r.2 !!! k) (rows df)) → no_str (map (λ r, r.2 !!! k) (rows ag)).
Proof.
  intros Hag Hlen Hns s (r' & Hs & Hr')%elem_of_map.
  pose proof (explode_genres_extends _ _ _ Hag) as Hext.
  rewrite Forall_forall in Hext. rewrite Forall_forall in Hlen.
  destruct (Hext r' Hr') as (r & c & Hr & Heq).
  apply (Hns s), elem_of_map. exists r. split; [|done].
  rewrite Hs, Heq. apply lookup_total_app_l. by apply Hlen.
Qed.

Lemma explode_genres_preserves_wf b (df : frame L) (ag : frame nat) :
  wf_frame df → NoDup (map fst (rows df)) → explode_genres b df = Ok ag → wf_frame ag.
Proof.
  intros [Hcols Hrows] Hnd Hag. pose proof (explode_genres_no_genre _ _ _ Hag) as Hng.
  destruct (explode_genres_validated _ _ _ Hag) as (gi & Hgi & Hv).
  destruct (explode_genres_rows b df gi Hnd Hgi Hng Hv) as (ag' & Hag' & Hc & _ & Hs).
  rewrite Hag in Hag'. injection Hag' as <-. split.
  - rewrite Hc. apply NoDup_app. split_and!; [done| |by apply NoDup_singleton].
    intros x Hx ->%list_elem_of_singleton. done.
  - rewrite Hc, length_app. unfold row_fits.
    rewrite <- (Forall_map snd (λ r, length r = _)), Hs. apply Forall_forall.
    intros r' (r & Hr & Hr')%elem_of_flat_map.
    rewrite Forall_forall in Hrows. specialize (Hrows r Hr). unfold row_fits in Hrows.
    destruct (r.2 !!! gi); [apply elem_of_map in Hr' as (t & -> & _)| |];
      try apply list_elem_of_singleton in Hr' as ->; rewrite length_app, Hrows; done.
Qed.

(** C4: the expander preserves the frame invariant: when it succeeds on a
    well-formed frame with unique labels, [all_genres] has unique column
    names and one cell per column in every row. *)
Theorem explode_genres_wf b (df : frame L) (ag : frame nat) :
  wf_frame df → NoDup (map fst (rows df)) →
  explode_genres b df = Ok ag → wf_frame ag.
Proof. apply explode_genres_preserves_wf. Qed.

(** C5: a movie whose genre string is [s] contributes one row per pipe of
    [s.strip('|')] plus one; a movie with a missing genre contributes one
    row. *)
Theorem explode_genres_count b (df : frame L) (ag : frame nat) gi :
  NoDup (map fst (rows df)) →
  col_index "genres" (columns df) = Some gi → "genre" ∉ columns df →
  explode_genres b df = Ok ag →
  length (rows ag) =
    list_sum (map (λ r, match r.2 !!! gi with
                        | CStr s => S (count_pipe (strip s))
                        | _ => 1
                        end) (rows df)).
Proof.
  intros Hnd Hgi Hng Hag.
  destruct (explode_genres_validated _ _ _ Hag) as (gi' & Hgi' & Hv).
  rewrite Hgi in Hgi'. injection Hgi' as <-.
  destruct (explode_genres_rows b df gi Hnd Hgi Hng Hv) as (ag' & Hag' & _ & _ & Hs).
  rewrite Hag in Hag'. injection Hag' as <-.
  rewrite <- (length_map snd), Hs, length_flat_map. f_equal. apply map_ext. intros r.
  destruct (r.2 !!! gi) as [s| |]; [|done|done].
  rewrite length_map. apply split_length.
Qed.
End Properties.

(** ** A concrete frame: the spec's examples and the edge cases *)

Definition sample_columns : list string :=
  ["genres"; "popularity"; "vote_average"; "runtime"; "budget_adj";
   "revenue_adj"; "release_year"].

Definition sample_fields (p : Q) : list cell :=
  [CNum p; CNum 6; CNum 100; CNum 5; CNum 7; CNum 2015].

Definition sample_df : frame nat :=
  mk_frame sample_columns
    [(0, CStr "Action|Comedy" :: sample_fields 1);
     (1, CStr "|Horror|" :: sample_fields 2);
     (2, CNaN :: sample_fields 3);
     (5, CStr "Action||Comedy" :: sample_fields 4)].

(** [all_genres] for [sample_df]. *)
Definition sample_all_genres : frame nat :=
  mk_frame (sample_columns ++ ["genre"])
    [(0, CStr "Action|Comedy" :: sample_fields 1 ++ [CStr "Action"]);
     (1, CStr "Action|Comedy" :: sample_fields 1 ++ [CStr "Comedy"]);
     (2, CStr "|Horror|" :: sample_fields 2 ++ [CStr "Horror"]);
     (3, CNaN :: sample_fields 3 ++ [CNaN]);
     (4, CStr "Action||Comedy" :: sample_fields 4 ++ [CStr "Action"]);
     (5, CStr "Action||Comedy" :: sample_fields 4 ++ [CStr ""]);
     (6, CStr "Action||Comedy" :: sample_fields 4 ++ [CStr "Comedy"])].

(** The expander on four movies: ["Action|Comedy"] gives two rows with
    identical other fields, ["|Horror|"] gives one row ["Horror"], a missing
    genre gives one row with a NaN genre, and ["Action||Comedy"] gives three
    rows, one of them with the empty genre [""]. *)
Example explode_genres_sample :
  explode_genres true sample_df =
    Ok (mk_frame (sample_columns ++ ["genre"])
      [(0, CStr "Action|Comedy" :: sample_fields 1 ++ [CStr "Action"]);
       (1, CStr "Action|Comedy" :: sample_fields 1 ++ [CStr "Comedy"]);
       (2, CStr "|Horror|" :: sample_fields 2 ++ [CStr "Horror"]);
       (3, CNaN :: sample_fields 3 ++ [CNaN]);
       (4, CStr "Action||Comedy" :: sample_fields 4 ++ [CStr "Action"]);
       (5, CStr "Action||Comedy" :: sample_fields 4 ++ [CStr ""]);
       (6, CStr "Action||Comedy" :: sample_fields 4 ++ [CStr "Comedy"])]).
Proof. vm_compute. reflexivity. Qed.

(** The hypotheses of [explode_genres_spec] hold on [sample_df]. *)
Lemma sample_hyps :
  wf_frame sample_df ∧ NoDup (map fst (rows sample_df)) ∧ ("genre" ∉ columns sample_df) ∧
  explode_genres true sample_df = Ok sample_all_genres.
Proof.
  split_and!.
  - apply (bool_decide_unpack (wf_frame sample_df)). vm_compute. exact I.
  - apply (bool_decide_unpack (NoDup (map fst (rows sample_df)))). vm_compute. exact I.
  - apply (bool_decide_unpack ("genre" ∉ columns sample_df)). vm_compute. exact I.
  - vm_compute. reflexivity.
Qed.

Lemma explode_genres_wf_witness : wf_frame sample_all_genres.
Proof.
  destruct sample_hyps as (Hwf & Hnd & Hng & Hag).
  exact (explode_genres_wf true sample_df sample_all_genres Hwf Hnd Hag).
Defined.

Lemma explode_genres_count_witness :
  length (rows sample_all_genres) =
    list_sum (map (λ r, match r.2 !!! 0 with
                        | CStr s => S (count_pipe (strip s))
                        | _ => 1
                        end) (rows sample_df)).
Proof.
  destruct sample_hyps as (_ & Hnd & Hng & Hag).
  exact (explode_genres_count true sample_df sample_all_genres 0 Hnd eq_refl Hng Hag).
Defined.

Lemma explode_genres_spec_witness :
  ∃ ag, explode_genres true sample_df = Ok ag ∧
    columns ag = columns sample_df ++ ["genre"] ∧
    map fst (rows ag) = seq 0 (length (rows ag)) ∧
    map snd (rows ag) =
      flat_map (λ r, match r.2 !!! 0 with
                     | CStr s => map (λ t, r.2 ++ [CStr t]) (split (strip s))
                     | _ => [r.2 ++ [CNaN]]
                     end) (rows sample_df).
Proof.
  apply (explode_genres_spec sample_df 0).
  - apply (bool_decide_unpack (NoDup (map fst (rows sample_df)))). vm_compute. exact I.
  - reflexivity.
  - apply (bool_decide_unpack ("genre" ∉ columns sample_df)). vm_compute. exact I.
  - apply (bool_decide_unpack _). vm_compute. exact I.
Defined.

End Explode.
