(* ===== verification/Aggregate.v ===== *)
(** * Aggregator (lines 120-140)

    [genre_budget = all_genres.groupby('genre').budget_adj.mean()] and five
    more of the same shape, then
    [genre_data = pd.concat([genre_budget, genre_popularity, genre_revenue,
                             genre_runtime, genre_release_year, genre_vote],
                            axis=1)].

    [groupby] collects the distinct non-missing values of the key column
    (dropna=True) and sorts them (sort=True); on an object column pandas
    sorts mixed keys numbers first, then strings.  The mean of a group skips
    missing values (skipna=True), is NaN for a group with no number, and
    raises [TypeError] on a string.  [concat(axis=1)] aligns the series on
    their index (an outer join; labels in order of first appearance) and
    names each column after its series. *)

From Stdlib Require Import OrdersEx Sorted.
From S2P Require Import Prelude Frame.

Module Aggregate.

(** ** The order of group keys *)

(** Numbers before strings before missing values; numbers by value and
    strings by byte order (code-point order for UTF-8 text). *)
Definition cell_cmp (a b : cell) : comparison :=
  match a, b with
  | CNum p, CNum q => Qcompare p q
  | CNum _, _ => Lt
  | _, CNum _ => Gt
  | CStr s, CStr t => String_as_OT.compare s t
  | CStr _, CNaN => Lt
  | CNaN, CStr _ => Gt
  | CNaN, CNaN => Eq
  end.

Definition cell_lt (a b : cell) : Prop := cell_cmp a b = Lt.

(** Insert a key into a sorted list of distinct keys, unless an equal key
    is already there. *)
Fixpoint insert_key (k : cell) (ks : list cell) : list cell :=
  match ks with
  | [] => [k]
  | k' :: ks' =>
      match cell_cmp k k' with
      | Lt => k :: ks
      | Eq => ks
      | Gt => k' :: insert_key k ks'
      end
  end.

(** The sorted distinct non-missing keys of a column. *)
Definition group_keys (col : list cell) : list cell :=
  foldr (λ c ks, if isnull c then ks else insert_key c ks) [] col.

(** ** Means *)

(** A cell as a number for [mean]: NaN is skipped, a string raises. *)
Definition cell_num (c : cell) : result (option Q) :=
  match c with
  | CNum q => Ok (Some q)
  | CNaN => Ok None
  | CStr _ => raise (TypeError "agg function failed [how->mean,dtype->object]")
  end.

(** [Series.mean()] with skipna=True. *)
Definition mean (cs : list cell) : result cell :=
  vs ← mapM cell_num cs;
  let qs := omap id vs in
  mret (match qs with
        | [] => CNaN
        | _ :: _ => CNum (Qsum qs / inject_Z (Z.of_nat (length qs)))
        end).

(** The rows of group [k]: key cell equal to [k]. *)
Definition group_rows {L} (ki : nat) (k : cell) (rs : list (L * list cell))
  : list (L * list cell) :=
  filter (λ r, r.2 !!! ki ≡ k) rs.

(** [f.groupby(key).col.mean()]: a series indexed by the sorted keys. *)
Definition groupby_mean {L} (f : frame L) (key col : string) : result (series cell) :=
  match col_index key (columns f) with
  | None => raise (KeyError [key])
  | Some ki =>
      match col_index col (columns f) with
      | None => raise (AttributeError col)
      | Some ci =>
          let keys := group_keys (map (λ r, r.2 !!! ki) (rows f)) in
          vals ← mapM (λ k, mean (map (λ r, r.2 !!! ci) (group_rows ki k (rows f)))) keys;
          mret (mk_series col (zip keys vals))
      end
  end.

(** ** concat(axis=1) *)

(** The value of a series under a label; NaN when the label is absent. *)
Definition series_get (s : series cell) (k : cell) : cell :=
  match list_find (λ p, p.1 ≡ k) (sdata s) with
  | Some (_, p) => p.2
  | None => CNaN
  end.

(** The union of the indexes: the first index, then the labels of each
    further index that are not there yet. *)
Definition index_union (ss : list (series cell)) : list cell :=
  foldl (λ idx s, idx ++ filter (λ k, ¬ Exists (λ k', k' ≡ k) idx) (map fst (sdata s)))
        [] ss.

(** [pd.concat(ss, axis=1)]: one column per series, named after it. *)
Definition concat_axis1 (ss : list (series cell)) : result (frame cell) :=
  match ss with
  | [] => raise (ValueError "No objects to concatenate")
  | _ :: _ =>
      Ok (mk_frame (map sname ss)
                   (map (λ k, (k, map (λ s, series_get s k) ss)) (index_union ss)))
  end.

(** Lines 120-139, in the order of the code. *)
Definition aggregate (all_genres : frame nat) : result (frame cell) :=
  genre_budget ← groupby_mean all_genres "genre" "budget_adj";
  genre_popularity ← groupby_mean all_genres "genre" "popularity";
  genre_runtime ← groupby_mean all_genres "genre" "runtime";
  genre_release_year ← groupby_mean all_genres "genre" "release_year";
  genre_vote ← groupby_mean all_genres "genre" "vote_average";
  genre_revenue ← groupby_mean all_genres "genre" "revenue_adj";
  concat_axis1 [genre_budget; genre_popularity; genre_revenue; genre_runtime;
                genre_release_year; genre_vote].

(** The columns of [genre_data], in the order of the [concat] call. *)
Definition aggregate_columns : list string :=
  ["budget_adj"; "popularity"; "revenue_adj"; "runtime"; "release_year"; "vote_average"].

(** ** Lemmas on the key order *)

Lemma string_compare_spec s t :
  CompareSpec (s = t) (String_as_OT.lt s t) (String_as_OT.lt t s) (String_as_OT.compare s t).
Proof. destruct (String_as_OT.compare_spec s t); constructor; done. Qed.

Lemma string_lt_irrefl s : ¬ String_as_OT.lt s s.
Proof. exact (@StrictOrder_Irreflexive _ _ String_as_OT.lt_strorder s). Qed.

Lemma string_lt_trans s t u :
  String_as_OT.lt s t → String_as_OT.lt t u → String_as_OT.lt s u.
Proof. exact (@StrictOrder_Transitive _ _ String_as_OT.lt_strorder s t u). Qed.

Lemma cell_cmp_Eq a b : cell_cmp a b = Eq ↔ a ≡ b.
Proof.
  destruct a as [s|p|], b as [t|q|]; simpl;
    rewrite ?cell_equiv_CStr, ?cell_equiv_CNum, ?cell_equiv_CNaN; try done.
  - destruct (string_compare_spec s t) as [|H|H]; subst; split; try done;
      intros ->; exfalso; exact (string_lt_irrefl _ H).
  - by rewrite Qeq_alt.
Qed.

Lemma string_compare_antisym s t :
  String_as_OT.compare s t = CompOpp (String_as_OT.compare t s).
Proof.
  destruct (string_compare_spec s t) as [E1|H1|H1];
    destruct (string_compare_spec t s) as [E|H2|H2]; try subst; try reflexivity; exfalso.
  all: first [ exact (string_lt_irrefl _ H1) | exact (string_lt_irrefl _ H2)
             | exact (string_lt_irrefl _ (string_lt_trans _ _ _ H1 H2)) ].
Qed.

Lemma cell_cmp_antisym a b : cell_cmp a b = CompOpp (cell_cmp b a).
Proof.
  destruct a as [s|p|], b as [t|q|]; cbn [cell_cmp CompOpp]; try reflexivity.
  - apply string_compare_antisym.
  - symmetry. apply Qcompare_antisym.
Qed.

#[export] Instance cell_lt_strict : StrictOrder cell_lt.
Proof.
  split.
  - intros a Ha. unfold cell_lt in Ha.
    assert (cell_cmp a a = Eq) as E by (apply cell_cmp_Eq; reflexivity). congruence.
  - intros [s|p|] [t|q|] [u|r|]; unfold cell_lt; simpl; try done.
    + apply string_lt_trans.
    + rewrite <- !Qlt_alt. apply Qlt_trans.
Qed.

Lemma cell_lt_equiv_l a a' b : a ≡ a' → cell_lt a b → cell_lt a' b.
Proof.
  destruct a as [s|p|], a' as [s'|p'|], b as [t|q|];
    rewrite ?cell_equiv_CStr, ?cell_equiv_CNum, ?cell_equiv_CNaN; unfold cell_lt; simpl;
    try done; try (by intros ->).
Qed.

Lemma cell_cmp_equiv_l a a' b : a ≡ a' → cell_cmp a b = cell_cmp a' b.
Proof.
  destruct a as [s|p|], a' as [s'|p'|], b as [t|q|];
    rewrite ?cell_equiv_CStr, ?cell_equiv_CNum, ?cell_equiv_CNaN; simpl; try done.
  - by intros ->.
  - intros Hp. by rewrite Hp.
Qed.

Lemma insert_key_elem k ks x :
  x ∈ insert_key k ks → x = k ∨ x ∈ ks.
Proof.
  induction ks as [|k' ks IH]; simpl; [rewrite list_elem_of_singleton; by left|].
  destruct (cell_cmp k k'); rewrite ?elem_of_cons; [by right| |].
  - intros [->|Hx]; [by left|by right].
  - intros [->|Hx]; [by right; left|]. destruct (IH Hx); [by left | by right; right].
Qed.

Lemma insert_key_covers k ks : ∃ k', k' ∈ insert_key k ks ∧ k' ≡ k.
Proof.
  induction ks as [|k' ks IH]; simpl; [exists k; split; [by left|reflexivity]|].
  destruct (cell_cmp k k') eqn:E.
  - exists k'. split; [by left|]. symmetry. by apply cell_cmp_Eq.
  - exists k. split; [by left|reflexivity].
  - destruct IH as (k'' & ? & ?). exists k''. split; [by right|done].
Qed.

Lemma insert_key_keeps k ks x : x ∈ ks → x ∈ insert_key k ks.
Proof.
  induction ks as [|k' ks IH]; simpl; intros Hx; [by apply not_elem_of_nil in Hx|].
  destruct (cell_cmp k k'); [done|by right|].
  apply elem_of_cons in Hx as [->|Hx]; [by left|]. right. by apply IH.
Qed.

Lemma insert_key_sorted k ks :
  StronglySorted cell_lt ks → StronglySorted cell_lt (insert_key k ks).
Proof.
  induction 1 as [|k' ks Hs IH Hall]; simpl; [repeat constructor|].
  destruct (cell_cmp k k') eqn:E.
  - by constructor.
  - constructor; [by constructor|]. constructor; [done|].
    eapply Forall_impl; [exact Hall|]. intros x Hx. by etrans.
  - constructor; [done|]. apply Forall_forall. intros x Hx.
    apply insert_key_elem in Hx as [->|Hx].
    + unfold cell_lt. by rewrite cell_cmp_antisym, E.
    + rewrite Forall_forall in Hall. by apply Hall.
Qed.

Lemma group_keys_sorted col : StronglySorted cell_lt (group_keys col).
Proof.
  induction col as [|c col IH]; simpl; [constructor|].
  destruct (isnull c); [done|]. by apply insert_key_sorted.
Qed.

Lemma group_keys_sound col k : k ∈ group_keys col → k ∈ col ∧ isnull k = false.
Proof.
  induction col as [|c col IH]; simpl; [by intros ?%not_elem_of_nil|].
  destruct (isnull c) eqn:Hc; intros Hk.
  - destruct (IH Hk). split; [by right|done].
  - apply insert_key_elem in Hk as [->|Hk]; [split; [by left|done]|].
    destruct (IH Hk). split; [by right|done].
Qed.

Lemma group_keys_complete col c :
  c ∈ col → isnull c = false → ∃ k, k ∈ group_keys col ∧ k ≡ c.
Proof.
  induction col as [|c' col IH]; simpl; [by intros ?%not_elem_of_nil|].
  intros Hc Hnull. destruct (isnull c') eqn:Hc'.
  - apply elem_of_cons in Hc as [->|Hc]; [congruence|]. by apply IH.
  - apply elem_of_cons in Hc as [->|Hc]; [apply insert_key_covers|].
    destruct (IH Hc Hnull) as (k & Hk & Heq). exists k. split; [|done].
    by apply insert_key_keeps.
Qed.

Lemma cell_lt_not_equiv a b : cell_lt a b → ¬ a ≡ b.
Proof. unfold cell_lt. intros H Heq%cell_cmp_Eq. congruence. Qed.

(** The numbers of a list of cells, the values [mean] averages. *)
Definition num_opt (c : cell) : option Q :=
  match c with CNum q => Some q | _ => None end.

Definition nums (cs : list cell) : list Q := omap num_opt cs.

Lemma omap_id_map {A B} (f : A → option B) (l : list A) : omap id (map f l) = omap f l.
Proof. induction l as [|x l IH]; [done|]. simpl. destruct (f x); simpl; [f_equal|]; exact IH. Qed.

Lemma mean_ok cs :
  no_str cs →
  mean cs = Ok (match nums cs with
                | [] => CNaN
                | qs => CNum (Qsum qs / inject_Z (Z.of_nat (length qs)))
                end).
Proof.
  intros Hns. unfold mean.
  rewrite (mapM_result_map _ num_opt).
  - simpl. rewrite omap_id_map. unfold nums. by destruct (omap num_opt cs).
  - intros [s|q|] Hc; [by destruct (Hns s)|done|done].
Qed.

Lemma mean_Ok_inv cs v : mean cs = Ok v → no_str cs.
Proof.
  unfold mean. intros Hm. inv_result. rename x into vs, H into Hvs.
  apply mapM_result_Ok in Hvs. intros s Hs.
  apply list_elem_of_lookup in Hs as [i Hi].
  destruct (Forall2_lookup_l _ _ _ _ _ Hvs Hi) as (y & _ & Hy). done.
Qed.

(** The mean of group [k] as the spec states it: the numbers of column
    [ci] over the rows whose key equals [k], summed and divided by their
    count; NaN when there are none. *)
Definition group_mean {L} (f : frame L) (ki ci : nat) (k : cell) : cell :=
  match nums (map (λ r, r.2 !!! ci) (group_rows ki k (rows f))) with
  | [] => CNaN
  | qs => CNum (Qsum qs / inject_Z (Z.of_nat (length qs)))
  end.

Lemma no_str_filter {L} ci (P : L * list cell → Prop) `{∀ r, Decision (P r)}
    (rs : list (L * list cell)) :
  no_str (map (λ r, r.2 !!! ci) rs) → no_str (map (λ r, r.2 !!! ci) (filter P rs)).
Proof.
  intros Hns s (r & Hr & Hin%list_elem_of_filter)%elem_of_map.
  apply (Hns s), elem_of_map. exists r. split; [done|]. apply Hin.
Qed.

Lemma groupby_mean_ok {L} (f : frame L) key col ki ci :
  col_index key (columns f) = Some ki → col_index col (columns f) = Some ci →
  no_str (map (λ r, r.2 !!! ci) (rows f)) →
  groupby_mean f key col =
    Ok (mk_series col (map (λ k, (k, group_mean f ki ci k))
                           (group_keys (map (λ r, r.2 !!! ki) (rows f))))).
Proof.
  intros Hki Hci Hns. unfold groupby_mean. rewrite Hki, Hci.
  rewrite (mapM_result_map _ (group_mean f ki ci)).
  - simpl. unfold mret, result_ret. do 2 f_equal.
    induction (group_keys _) as [|k ks IH]; simpl; [done|]. by rewrite IH.
  - intros k _. rewrite mean_ok; [done|]. unfold group_rows. by apply no_str_filter.
Qed.

Lemma mean_err cs s : CStr s ∈ cs →
  mean cs = raise (TypeError "agg function failed [how->mean,dtype->object]").
Proof.
  intros Hs. unfold mean. erewrite mapM_result_Err; [done|exact Hs|done|].
  by intros [] e' [= <-].
Qed.

Lemma series_get_keys (keys : list cell) (g : cell → cell) name k :
  StronglySorted cell_lt keys → k ∈ keys →
  series_get (mk_series name (map (λ k', (k', g k')) keys)) k = g k.
Proof.
  induction keys as [|k0 ks IH]; intros Hs Hk; [by apply not_elem_of_nil in Hk|].
  apply StronglySorted_inv in Hs as [Hs Hall]. unfold series_get in *. simpl.
  case_decide as Heq.
  - apply elem_of_cons in Hk as [->|Hk]; [done|]. exfalso.
    rewrite Forall_forall in Hall. exact (cell_lt_not_equiv k0 k (Hall k Hk) Heq).
  - apply elem_of_cons in Hk as [->|Hk]; [exfalso; apply Heq; simpl; reflexivity|].
    specialize (IH Hs Hk). destruct (list_find _ _) as [[i p]|]; simpl; done.
Qed.

Lemma index_union_from (keys : list cell) ss :
  Forall (λ s, map fst (sdata s) = keys) ss →
  foldl (λ idx s, idx ++ filter (λ k, ¬ Exists (λ k', k' ≡ k) idx) (map fst (sdata s)))
        keys ss = keys.
Proof.
  induction 1 as [|s ss Hs _ IH]; [done|]. simpl. rewrite Hs.
  rewrite filter_all_false, app_nil_r; [done|].
  intros k Hk Hnot. apply Hnot, Exists_exists. exists k. split; [done|reflexivity].
Qed.

Lemma concat_same_index (ss : list (series cell)) keys :
  ss ≠ [] → Forall (λ s, map fst (sdata s) = keys) ss →
  concat_axis1 ss =
    Ok (mk_frame (map sname ss) (map (λ k, (k, map (λ s, series_get s k) ss)) keys)).
Proof.
  intros Hne Hall. destruct ss as [|s0 ss]; [done|]. simpl. do 3 f_equal.
  unfold index_union. simpl. apply Forall_cons in Hall as [H0 Hall].
  rewrite H0, filter_all_true by (intros k _ Hk; by apply Exists_nil in Hk).
  by apply index_union_from.
Qed.

Lemma mean_Err cs e :
  mean cs = Err e → e = TypeError "agg function failed [how->mean,dtype->object]".
Proof.
  unfold mean. destruct (mapM cell_num cs) as [vs|e'] eqn:Hm; simpl; [done|].
  intros [= <-]. revert e' Hm. induction cs as [|c cs IH]; intros e' Hm; simpl in Hm; [done|].
  destruct c as [s|q|]; simpl in Hm; [by injection Hm as <-| |];
    destruct (mapM cell_num cs); simpl in Hm; try done; by apply (IH e').
Qed.

Lemma Qlt_0_of_nat n : 0 < n → (0 < inject_Z (Z.of_nat n))%Q.
Proof. intros H. unfold Qlt. simpl. lia. Qed.

(** A mean is a number or NaN, never a string. *)
Lemma group_mean_not_str {L} (f : frame L) ki ci k t : group_mean f ki ci k ≠ CStr t.
Proof. unfold group_mean. by destruct (nums _). Qed.

Lemma series_get_not_str (s : series cell) k t :
  (∀ p, p ∈ sdata s → p.2 ≠ CStr t) → series_get s k ≠ CStr t.
Proof.
  intros Hs. unfold series_get. destruct (list_find _ _) as [[i p]|] eqn:E; [|done].
  apply list_find_Some in E as (Hi & _ & _). apply Hs. by eapply list_elem_of_lookup_2.
Qed.

Lemma mean_not_str cs v t : mean cs = Ok v → v ≠ CStr t.
Proof.
  unfold mean. intros Hm. inv_result. unfold mret, result_ret in *. inv_result. subst.
  by destruct (omap id _).
Qed.

(** The values of a [groupby] mean are numbers or NaN. *)
Lemma groupby_mean_not_str {L} (f : frame L) key col s :
  groupby_mean f key col = Ok s → Forall (λ p, ∀ t, p.2 ≠ CStr t) (sdata s).
Proof.
  unfold groupby_mean. destruct (col_index key (columns f)), (col_index col (columns f));
    try done.
  intros Hg. inv_result. unfold mret, result_ret in *. inv_result. subst. simpl.
  apply Forall_forall. intros [k v] Hp%elem_of_zip_r t. simpl.
  match goal with H : mapM _ _ = Ok _ |- _ => apply mapM_result_Ok in H as Hvs end.
  apply list_elem_of_lookup in Hp as [i Hi].
  destruct (Forall2_lookup_r _ _ _ _ _ Hvs Hi) as (k' & _ & Hm). by eapply mean_not_str.
Qed.

(** [concat] of series of floats is a frame of floats. *)
Lemma concat_axis1_floats (ss : list (series cell)) f :
  Forall (λ s, Forall (λ p, float_cell p.2) (sdata s)) ss → concat_axis1 ss = Ok f →
  Forall (λ r, Forall float_cell r.2) (rows f).
Proof.
  intros Hss Hc. destruct ss as [|s0 ss]; [done|]. injection Hc as <-. cbn [rows].
  apply Forall_map, Forall_true. intros k.
  apply (Forall_map (λ s, series_get s k) float_cell (s0 :: ss)).
  eapply Forall_impl; [exact Hss|]. intros s Hs t. apply series_get_not_str.
  intros p Hp. rewrite Forall_forall in Hs. by apply Hs.
Qed.

(** A [groupby] mean is named after the averaged column. *)
Lemma groupby_mean_name {L} (f : frame L) key col s :
  groupby_mean f key col = Ok s → sname s = col.
Proof.
  unfold groupby_mean. destruct (col_index key (columns f)), (col_index col (columns f));
    try done.
  intros H. inv_result. unfold mret, result_ret in *. by inv_result; subst.
Qed.

(** [concat(axis=1)] of series with distinct names is a well-formed frame
    whose columns are the names. *)
Lemma concat_axis1_wf (ss : list (series cell)) f :
  NoDup (map sname ss) → concat_axis1 ss = Ok f →
  wf_frame f ∧ columns f = map sname ss.
Proof.
  intros Hnd Hc. destruct ss as [|s ss]; [done|]. injection Hc as <-.
  split; [split|done]; [done|]. apply Forall_map, Forall_true. intros k.
  unfold row_fits. simpl. by rewrite !length_map.
Qed.

(** ** Properties *)

(** C11: the group keys of a column are its non-missing values, each up
    to equality exactly once, sorted as [groupby(sort=True)] sorts them. *)
Theorem group_keys_spec (col : list cell) :
  StronglySorted cell_lt (group_keys col) ∧
  (∀ k, k ∈ group_keys col → k ∈ col ∧ isnull k = false) ∧
  (∀ c, c ∈ col → isnull c = false → ∃ k, k ∈ group_keys col ∧ k ≡ c).
Proof.
  split_and!; [apply group_keys_sorted | apply group_keys_sound | apply group_keys_complete].
Qed.

(** C18: a mean lies between any lower and upper bound of the numbers it
    averages. *)
Theorem mean_bounds (cs : list cell) (m lo hi : Q) :
  mean cs = Ok (CNum m) → Forall (λ q, lo <= q <= hi)%Q (nums cs) → (lo <= m <= hi)%Q.
Proof.
  intros Hm Hb. pose proof (mean_Ok_inv _ _ Hm) as Hns.
  rewrite mean_ok in Hm by done. revert Hm Hb. generalize (nums cs) as l.
  intros [|q0 qs0] Hm Hb; [done|].
  assert (m = Qsum (q0 :: qs0) / inject_Z (Z.of_nat (length (q0 :: qs0))))%Q as ->
    by (injection Hm; auto).
  assert (Hlen : 0 < length (q0 :: qs0)) by (simpl; lia).
  revert Hb Hlen. generalize (q0 :: qs0) as l. intros l Hb Hlen.
  pose proof (Qlt_0_of_nat _ Hlen) as Hpos. split.
  - apply Qle_shift_div_l; [done|]. rewrite Qmult_comm. apply Qsum_lower.
    eapply Forall_impl; [exact Hb|]. by intros x [].
  - apply Qle_shift_div_r; [done|]. rewrite Qmult_comm. apply Qsum_upper.
    eapply Forall_impl; [exact Hb|]. by intros x [].
Qed.

(** C19: a string in the averaged column of a row with a key makes
    [groupby(key).col.mean()] raise [TypeError]. *)
Theorem groupby_mean_type_error {L} (f : frame L) key col ki ci r s :
  col_index key (columns f) = Some ki → col_index col (columns f) = Some ci →
  r ∈ rows f → isnull (r.2 !!! ki) = false → r.2 !!! ci = CStr s →
  groupby_mean f key col = raise (TypeError "agg function failed [how->mean,dtype->object]").
Proof.
  intros Hki Hci Hr Hkey Hs. unfold groupby_mean. rewrite Hki, Hci.
  destruct (group_keys_complete (map (λ r, r.2 !!! ki) (rows f)) (r.2 !!! ki))
    as (k & Hk & Heq); [apply elem_of_map; by exists r|done|].
  erewrite mapM_result_Err; [done|exact Hk| |intros; by eapply mean_Err].
  apply mean_err with s. rewrite <- Hs. apply elem_of_map. exists r. split; [done|].
  apply list_elem_of_filter. split; [|done]. by symmetry.
Qed.

(** C6: the Aggregator.  When [all_genres] has a [genre] column and the
    six averaged columns hold no strings, [genre_data] has the six columns
    in the order of the [concat] call, one row per group key (in sorted
    order), and in the row of key [k] the mean of each column over the rows
    whose genre equals [k]. *)
Theorem aggregate_spec (ag : frame nat) ki cis :
  col_index "genre" (columns ag) = Some ki →
  Forall2 (λ c ci, col_index c (columns ag) = Some ci) aggregate_columns cis →
  Forall (λ ci, no_str (map (λ r, r.2 !!! ci) (rows ag))) cis →
  aggregate ag =
    Ok (mk_frame aggregate_columns
          (map (λ k, (k, map (λ ci, group_mean ag ki ci k) cis))
               (group_keys (map (λ r, r.2 !!! ki) (rows ag))))).
Proof.
  intros Hki Hcis Hns.
  inversion Hcis as [|? cb ? cis1 Hb H1]; subst.
  inversion H1 as [|? cp ? cis2 Hp H2]; subst.
  inversion H2 as [|? crev ? cis3 Hrev H3]; subst.
  inversion H3 as [|? crt ? cis4 Hrt H4]; subst.
  inversion H4 as [|? cy ? cis5 Hy H5]; subst.
  inversion H5 as [|? cv ? cis6 Hv H6]; subst.
  inversion H6; subst.
  repeat match goal with H : Forall _ (_ :: _) |- _ => apply Forall_cons in H as [? ?] end.
  unfold aggregate.
  rewrite (groupby_mean_ok _ _ "budget_adj" ki cb),
    (groupby_mean_ok _ _ "popularity" ki cp), (groupby_mean_ok _ _ "runtime" ki crt),
    (groupby_mean_ok _ _ "release_year" ki cy), (groupby_mean_ok _ _ "vote_average" ki cv),
    (groupby_mean_ok _ _ "revenue_adj" ki crev) by done.
  cbn -[concat_axis1 group_keys group_mean].
  rewrite (concat_same_index _ (group_keys (map (λ r, r.2 !!! ki) (rows ag))));
    [|done|repeat constructor; simpl; rewrite map_map; apply map_id].
  do 2 f_equal. apply map_ext_in. intros k Hk%list_elem_of_In. f_equal. simpl.
  rewrite !series_get_keys by (done || apply group_keys_sorted). done.
Qed.

(** ** The spec's example: three rows, two of them of one genre *)

Definition spec_all_genres : frame nat :=
  mk_frame ["genres"; "popularity"; "vote_average"; "runtime"; "budget_adj";
            "revenue_adj"; "release_year"; "genre"]
    [(0, [CStr "Action"; CNum 1; CNum 6; CNum 90; CNum 10; CNum 20; CNum 2000; CStr "Action"]);
     (1, [CStr "Action"; CNum 3; CNum 7; CNum 110; CNum 30; CNum 40; CNum 2010; CStr "Action"]);
     (2, [CStr "Drama"; CNum 5; CNum 8; CNum 120; CNum 50; CNum 60; CNum 2020; CStr "Drama"])].

(** On the spec's synthetic input the mean popularity of ["Action"]
    is [(1 + 3) / 2 = 2] and that of ["Drama"] is [5], and the keys come out
    sorted. *)
Example aggregate_spec_example :
  aggregate spec_all_genres =
    Ok (mk_frame aggregate_columns
          [(CStr "Action", [CNum (40 # 2); CNum (4 # 2); CNum (60 # 2); CNum (200 # 2);
                            CNum (4010 # 2); CNum (13 # 2)]);
           (CStr "Drama", [CNum 50; CNum 5; CNum 60; CNum 120; CNum 2020; CNum 8])]).
Proof. vm_compute. reflexivity. Qed.

Lemma aggregate_spec_witness :
  aggregate spec_all_genres =
    Ok (mk_frame aggregate_columns
          (map (λ k, (k, map (λ ci, group_mean spec_all_genres 7 ci k) [4; 1; 5; 3; 6; 2]))
               (group_keys (map (λ r, r.2 !!! 7) (rows spec_all_genres))))).
Proof.
  apply aggregate_spec.
  - reflexivity.
  - repeat constructor.
  - repeat constructor; apply (bool_decide_unpack (no_str _)); vm_compute; exact I.
Defined.

Lemma mean_bounds_witness :
  mean [CNum 1; CNaN; CNum 3] = Ok (CNum (4 # 2)) ∧
  Forall (λ q, 1 <= q <= 3)%Q (nums [CNum 1; CNaN; CNum 3]) ∧ (1 <= 4 # 2 <= 3)%Q.
Proof.
  assert (Hm : mean [CNum 1; CNaN; CNum 3] = Ok (CNum (4 # 2))) by (vm_compute; reflexivity).
  assert (Hb : Forall (λ q, 1 <= q <= 3)%Q (nums [CNum 1; CNaN; CNum 3]))
    by (vm_compute; repeat constructor; discriminate).
  split; [exact Hm|]. split; [exact Hb|]. exact (mean_bounds _ _ _ _ Hm Hb).
Defined.

Lemma groupby_mean_type_error_witness :
  groupby_mean (mk_frame ["genre"; "popularity"] [(0, [CStr "Action"; CStr "high"])])
    "genre" "popularity" =
  raise (TypeError "agg function failed [how->mean,dtype->object]").
Proof.
  apply (groupby_mean_type_error _ _ _ 0 1 (0, [CStr "Action"; CStr "high"]) "high");
    try reflexivity. by left.
Defined.

End Aggregate.
