(* ===== verification/Rank.v ===== *)
(** * Ranking: [genre_data.sort_values('popularity', ascending=False)] (line 178)

    [sort_values] with ascending=False and the default na_position='last'
    puts larger values first and missing values last; comparing a string
    with a number raises [TypeError].  pandas' default sort (kind='quicksort')
    is not stable, so the order of equal values is not fixed by the code.
    The sort is therefore a parameter: the class [DescSorter] states what
    any descending sort promises ([ranked]: a permutation of the rows,
    sorted non-increasingly, NaN last), the ranking theorem is proved
    against that promise (the row at rank [i] has at most [i] rows above
    it and more than [i] at least as large), and a stable insertion sort is
    the executable instance that discharges it. *)

From stdpp Require Import sorting.
From S2P Require Import Prelude Frame Aggregate.
Import Aggregate.

Module Rank.

(** [a] may precede [b] in a descending sort with NaN last. *)
Definition desc_le (a b : cell) : Prop :=
  match a, b with
  | CNaN, CNaN => True
  | CNaN, _ => False
  | _, CNaN => True
  | _, _ => cell_cmp a b ≠ Lt
  end.

#[export] Instance desc_le_dec : RelDecision desc_le.
Proof. intros [] []; simpl; apply _. Defined.

(** The abstract specification of a descending sort by [key]. *)
Definition ranked {A} (key : A → cell) (l l' : list A) : Prop :=
  l' ≡ₚ l ∧ Sorted (λ x y, desc_le (key x) (key y)) l'.

(** What [sort_values(ascending=False)] promises, whatever its algorithm. *)
Class DescSorter := desc_sort : ∀ {A}, (A → cell) → list A → list A.
Class DescSorterSpec `{DescSorter} :=
  desc_sort_ranked : ∀ A (key : A → cell) l, ranked key l (desc_sort key l).

(** A stable insertion sort. *)
Section Insertion.
Context {A : Type} (key : A → cell).

Fixpoint insert_desc (x : A) (l : list A) : list A :=
  match l with
  | [] => [x]
  | y :: l' => if decide (desc_le (key x) (key y)) then x :: l else y :: insert_desc x l'
  end.

Definition sort_desc (l : list A) : list A := foldr insert_desc [] l.
End Insertion.

#[export] Instance insertion_sorter : DescSorter := @sort_desc.

(** Whether a column mixes numbers and strings. *)
Definition mixed (cs : list cell) : bool :=
  existsb (λ c, match c with CNum _ => true | _ => false end) cs &&
  existsb (λ c, match c with CStr _ => true | _ => false end) cs.

(** [f.sort_values(col, ascending=False)]. *)
Definition sort_values_desc `{DescSorter} {L} (f : frame L) (col : string)
  : result (frame L) :=
  match col_index col (columns f) with
  | None => raise (KeyError [col])
  | Some ci =>
      if mixed (map (λ r, r.2 !!! ci) (rows f))
      then raise (TypeError "'<' not supported between instances of 'str' and 'float'")
      else Ok (mk_frame (columns f) (desc_sort (λ r, r.2 !!! ci) (rows f)))
  end.

(** Line 178: the ranked [popularity] series. *)
Definition ranking `{DescSorter} (genre_data : frame cell) : result (series cell) :=
  sorted ← sort_values_desc genre_data "popularity";
  get_attr sorted "popularity".

(** ** The order *)

Lemma cell_cmp_ge_total a b : cell_cmp a b ≠ Lt ∨ cell_cmp b a ≠ Lt.
Proof. rewrite (cell_cmp_antisym b a). destruct (cell_cmp a b); simpl; auto; by left. Qed.

Lemma desc_le_total a b : desc_le a b ∨ desc_le b a.
Proof.
  destruct a, b; unfold desc_le; cbv beta iota; auto using cell_cmp_ge_total.
Qed.

Lemma cell_cmp_not_lt_trans a b c :
  cell_cmp a b ≠ Lt → cell_cmp b c ≠ Lt → cell_cmp a c ≠ Lt.
Proof.
  intros Hab Hbc.
  destruct (cell_cmp a b) eqn:Eab; [|done|]; destruct (cell_cmp b c) eqn:Ebc; try done.
  - apply cell_cmp_Eq in Eab, Ebc. rewrite (cell_cmp_equiv_l a b c) by done.
    by rewrite (proj2 (cell_cmp_Eq b c) Ebc).
  - apply cell_cmp_Eq in Eab. by rewrite (cell_cmp_equiv_l a b c), Ebc.
  - apply cell_cmp_Eq in Ebc. rewrite cell_cmp_antisym.
    rewrite <- (cell_cmp_equiv_l b c a) by done. rewrite cell_cmp_antisym, Eab. done.
  - assert (cell_lt c a).
    { transitivity b; unfold cell_lt; rewrite cell_cmp_antisym; [by rewrite Ebc|by rewrite Eab]. }
    unfold cell_lt in *. rewrite cell_cmp_antisym. by destruct (cell_cmp c a).
Qed.

#[export] Instance desc_le_trans : Transitive desc_le.
Proof.
  intros [s|p|] [t|q|] [u|r|]; unfold desc_le; cbv beta iota; try done;
    apply cell_cmp_not_lt_trans.
Qed.

#[export] Instance desc_le_refl : Reflexive desc_le.
Proof.
  intros [s|p|]; unfold desc_le; cbv beta iota; try done;
    by rewrite (proj2 (cell_cmp_Eq _ _) (reflexivity _)).
Qed.

(** ** The insertion sort meets the specification *)

Section InsertionProofs.
Context {A : Type} (key : A → cell).
Local Abbreviation R := (λ x y, desc_le (key x) (key y)).

#[local] Instance by_key_trans : Transitive R.
Proof. intros x y z. apply desc_le_trans. Qed.

Lemma insert_desc_perm x l : insert_desc key x l ≡ₚ x :: l.
Proof.
  induction l as [|y l IH]; simpl; [done|].
  case_decide; [done|]. rewrite IH. by constructor.
Qed.

Lemma insert_desc_hd y x l :
  R y x → HdRel R y l → HdRel R y (insert_desc key x l).
Proof.
  intros Hyx Hl. destruct l as [|z l]; simpl; [by constructor|].
  case_decide; constructor; [done|]. by inversion Hl.
Qed.

Lemma insert_desc_sorted x l : Sorted R l → Sorted R (insert_desc key x l).
Proof.
  induction l as [|y l IH]; intros Hs; simpl; [by repeat constructor|].
  apply Sorted_inv in Hs as [Hs Hhd]. case_decide as Hxy.
  - constructor; [by constructor|]. by constructor.
  - constructor; [by apply IH|]. apply insert_desc_hd; [|done].
    destruct (desc_le_total (key x) (key y)); [done|done].
Qed.

Lemma sort_desc_perm l : sort_desc key l ≡ₚ l.
Proof.
  induction l as [|x l IH]; simpl; [done|]. by rewrite insert_desc_perm, IH.
Qed.

Lemma sort_desc_sorted l : Sorted R (sort_desc key l).
Proof. induction l as [|x l IH]; simpl; [constructor|]. by apply insert_desc_sorted. Qed.

(** Under the specification, what precedes a row ranks at least as high
    and what follows it ranks at most as high. *)
Lemma ranked_around l l' i x :
  ranked key l l' → l' !! i = Some x →
  (∀ y, y ∈ take i l' → R y x) ∧ (∀ y, y ∈ drop (S i) l' → R x y).
Proof.
  intros [_ Hs] Hx. apply Sorted_StronglySorted in Hs; [|apply _].
  rewrite <- (take_drop_middle l' i x Hx) in Hs. split.
  - intros y Hy. by eapply (StronglySorted_app_1_elem_of R); [exact Hs|exact Hy|left].
  - intros y Hy. apply StronglySorted_app_1_r, StronglySorted_cons in Hs as [Hall _].
    rewrite Forall_forall in Hall. by apply Hall.
Qed.

End InsertionProofs.

#[export] Instance insertion_sorter_spec : DescSorterSpec.
Proof. intros A key l. split; [apply sort_desc_perm | apply sort_desc_sorted]. Qed.

(** Line 178 succeeds when [popularity] is a column without strings. *)
Lemma ranking_ok `{DescSorter} (gd : frame cell) ci :
  col_index "popularity" (columns gd) = Some ci →
  Forall (λ r, Forall float_cell r.2) (rows gd) →
  ∃ sr, ranking gd = Ok sr.
Proof.
  intros Hci Hns. unfold ranking, sort_values_desc. rewrite Hci.
  assert (mixed (map (λ r, r.2 !!! ci) (rows gd)) = false) as ->.
  { unfold mixed. apply andb_false_intro2, not_true_iff_false.
    intros (c & Hc & Hs)%existsb_exists. apply list_elem_of_In, elem_of_map in Hc as (r & -> & Hr).
    destruct (r.2 !!! ci) as [t| |] eqn:E; try done.
    rewrite Forall_forall in Hns. by apply (float_lookup_total _ ci (Hns r Hr) t). }
  unfold get_attr, get_column. simpl. rewrite Hci. by eexists.
Qed.

(** Whether a cell is a number above [q], or at least [q]. *)
Definition above (q : Q) (c : cell) : bool :=
  match c with CNum p => negb (Qle_bool p q) | _ => false end.
Definition at_least (q : Q) (c : cell) : bool :=
  match c with CNum p => Qle_bool q p | _ => false end.

Lemma desc_le_above q c : desc_le (CNum q) c → above q c = false.
Proof.
  destruct c as [s|p|]; simpl; intros Hc; try done.
  apply negb_false_iff, Qle_bool_iff, Qnot_lt_le. intros Hlt. by apply Hc, Qlt_alt.
Qed.

Lemma desc_le_at_least q c : desc_le c (CNum q) → is_str c = false → at_least q c = true.
Proof.
  destruct c as [s|p|]; simpl; intros Hc Hs; try done.
  apply Qle_bool_iff, Qnot_lt_le. intros Hlt. by apply Hc, Qlt_alt.
Qed.

(** A column that [sort_values] accepts and that holds a number holds no
    string. *)
Lemma not_mixed_no_str {A} (key : A → cell) (l : list A) x q :
  mixed (map key l) = false → x ∈ l → key x = CNum q → ∀ y, y ∈ l → is_str (key y) = false.
Proof.
  intros Hmix Hx Hq y Hy. apply andb_false_iff in Hmix as [Hn|Hs].
  - exfalso. apply not_true_iff_false in Hn. apply Hn, existsb_exists. exists (key x).
    split; [apply list_elem_of_In, elem_of_map; by exists x|by rewrite Hq].
  - apply not_true_iff_false. intros Hy'. apply not_true_iff_false in Hs. apply Hs, existsb_exists.
    exists (key y). split; [apply list_elem_of_In, elem_of_map; by exists y|by destruct (key y)].
Qed.

(** ** Properties *)

(** C21: with any sort meeting the specification (pandas' quicksort is
    not stable), the row [sort_values(col, ascending=False)] puts at
    position [i] with the value [q] has fewer than [i + 1] rows above it
    and more than [i] rows at least as large: exactly [i] rows of the frame
    are larger when no value is tied, so the genre shown at rank [i + 1]
    of line 178 is the one [i] genres beat in popularity. *)
Theorem sort_values_rank `{HS : DescSorterSpec} {L} (f f' : frame L) col ci i r q :
  col_index col (columns f) = Some ci →
  sort_values_desc f col = Ok f' →
  rows f' !! i = Some r → r.2 !!! ci = CNum q →
  length (filter (λ r', above q (r'.2 !!! ci) = true) (rows f)) ≤ i ∧
  i < length (filter (λ r', at_least q (r'.2 !!! ci) = true) (rows f)).
Proof.
  intros Hci Hsort Hr Hq. unfold sort_values_desc in Hsort. rewrite Hci in Hsort.
  destruct (mixed _) eqn:Hmix; [done|]. injection Hsort as <-. simpl in Hr.
  pose proof (HS _ (λ r, r.2 !!! ci) (rows f)) as Hrk.
  destruct (ranked_around _ _ _ i r Hrk Hr) as [Hpre Hpost]. destruct Hrk as [Hperm _].
  assert (r ∈ rows f) as Hrf by (rewrite <- Hperm; by eapply list_elem_of_lookup_2).
  pose proof (not_mixed_no_str _ _ _ _ Hmix Hrf Hq) as Hns.
  assert (length (take i (desc_sort (λ r, r.2 !!! ci) (rows f))) = i) as Hlen.
  { apply length_take_le. apply lookup_lt_Some in Hr. lia. }
  rewrite <- Hperm, <- (take_drop_middle _ i r Hr), !filter_app, !length_app, !filter_cons, Hq.
  cbn [above at_least]. rewrite (proj2 (Qle_bool_iff q q) (Qle_refl q)). simpl.
  rewrite (filter_all_false (λ r', above q (r'.2 !!! ci) = true) (drop _ _)),
    (filter_all_true (λ r', at_least q (r'.2 !!! ci) = true) (take _ _)).
  - pose proof (length_filter (λ r', above q (r'.2 !!! ci) = true)
                  (take i (desc_sort (λ r, r.2 !!! ci) (rows f)))). simpl. lia.
  - intros y Hy. apply desc_le_at_least; [rewrite <- Hq; by apply Hpre|].
    apply Hns. rewrite <- Hperm. apply elem_of_take in Hy as (j & Hj & _).
    by eapply list_elem_of_lookup_2.
  - intros y Hy. apply not_true_iff_false, desc_le_above. rewrite <- Hq. by apply Hpost.
Qed.

(** Sorting a column that holds both numbers and strings raises
    [TypeError]. *)
Theorem sort_values_mixed `{DescSorter} {L} (f : frame L) col ci r1 r2 q s :
  col_index col (columns f) = Some ci →
  r1 ∈ rows f → r1.2 !!! ci = CNum q → r2 ∈ rows f → r2.2 !!! ci = CStr s →
  sort_values_desc f col =
    raise (TypeError "'<' not supported between instances of 'str' and 'float'").
Proof.
  intros Hci Hr1 Hq Hr2 Hs. unfold sort_values_desc. rewrite Hci.
  assert (mixed (map (λ r, r.2 !!! ci) (rows f)) = true) as ->; [|done].
  unfold mixed. apply andb_true_intro. split; apply existsb_exists.
  - exists (CNum q). split; [|done]. apply list_elem_of_In, elem_of_map. by exists r1.
  - exists (CStr s). split; [|done]. apply list_elem_of_In, elem_of_map. by exists r2.
Qed.

(** ** Witnesses *)

Definition sample_genre_data : frame cell :=
  mk_frame ["budget_adj"; "popularity"]
    [(CStr "Action", [CNum 30; CNum (5 # 2)]);
     (CStr "Foreign", [CNum 1; CNum (1 # 5)]);
     (CStr "Science Fiction", [CNum 40; CNum 3])].

(** The most popular genre of [sample_genre_data] ranks first: no genre
    is above it. *)
Lemma sort_values_rank_witness :
  length (filter (λ r', above 3 (r'.2 !!! 1) = true) (rows sample_genre_data)) ≤ 0 ∧
  0 < length (filter (λ r', at_least 3 (r'.2 !!! 1) = true) (rows sample_genre_data)).
Proof.
  apply (sort_values_rank sample_genre_data
           (mk_frame ["budget_adj"; "popularity"]
              [(CStr "Science Fiction", [CNum 40; CNum 3]);
               (CStr "Action", [CNum 30; CNum (5 # 2)]);
               (CStr "Foreign", [CNum 1; CNum (1 # 5)])])
           "popularity" 1 0 (CStr "Science Fiction", [CNum 40; CNum 3]));
    [reflexivity | vm_compute; reflexivity | reflexivity | reflexivity].
Defined.

Lemma sort_values_mixed_witness :
  sort_values_desc (mk_frame ["popularity"] [(0, [CNum 1]); (1, [CStr "high"])]) "popularity" =
    raise (TypeError "'<' not supported between instances of 'str' and 'float'").
Proof.
  apply (sort_values_mixed _ _ 0 (0, [CNum 1]) (1, [CStr "high"]) 1 "high");
    [reflexivity|by left|reflexivity|by right; left|reflexivity].
Defined.

End Rank.
