(* ===== verification/Hist.v ===== *)
(** * The histograms of the report: [Series.hist(bins=n)]

    Lines 184, 211, 238, 264, 290 and 316 call [d.<col>.hist(bins=n)].
    pandas drops the missing values ([self.dropna().values]) and matplotlib
    bins the rest with [np.histogram(values, bins=n)]: the range is the
    minimum and maximum of the values (widened by 0.5 on each side when
    they are equal, [0, 1] when there are none), the [n + 1] edges are
    [np.linspace(lo, hi, n + 1)], and each value goes to the bin numpy's
    equal-width fast path computes, [floor((x - lo) * (n / (hi - lo)))]
    corrected against the edges, the last bin being closed on the right.
    Numbers are exact rationals, so the float corrections of the fast path
    never fire; the theorems show it and relate the fast path to numpy's
    general method, a search among the edges. *)

From Stdlib Require Import Qround Qminmax Lqa Psatz.
From S2P Require Import Prelude Frame.

Module Hist.
Local Open Scope Q_scope.

Definition Qnat (n : nat) : Q := inject_Z (Z.of_nat n).

(** [a.min()] and [a.max()] of a non-empty array. *)
Definition qmin (x : Q) (xs : list Q) : Q := foldr Qmin x xs.
Definition qmax (x : Q) (xs : list Q) : Q := foldr Qmax x xs.

(** [_get_outer_edges(a, range=None)]. *)
Definition outer_edges (xs : list Q) : Q * Q :=
  match xs with
  | [] => (0, 1)
  | x :: xs' =>
      let lo := qmin x xs' in
      let hi := qmax x xs' in
      if Qeq_bool lo hi then (lo - (1 # 2), hi + (1 # 2)) else (lo, hi)
  end.

(** [np.linspace(lo, hi, n + 1)]: edge [i]. *)
Definition bin_edge (n : nat) (lo hi : Q) (i : nat) : Q := lo + (hi - lo) * Qnat i / Qnat n.

Definition bin_edges (n : nat) (lo hi : Q) : list Q := map (bin_edge n lo hi) (seq 0 (S n)).

(** The bin of one value on numpy's fast path for equal bins:
    [f_indices = (x - lo) * norm] truncated, the value [n] moved to the
    last bin, then decremented when [x] is below the bin's left edge and
    incremented when it is at or above its right edge (but not past the
    last bin). *)
Definition bin_index (n : nat) (lo hi x : Q) : nat :=
  let i0 := Z.to_nat (Qfloor ((x - lo) * (Qnat n / (hi - lo)))) in
  let i1 := if Nat.eqb i0 n then (i0 - 1)%nat else i0 in
  let i2 := if Qle_bool (bin_edge n lo hi i1) x then i1 else (i1 - 1)%nat in
  if Qle_bool (bin_edge n lo hi (S i2)) x && negb (Nat.eqb i2 (n - 1)%nat) then S i2 else i2.

(** The reference: numpy's method for explicit edges,
    [np.searchsorted(edges, x, 'right') - 1] with the last bin closed,
    i.e. the number of inner and right edges at or below [x], at most
    [n - 1]. *)
Definition bin_search (n : nat) (lo hi x : Q) : nat :=
  Nat.min (n - 1)%nat (length (filter (λ i, Qle_bool (bin_edge n lo hi i) x = true) (seq 1 n))).

(** [np.bincount(indices, minlength=n)]. *)
Definition bincount (n : nat) (idx : list nat) : list nat :=
  map (λ i, length (filter (λ j, j = i) idx)) (seq 0 n).

(** [np.histogram(values, bins=n)]: the counts and the edges. *)
Definition histogram (n : nat) (xs : list Q) : result (list nat * list Q) :=
  if Nat.eqb n 0 then raise (ValueError "`bins` must be positive, when an integer")
  else
    let '(lo, hi) := outer_edges xs in
    let kept := filter (λ x, Qle_bool lo x && Qle_bool x hi = true) xs in
    Ok (bincount n (map (bin_index n lo hi) kept), bin_edges n lo hi).

(** [self.dropna().values]: the numbers of a column; a string cannot be
    binned. *)
Definition hist_values (cs : list cell) : result (list Q) :=
  mapM (λ c, match c with
             | CNum q => Ok [q]
             | CNaN => Ok []
             | CStr _ => raise (TypeError "'<' not supported between instances of 'str' and 'float'")
             end) cs ≫= λ vss, mret (concat vss).

(** [Series.hist(bins=n)] on a column: the bars' counts and edges. *)
Definition series_hist (n : nat) (cs : list cell) : result (list nat * list Q) :=
  xs ← hist_values cs; histogram n xs.

(** ** Counting *)

Lemma count_le_seq (m k : nat) : length (filter (λ i, (i <= k)%nat) (seq 1 m)) = Nat.min m k.
Proof.
  induction m as [|m IH]; [done|]. rewrite seq_S, filter_app, length_app, IH.
  rewrite filter_cons, filter_nil. case_decide; cbn [length]; lia.
Qed.

Lemma sum_indicator (j m : nat) :
  list_sum (map (λ i, length (filter (λ j', j' = i) [j])) (seq 0 m)) = if decide (j < m)%nat then 1%nat else 0%nat.
Proof.
  induction m as [|m IH]; [done|]. rewrite seq_S, map_app, list_sum_app, IH. simpl.
  rewrite filter_cons, filter_nil. repeat case_decide; simpl; lia.
Qed.

Lemma count_split (j : nat) (idx l : list nat) :
  list_sum (map (λ i, length (filter (λ j', j' = i) (j :: idx))) l) =
  (list_sum (map (λ i, length (filter (λ j', j' = i) [j])) l) +
   list_sum (map (λ i, length (filter (λ j', j' = i) idx)) l))%nat.
Proof.
  induction l as [|i l IH]; [done|]. cbn [map]. rewrite !list_sum_cons, IH, !filter_cons, filter_nil.
  case_decide; cbn [length]; lia.
Qed.

(** [np.bincount] counts every index below [n] once. *)
Lemma bincount_sum (n : nat) (idx : list nat) :
  Forall (λ i, (i < n)%nat) idx → list_sum (bincount n idx) = length idx.
Proof.
  unfold bincount. induction 1 as [|j idx Hj _ IH].
  - induction (seq 0 n) as [|i l IHl]; [done|]. cbn [map]. by rewrite list_sum_cons, IHl.
  - rewrite count_split, sum_indicator, IH, decide_True by done. done.
Qed.

(** The automatic range contains every value and is not empty. *)
Lemma qmin_le x xs y : y ∈ x :: xs → qmin x xs <= y.
Proof.
  induction xs as [|x' xs IH]; intros Hy; simpl.
  - apply list_elem_of_singleton in Hy as ->. apply Qle_refl.
  - apply elem_of_cons in Hy as [->|[->|Hy]%elem_of_cons].
    + eapply Qle_trans; [apply Q.le_min_r|apply IH; by left].
    + apply Q.le_min_l.
    + eapply Qle_trans; [apply Q.le_min_r|apply IH; by right].
Qed.

Lemma qmax_ge x xs y : y ∈ x :: xs → y <= qmax x xs.
Proof.
  induction xs as [|x' xs IH]; intros Hy; simpl.
  - apply list_elem_of_singleton in Hy as ->. apply Qle_refl.
  - apply elem_of_cons in Hy as [->|[->|Hy]%elem_of_cons].
    + eapply Qle_trans; [apply IH; by left|apply Q.le_max_r].
    + apply Q.le_max_l.
    + eapply Qle_trans; [apply IH; by right|apply Q.le_max_r].
Qed.

Lemma outer_edges_spec xs :
  (outer_edges xs).1 < (outer_edges xs).2 ∧
  Forall (λ x, (outer_edges xs).1 <= x <= (outer_edges xs).2) xs.
Proof.
  destruct xs as [|x xs]; simpl; [split; [reflexivity|constructor]|].
  assert (qmin x xs <= qmax x xs) by (eapply Qle_trans; [apply qmin_le|apply qmax_ge]; by left).
  destruct (Qeq_bool _ _) eqn:E; simpl; (split; [|apply Forall_forall; intros y Hy;
    pose proof (qmin_le x xs y Hy); pose proof (qmax_ge x xs y Hy); lra]).
  - lra.
  - apply Qeq_bool_neq in E. destruct (Qle_lt_or_eq _ _ H) as [|Heq]; [done|by destruct E].
Qed.

(** ** The bin of a value *)

(** The position of [x] in units of bin width. *)
Definition bin_pos (n : nat) (lo hi x : Q) : Q := (x - lo) * (Qnat n / (hi - lo)).

Lemma Qnat_le k m : (k <= m)%nat ↔ Qnat k <= Qnat m.
Proof. unfold Qnat. rewrite <- Zle_Qle. lia. Qed.

Section Bins.
Context (n : nat) (lo hi : Q).
Hypotheses (Hn : (0 < n)%nat) (Hlh : lo < hi).

Lemma Qnat_n_pos : 0 < Qnat n.
Proof. unfold Qnat. change 0 with (inject_Z 0). rewrite <- Zlt_Qlt. lia. Qed.

(** An edge is at or below [x] exactly when its number is at or below
    [x]'s position. *)
Lemma edge_le_iff i x : bin_edge n lo hi i <= x ↔ Qnat i <= bin_pos n lo hi x.
Proof.
  pose proof Qnat_n_pos. unfold bin_edge, bin_pos.
  rewrite <- (Qmult_le_r (Qnat i) ((x - lo) * (Qnat n / (hi - lo))) ((hi - lo) / Qnat n))
    by (apply Qlt_shift_div_l; lra).
  setoid_replace ((x - lo) * (Qnat n / (hi - lo)) * ((hi - lo) / Qnat n)) with (x - lo)
    using relation Qeq by (field; split; intro; lra).
  setoid_replace (lo + (hi - lo) * Qnat i / Qnat n) with (lo + Qnat i * ((hi - lo) / Qnat n))
    using relation Qeq by (field; intro; lra).
  split; intros; lra.
Qed.

Section Value.
Context (x : Q).
Hypothesis (Hx : lo <= x <= hi).

Lemma bin_pos_bounds : 0 <= bin_pos n lo hi x <= Qnat n.
Proof.
  pose proof Qnat_n_pos. unfold bin_pos. split.
  - apply Qmult_le_0_compat; [lra|]. apply Qle_shift_div_l; lra.
  - setoid_replace ((x - lo) * (Qnat n / (hi - lo))) with ((x - lo) / (hi - lo) * Qnat n)
      using relation Qeq by (field; intro; lra).
    rewrite <- (Qmult_1_l (Qnat n)) at 2. apply Qmult_le_compat_r; [|lra].
    apply Qle_shift_div_r; lra.
Qed.

(** The truncated position, the [i0] of the fast path. *)
Definition bin_floor : nat := Z.to_nat (Qfloor (bin_pos n lo hi x)).

(** A whole number is at or below the position exactly when it is at or
    below its floor. *)
Lemma nat_le_pos k : Qnat k <= bin_pos n lo hi x ↔ (k <= bin_floor)%nat.
Proof.
  pose proof bin_pos_bounds as [H0 _]. unfold bin_floor.
  assert (0 <= Qfloor (bin_pos n lo hi x))%Z.
  { rewrite <- (Qfloor_Z 0). by apply Qfloor_resp_le. }
  split.
  - intros Hk%Qfloor_resp_le. unfold Qnat in Hk. rewrite Qfloor_Z in Hk. lia.
  - intros Hk. eapply Qle_trans; [|apply Qfloor_le]. unfold Qnat. rewrite <- Zle_Qle. lia.
Qed.

Lemma bin_floor_le : (bin_floor <= n)%nat.
Proof.
  pose proof bin_pos_bounds as [_ H1]. unfold bin_floor.
  apply Qfloor_resp_le in H1. unfold Qnat in H1. rewrite Qfloor_Z in H1. lia.
Qed.

(** The reference search finds the same bin. *)
Lemma bin_search_floor : bin_search n lo hi x = Nat.min (n - 1) bin_floor.
Proof.
  pose proof bin_floor_le. unfold bin_search.
  rewrite (list_filter_iff _ (λ i, (i <= bin_floor)%nat)), count_le_seq; [lia|].
  intros i. rewrite Qle_bool_iff, edge_le_iff. apply nat_le_pos.
Qed.

Lemma edge_le_floor i : bin_edge n lo hi i <= x ↔ (i <= bin_floor)%nat.
Proof. rewrite edge_le_iff. apply nat_le_pos. Qed.

(** In exact arithmetic neither correction of the fast path fires: the
    bin is the truncated position, the value [hi] going to the last bin. *)
Lemma bin_index_floor : bin_index n lo hi x = Nat.min (n - 1) bin_floor.
Proof.
  pose proof bin_floor_le. unfold bin_index.
  change (Z.to_nat (Qfloor ((x - lo) * (Qnat n / (hi - lo))))) with bin_floor.
  repeat case_match;
    repeat match goal with
    | H : Qle_bool _ _ = true |- _ => apply Qle_bool_iff, edge_le_floor in H
    | H : Qle_bool _ _ = false |- _ =>
        apply not_true_iff_false in H; rewrite Qle_bool_iff, edge_le_floor in H
    | H : Nat.eqb _ _ = true |- _ => apply Nat.eqb_eq in H
    | H : Nat.eqb _ _ = false |- _ => apply Nat.eqb_neq in H
    | H : (_ && _) = true |- _ => apply andb_true_iff in H as [? ?]
    | H : (_ && _) = false |- _ => apply andb_false_iff in H as [?|?]
    | H : negb _ = true |- _ => apply negb_true_iff in H
    | H : negb _ = false |- _ => apply negb_false_iff in H
    end; lia.
Qed.
End Value.
End Bins.

(** ** Properties *)

(** C31: for [n > 0] bins over a non-empty range, the fast path puts a
    value of the range in a bin [i < n] whose left edge is at or below it
    and whose right edge is above it, except that [hi] itself goes to the
    last bin, which numpy closes on the right. *)
Theorem bin_index_bin (n : nat) (lo hi x : Q) :
  (0 < n)%nat → lo < hi → lo <= x <= hi →
  (bin_index n lo hi x < n)%nat ∧ bin_edge n lo hi (bin_index n lo hi x) <= x ∧
  (x < bin_edge n lo hi (S (bin_index n lo hi x)) ∨ bin_index n lo hi x = (n - 1)%nat).
Proof.
  intros Hn Hlh Hx. rewrite (bin_index_floor n lo hi Hn Hlh x Hx).
  pose proof (bin_floor_le n lo hi Hn Hlh x Hx).
  split_and!; [lia|apply (edge_le_floor n lo hi Hn Hlh x Hx); lia|].
  destruct (decide (bin_floor n lo hi x < n - 1)%nat); [left|right; lia].
  apply Qnot_le_lt. rewrite (edge_le_floor n lo hi Hn Hlh x Hx). lia.
Qed.

(** numpy's fast path for equal bins and its general method (a
    [searchsorted] among the edges, last bin closed) put every value of
    the range in the same bin. *)
Lemma bin_index_search (n : nat) (lo hi x : Q) :
  (0 < n)%nat → lo < hi → lo <= x <= hi → bin_index n lo hi x = bin_search n lo hi x.
Proof.
  intros Hn Hlh Hx.
  by rewrite (bin_index_floor n lo hi Hn Hlh x Hx), (bin_search_floor n lo hi Hn Hlh x Hx).
Qed.

(** The counts and the edges of [np.histogram]. *)
Lemma histogram_shape (n : nat) (xs : list Q) cs es :
  (0 < n)%nat → histogram n xs = Ok (cs, es) →
  length cs = n ∧ length es = S n ∧ list_sum cs = length xs.
Proof.
  intros Hn Hh. unfold histogram in Hh. destruct (Nat.eqb_spec n 0); [lia|].
  pose proof (outer_edges_spec xs) as [Hlh Hin].
  destruct (outer_edges xs) as [lo hi]. injection Hh as <- <-. simpl in Hlh, Hin.
  rewrite Forall_forall in Hin.
  rewrite filter_all_true by (intros x Hx; destruct (Hin x Hx);
    by apply andb_true_iff; rewrite !Qle_bool_iff).
  split_and!; [unfold bincount; by rewrite length_map, length_seq|
                unfold bin_edges; by rewrite length_map, length_seq|].
  rewrite bincount_sum, length_map; [done|]. apply Forall_map, Forall_forall.
  intros x Hx. rewrite (bin_index_floor n lo hi Hn Hlh x (Hin x Hx)). lia.
Qed.

(** [np.histogram] never raises for [n > 0]. *)
Lemma histogram_ok (n : nat) (xs : list Q) :
  (0 < n)%nat → ∃ cs es, histogram n xs = Ok (cs, es).
Proof.
  intros Hn. unfold histogram. destruct (Nat.eqb_spec n 0); [lia|].
  destruct (outer_edges xs). by do 2 eexists.
Qed.

(** [dropna()] on a column of numbers and NaN keeps its numbers. *)
Lemma hist_values_float (cs : list cell) :
  Forall float_cell cs →
  ∃ xs, hist_values cs = Ok xs ∧ length xs = length (filter (λ c, isnull c = false) cs).
Proof.
  intros Hfl. unfold hist_values.
  rewrite (mapM_result_map _ (λ c, match c with CNum q => [q] | _ => [] end)).
  - eexists. split; [reflexivity|]. simpl.
    induction Hfl as [|c cs Hc _ IH]; [done|]. rewrite filter_cons.
    destruct c as [t|q|]; [by destruct (Hc t)|..]; simpl; rewrite ?decide_True, ?decide_False by done;
      simpl; lia.
  - intros c Hc. rewrite Forall_forall in Hfl. destruct c as [t|q|]; [|done|done].
    by destruct (Hfl _ Hc t).
Qed.

(** C32: [Series.hist(bins=n)] (lines 184, 211, ...) on a column of
    numbers and NaN with [n > 0] raises nothing and returns [n] counts and
    [n + 1] edges whose counts add up to the number of non-missing values
    of the column: [dropna()] drops exactly the NaN cells and every
    number is counted once. *)
Theorem series_hist_counts (n : nat) (cs : list cell) :
  (0 < n)%nat → Forall float_cell cs →
  ∃ counts edges, series_hist n cs = Ok (counts, edges) ∧
    length counts = n ∧ length edges = S n ∧
    list_sum counts = length (filter (λ c, isnull c = false) cs).
Proof.
  intros Hn Hfl. destruct (hist_values_float cs Hfl) as (xs & Hxs & Hlen).
  destruct (histogram_ok n xs Hn) as (counts & edges & Hh).
  exists counts, edges. unfold series_hist. rewrite Hxs, Ok_bind, Hh.
  destruct (histogram_shape n xs counts edges Hn Hh) as (? & ? & ?). split_and!; congruence.
Qed.

(** C33: [np.histogram(values, bins=n)] with [n > 0] returns [n] counts
    and [n + 1] edges, and the counts add up to the number of values: no
    value is dropped or counted twice. *)
Theorem histogram_total (n : nat) (xs : list Q) cs es :
  (0 < n)%nat → histogram n xs = Ok (cs, es) →
  length cs = n ∧ length es = S n ∧ list_sum cs = length xs.
Proof. apply histogram_shape. Qed.

(** A column of one repeated value: the range is widened by 0.5 on each
    side and every value falls in the middle bin. *)
Example histogram_constant :
  histogram 8 [3; 3; 3] =
    Ok ([0; 0; 0; 0; 3; 0; 0; 0]%nat,
        map (bin_edge 8 (3 - (1 # 2)) (3 + (1 # 2))) (seq 0 9)).
Proof. vm_compute. reflexivity. Qed.

(** ** Witnesses *)

Lemma bin_index_bin_witness :
  (bin_index 8 0 4 (3 # 2) < 8)%nat ∧ bin_edge 8 0 4 (bin_index 8 0 4 (3 # 2)) <= 3 # 2 ∧
  (3 # 2 < bin_edge 8 0 4 (S (bin_index 8 0 4 (3 # 2))) ∨ bin_index 8 0 4 (3 # 2) = 7%nat).
Proof. apply bin_index_bin; [lia|reflexivity|split; discriminate]. Defined.

(** Six genre popularities. *)
Definition sample_popularity : list Q := [1; 5 # 2; 2; 1 # 5; 3; 5 # 4].

Definition sample_histogram : list nat * list Q :=
  match histogram 8 sample_popularity with Ok p => p | Err _ => ([], []) end.

Lemma histogram_total_witness :
  length sample_histogram.1 = 8%nat ∧ length sample_histogram.2 = 9%nat ∧
  list_sum sample_histogram.1 = length sample_popularity.
Proof. apply histogram_total; [lia|vm_compute; reflexivity]. Defined.

(** The popularity column of a [d] with a missing value. *)
Lemma series_hist_counts_witness :
  ∃ counts edges,
    series_hist 8 [CNum 1; CNum (5 # 2); CNaN; CNum (1 # 5)] = Ok (counts, edges) ∧
    length counts = 8%nat ∧ length edges = 9%nat ∧
    list_sum counts = length (filter (λ c, isnull c = false) [CNum 1; CNum (5 # 2); CNaN; CNum (1 # 5)]).
Proof. apply series_hist_counts; [lia|repeat constructor; intros t; discriminate]. Defined.

End Hist.
