(* ===== verification/Regression.v ===== *)
(** * The regression line of the report: [sns.regplot(..., ci=None)]

    Lines 199 and 226 draw a line of fit with [sns.regplot] ([ci=None],
    first order).  seaborn drops the rows where [x] or [y] is missing,
    solves the least-squares problem with the pseudo-inverse,
    [np.linalg.pinv(X).dot(y)] for [X = [1 | x]], and draws the fitted
    values on [np.linspace(x_min, x_max, 100)] over the range of the data;
    it fits only when at least two points are left.
    [ols_fit] is that solution written out: the normal-equation solution
    when [X] has full column rank, the minimum-norm solution when all [x]
    are equal, and zero when there are no points.  The theorems show that
    it is a least-squares line, that its slope has the sign of the
    covariance (the reading the notebook's conclusions rest on), and that
    in the rank-deficient case it is the least-squares solution of least
    norm, as the pseudo-inverse promises. *)

From Stdlib Require Import Lqa Psatz.
From S2P Require Import Prelude Frame Hist.
Import Hist.

Module Regression.
Local Open Scope Q_scope.

Definition sum_x (pts : list (Q * Q)) : Q := Qsum (map fst pts).
Definition sum_y (pts : list (Q * Q)) : Q := Qsum (map snd pts).
Definition sum_xx (pts : list (Q * Q)) : Q := Qsum (map (λ p, p.1 * p.1) pts).
Definition sum_xy (pts : list (Q * Q)) : Q := Qsum (map (λ p, p.1 * p.2) pts).

(** [det(X^T X)] for [X = [1 | x]]. *)
Definition gram_det (pts : list (Q * Q)) : Q :=
  Qnat (length pts) * sum_xx pts - sum_x pts * sum_x pts.

(** [np.linalg.pinv(X).dot(y)]: the intercept and the slope. *)
Definition ols_fit (pts : list (Q * Q)) : Q * Q :=
  let n := Qnat (length pts) in
  let sx := sum_x pts in
  let sy := sum_y pts in
  let det := gram_det pts in
  if Qeq_bool det 0 then
    if Nat.eqb (length pts) 0 then (0, 0)
    else
      let c := sx / n in
      let m := sy / n in
      (m / (1 + c * c), m * c / (1 + c * c))
  else ((sum_xx pts * sy - sx * sum_xy pts) / det, (n * sum_xy pts - sx * sy) / det).

Definition predict (fit : Q * Q) (x : Q) : Q := fit.1 + fit.2 * x.

Definition residual (fit : Q * Q) (p : Q * Q) : Q := p.2 - predict fit p.1.

(** The sum of squared residuals of a line. *)
Definition sse (fit : Q * Q) (pts : list (Q * Q)) : Q :=
  Qsum (map (λ p, residual fit p * residual fit p) pts).

(** The line drawn: [grid = np.linspace(x_min, x_max, 100)] over the range
    of the data and [yhat = grid.dot(coef)].  seaborn only fits when at
    least two points are left, so the points are given as a first point
    and the others. *)
Definition reg_line (p : Q * Q) (ps : list (Q * Q)) : list (Q * Q) :=
  let xmin := qmin p.1 (map fst ps) in
  let xmax := qmax p.1 (map fst ps) in
  let fit := ols_fit (p :: ps) in
  map (λ i, let g := xmin + (xmax - xmin) * Qnat i / 99 in (g, predict fit g)) (seq 0 100).

(** ** Sums of residuals *)

Section Sums.
Implicit Types (pts : list (Q * Q)) (a b : Q).

Lemma sum_residual pts a b :
  Qsum (map (residual (a, b)) pts) == sum_y pts - (Qnat (length pts) * a + b * sum_x pts).
Proof.
  unfold sum_y, sum_x, Qnat. unfold residual, predict; simpl.
  rewrite (Qsum_map_ext _ (λ p, p.2 + ((-1) * a + (- b) * p.1))) by (intros; ring).
  rewrite Qsum_map_plus, Qsum_map_plus, Qsum_map_const, Qsum_map_scale. ring.
Qed.

Lemma sum_x_residual pts a b :
  Qsum (map (λ p, p.1 * residual (a, b) p) pts) == sum_xy pts - (a * sum_x pts + b * sum_xx pts).
Proof.
  unfold sum_xy, sum_x, sum_xx. unfold residual, predict; simpl.
  rewrite (Qsum_map_ext _ (λ p, p.1 * p.2 + ((- a) * p.1 + (- b) * (p.1 * p.1))))
    by (intros; ring).
  rewrite Qsum_map_plus, Qsum_map_plus, !Qsum_map_scale. ring.
Qed.

(** The spread of [x] around its mean is the Gram determinant over [n]. *)
Lemma sum_sq_dev pts :
  (0 < length pts)%nat →
  Qsum (map (λ p, (p.1 - sum_x pts / Qnat (length pts)) * (p.1 - sum_x pts / Qnat (length pts))) pts)
    == gram_det pts / Qnat (length pts).
Proof.
  intros Hn. assert (0 < Qnat (length pts)).
  { unfold Qnat. change 0 with (inject_Z 0). rewrite <- Zlt_Qlt. lia. }
  set (c := sum_x pts / Qnat (length pts)).
  rewrite (Qsum_map_ext _ (λ p, p.1 * p.1 + ((-2 * c) * p.1 + c * c))) by (intros; ring).
  rewrite Qsum_map_plus, Qsum_map_plus, Qsum_map_scale, Qsum_map_const.
  unfold gram_det, c, sum_xx, sum_x, Qnat. fold (Qnat (length pts)).
  field. intro. lra.
Qed.

(** When the Gram determinant vanishes, every [x] is the mean. *)
Lemma gram_det_zero pts :
  (0 < length pts)%nat → gram_det pts == 0 →
  ∀ p, p ∈ pts → p.1 == sum_x pts / Qnat (length pts).
Proof.
  intros Hn Hdet p Hp.
  assert (Qsum (map (λ p, (p.1 - sum_x pts / Qnat (length pts)) *
                          (p.1 - sum_x pts / Qnat (length pts))) pts) == 0) as Hs.
  { rewrite sum_sq_dev by done. rewrite Hdet. unfold Qdiv. apply Qmult_0_l. }
  pose proof (Qsum_map_sq_zero (λ p, p.1 - sum_x pts / Qnat (length pts)) pts Hs p Hp) as H0.
  simpl in H0. lra.
Qed.

(** [ols_fit] solves the normal equations [X^T (y - X coef) = 0]: its
    residuals sum to zero and are orthogonal to [x], in every case. *)
Lemma ols_normal pts :
  Qsum (map (residual (ols_fit pts)) pts) == 0 ∧
  Qsum (map (λ p, p.1 * residual (ols_fit pts) p) pts) == 0.
Proof.
  destruct (ols_fit pts) as [a b] eqn:Hfit. rewrite sum_residual, sum_x_residual.
  unfold ols_fit in Hfit. destruct (Qeq_bool (gram_det pts) 0) eqn:Hdet.
  - apply Qeq_bool_iff in Hdet. destruct (Nat.eqb_spec (length pts) 0) as [Hn|Hn].
    + injection Hfit as <- <-. destruct pts; [|done]. split; reflexivity.
    + injection Hfit as <- <-.
      assert (0 < Qnat (length pts)).
      { unfold Qnat. change 0 with (inject_Z 0). rewrite <- Zlt_Qlt. lia. }
      pose proof (gram_det_zero pts ltac:(lia) Hdet) as Hc.
      set (c := sum_x pts / Qnat (length pts)) in *.
      assert (sum_xx pts == Qnat (length pts) * (c * c)) as Hxx.
      { unfold sum_xx. rewrite (Qsum_map_ext _ (λ _, c * c)), Qsum_map_const; [done|].
        intros p Hp. by rewrite (Hc p Hp). }
      assert (sum_xy pts == c * sum_y pts) as Hxy.
      { unfold sum_xy, sum_y. rewrite (Qsum_map_ext _ (λ p, c * p.2)), Qsum_map_scale; [done|].
        intros p Hp. by rewrite (Hc p Hp). }
      assert (0 < 1 + c * c) by (pose proof (Qsq_nonneg c); lra).
      assert (sum_x pts == c * Qnat (length pts)) as Hsx by (unfold c; field; intro; lra).
      clearbody c. rewrite Hxx, Hxy, Hsx. split; field; split; intro; lra.
  - apply Qeq_bool_neq in Hdet. injection Hfit as <- <-.
    unfold gram_det in *. split; field; exact Hdet.
Qed.

(** The squared error of any line is that of the fit, plus the squares of
    the differences of the two lines at each [x], plus cross terms that
    are multiples of the fit's normal equations. *)
Lemma sse_split pts fit a b :
  sse (a, b) pts ==
    sse fit pts +
    (Qsum (map (λ p, (fit.1 - a + (fit.2 - b) * p.1) * (fit.1 - a + (fit.2 - b) * p.1)) pts) +
     (2 * (fit.1 - a) * Qsum (map (residual fit) pts) +
      2 * (fit.2 - b) * Qsum (map (λ p, p.1 * residual fit p) pts))).
Proof.
  unfold sse. rewrite <- !Qsum_map_scale, <- !Qsum_map_plus.
  apply Qsum_map_ext. intros p _. unfold residual, predict. simpl. ring.
Qed.

(** The squared error is non-negative. *)
Lemma sum_sq_nonneg pts (f : Q * Q → Q) : 0 <= Qsum (map (λ p, f p * f p) pts).
Proof. apply Qsum_map_nonneg. intros. apply Qsq_nonneg. Qed.

(** The Gram determinant is never negative. *)
Lemma gram_det_nonneg pts : 0 <= gram_det pts.
Proof.
  destruct (decide (length pts = 0%nat)) as [Hn|Hn].
  - destruct pts; [|done]. apply Qle_refl.
  - assert (0 < Qnat (length pts)).
    { unfold Qnat. change 0 with (inject_Z 0). rewrite <- Zlt_Qlt. lia. }
    pose proof (sum_sq_dev pts ltac:(lia)) as Hs.
    pose proof (sum_sq_nonneg pts (λ p, p.1 - sum_x pts / Qnat (length pts))) as H0.
    simpl in H0. rewrite Hs in H0.
    setoid_replace (gram_det pts) with (gram_det pts / Qnat (length pts) * Qnat (length pts))
      using relation Qeq by (field; intro; lra).
    apply Qmult_le_0_compat; [done|lra].
Qed.
End Sums.

(** A line through [m] at [c] has at least the norm of the one [pinv]
    picks. *)
Lemma min_norm_line a b c m :
  a + b * c == m →
  (m / (1 + c * c)) * (m / (1 + c * c)) + (m * c / (1 + c * c)) * (m * c / (1 + c * c))
    <= a * a + b * b.
Proof.
  intros Hm. assert (0 < 1 + c * c) by (pose proof (Qsq_nonneg c); lra).
  setoid_replace ((m / (1 + c * c)) * (m / (1 + c * c)) + (m * c / (1 + c * c)) * (m * c / (1 + c * c)))
    with (m * m / (1 + c * c)) using relation Qeq by (field; intro; lra).
  apply Qle_shift_div_r; [done|]. rewrite <- Hm. apply Qle_minus_iff.
  setoid_replace ((a * a + b * b) * (1 + c * c) + - ((a + b * c) * (a + b * c)))
    with ((a * c - b) * (a * c - b)) using relation Qeq by ring.
  apply Qsq_nonneg.
Qed.

(** ** Properties *)

(** C34: the line [regplot] draws is a least-squares line: no line has a
    smaller sum of squared residuals over the plotted points. *)
Theorem ols_least_squares (pts : list (Q * Q)) (a b : Q) :
  sse (ols_fit pts) pts <= sse (a, b) pts.
Proof.
  rewrite (sse_split pts (ols_fit pts) a b).
  destruct (ols_normal pts) as [H1 H2]. rewrite H1, H2.
  pose proof (sum_sq_nonneg pts (λ p, (ols_fit pts).1 - a + ((ols_fit pts).2 - b) * p.1)).
  simpl in *. lra.
Qed.

(** C35: when the [x] are not all equal, the fitted slope is positive
    exactly when the covariance of [x] and [y] is: the line rises exactly
    when the data are positively correlated, the reading the notebook gives
    the plots of lines 198-199 and 225-226. *)
Theorem ols_slope_sign (pts : list (Q * Q)) :
  ¬ gram_det pts == 0 →
  (0 < (ols_fit pts).2 ↔ 0 < Qnat (length pts) * sum_xy pts - sum_x pts * sum_y pts).
Proof.
  intros Hdet. pose proof (gram_det_nonneg pts) as Hnn.
  assert (0 < gram_det pts) as Hpos.
  { destruct (Qle_lt_or_eq _ _ Hnn) as [|Heq]; [done|]. by destruct Hdet. }
  unfold ols_fit. destruct (Qeq_bool (gram_det pts) 0) eqn:E.
  { apply Qeq_bool_iff in E. by destruct Hdet. }
  simpl. split; intros H.
  - setoid_replace (Qnat (length pts) * sum_xy pts - sum_x pts * sum_y pts)
      with ((Qnat (length pts) * sum_xy pts - sum_x pts * sum_y pts) / gram_det pts * gram_det pts)
      using relation Qeq by (field; exact Hdet).
    by apply Qmult_lt_0_compat.
  - apply Qlt_shift_div_l; [done|]. by rewrite Qmult_0_l.
Qed.

(** C36: when all [x] are equal ([X] has rank one), the line [regplot]
    draws is, among all least-squares lines, the one whose coefficients
    have the least norm, as [np.linalg.pinv] promises. *)
Theorem ols_min_norm (pts : list (Q * Q)) (c a b : Q) :
  pts ≠ [] → Forall (λ p, p.1 == c) pts →
  sse (a, b) pts == sse (ols_fit pts) pts →
  (ols_fit pts).1 * (ols_fit pts).1 + (ols_fit pts).2 * (ols_fit pts).2 <= a * a + b * b.
Proof.
  intros Hne Hc Hsse. rewrite Forall_forall in Hc.
  assert (0 < length pts)%nat by (destruct pts; [done|simpl; lia]).
  assert (0 < Qnat (length pts)).
  { unfold Qnat. change 0 with (inject_Z 0). rewrite <- Zlt_Qlt. lia. }
  assert (sum_x pts == Qnat (length pts) * c) as Hx.
  { unfold sum_x. rewrite (Qsum_map_ext _ (λ _, c)), Qsum_map_const; [done|]. apply Hc. }
  assert (sum_xx pts == Qnat (length pts) * (c * c)) as Hxx.
  { unfold sum_xx. rewrite (Qsum_map_ext _ (λ _, c * c)), Qsum_map_const; [done|].
    intros p Hp. by rewrite (Hc p Hp). }
  (* the two lines agree at [c] *)
  rewrite (sse_split pts (ols_fit pts) a b) in Hsse.
  destruct (ols_normal pts) as [H1 H2]. rewrite H1, H2 in Hsse.
  set (f := ols_fit pts) in *.
  assert (Qsum (map (λ p, (f.1 - a + (f.2 - b) * p.1) * (f.1 - a + (f.2 - b) * p.1)) pts) == 0)
    as Hz by (pose proof (sum_sq_nonneg pts (λ p, f.1 - a + (f.2 - b) * p.1)); simpl in *; lra).
  destruct pts as [|p0 ps]; [done|].
  pose proof (Qsum_map_sq_zero (λ p, f.1 - a + (f.2 - b) * p.1) _ Hz p0 (list_elem_of_here _ _))
    as Hp0.
  simpl in Hp0. rewrite (Hc p0 (list_elem_of_here _ _)) in Hp0.
  (* the fit is the rank-one branch of [pinv] *)
  assert (gram_det (p0 :: ps) == 0) as Hdet.
  { unfold gram_det. rewrite Hx, Hxx. ring. }
  unfold f, ols_fit in *. rewrite (proj2 (Qeq_bool_iff _ _) Hdet) in *. simpl in *.
  set (m := sum_y (p0 :: ps) / Qnat (S (length ps))) in *.
  assert (sum_x (p0 :: ps) / Qnat (S (length ps)) == c) as Hc' by (rewrite Hx; field; intro; lra).
  rewrite Hc' in Hp0 |- *. apply (min_norm_line a b c m).
  assert (0 < 1 + c * c) by (pose proof (Qsq_nonneg c); lra).
  setoid_replace m with (m / (1 + c * c) + m * c / (1 + c * c) * c)
    using relation Qeq by (field; intro; lra).
  lra.
Qed.

(** ** Witnesses *)

(** Four genres' mean adjusted budgets (in tens of millions) and mean
    popularities. *)
Definition sample_budget_popularity : list (Q * Q) :=
  [(2, 1); (5, 3 # 2); (7, 5 # 2); (1, 1 # 5)].

Lemma ols_slope_sign_witness :
  0 < (ols_fit sample_budget_popularity).2 ↔
  0 < Qnat (length sample_budget_popularity) * sum_xy sample_budget_popularity -
      sum_x sample_budget_popularity * sum_y sample_budget_popularity.
Proof. apply ols_slope_sign. vm_compute. discriminate. Defined.

Lemma ols_min_norm_witness :
  (ols_fit [(3, 1); (3, 2)]).1 * (ols_fit [(3, 1); (3, 2)]).1 +
  (ols_fit [(3, 1); (3, 2)]).2 * (ols_fit [(3, 1); (3, 2)]).2 <= (3 # 2) * (3 # 2) + 0 * 0.
Proof.
  apply (ols_min_norm _ 3); [done|repeat constructor|vm_compute; reflexivity].
Defined.

End Regression.
