(* ===== verification/Plot.v ===== *)
(** * The figures of the report (lines 164-319)

    Each plotting cell works on matplotlib's pyplot state: the open
    figures (each of the report's figures has one axes) and the current
    one.  [plt.gca()] returns the current axes, creating a figure when
    there is none; [plt.title], [plt.xlabel] and [plt.ylabel] set the text
    of [plt.gca()].  seaborn's [barplot] draws on [plt.gca()], [lmplot]
    creates a new figure (a one-axes [FacetGrid]) and [regplot(ax=...)]
    draws on the axes it is given, turning the fit off when at most one
    point is left; pandas' [Series.hist] draws on the
    current figure, or on a new one.  With the notebook's inline backend
    the figures of a cell are shown when the cell ends and then closed, so
    every cell starts without figures and its output is the list of the
    figures it drew.  Only the content of the figures is modelled (the
    artists' data, titles, labels, tick labels and their rotation), not
    their rendering: colours, sizes, legends, grids and error bars are
    not. *)

From S2P Require Import Prelude Frame Aggregate Hist Regression.
Import Aggregate Hist Regression.

Module Plot.

(** ** Axes and the pyplot state *)

(** What an axes holds. *)
Inductive artist :=
| Bars (labels : list cell) (heights : list cell)   (* [sns.barplot] *)
| HistBars (counts : list nat) (edges : list Q)      (* [ax.hist] *)
| Scatter (hue : cell) (points : list (Q * Q))       (* one hue level of [sns.lmplot] *)
| FitLine (points : list (Q * Q)).                   (* [sns.regplot(scatter=False)] *)

Record axes := mk_axes {
  ax_title : string;
  ax_xlabel : string;
  ax_ylabel : string;
  ax_xticks : list cell;
  ax_xtick_rotation : Z;
  ax_artists : list artist
}.

Definition empty_axes : axes := mk_axes "" "" "" [] 0 [].

Definition set_title (t : string) (a : axes) : axes :=
  mk_axes t (ax_xlabel a) (ax_ylabel a) (ax_xticks a) (ax_xtick_rotation a) (ax_artists a).
Definition set_xlabel (t : string) (a : axes) : axes :=
  mk_axes (ax_title a) t (ax_ylabel a) (ax_xticks a) (ax_xtick_rotation a) (ax_artists a).
Definition set_ylabel (t : string) (a : axes) : axes :=
  mk_axes (ax_title a) (ax_xlabel a) t (ax_xticks a) (ax_xtick_rotation a) (ax_artists a).
Definition set_xticks (ts : list cell) (rot : Z) (a : axes) : axes :=
  mk_axes (ax_title a) (ax_xlabel a) (ax_ylabel a) ts rot (ax_artists a).
Definition add_artist (x : artist) (a : axes) : axes :=
  mk_axes (ax_title a) (ax_xlabel a) (ax_ylabel a) (ax_xticks a) (ax_xtick_rotation a)
          (ax_artists a ++ [x]).

(** The open figures, in creation order, and the current one. *)
Record pyplot := mk_pyplot {
  figures : list axes;
  current : option nat
}.

(** A cell starts with no open figure. *)
Definition no_figures : pyplot := mk_pyplot [] None.

(** [plt.figure()]: a new figure becomes current. *)
Definition new_figure (st : pyplot) : pyplot * nat :=
  (mk_pyplot (figures st ++ [empty_axes]) (Some (length (figures st))), length (figures st)).

(** [plt.gca()]. *)
Definition gca (st : pyplot) : pyplot * nat :=
  match current st with Some i => (st, i) | None => new_figure st end.

Definition modify_axes (i : nat) (f : axes → axes) (st : pyplot) : pyplot :=
  mk_pyplot (alter f i (figures st)) (current st).

(** [plt.title(t)], [plt.xlabel(t)], [plt.ylabel(t)]: on [plt.gca()]. *)
Definition plt_title (t : string) (st : pyplot) : pyplot :=
  let '(st', i) := gca st in modify_axes i (set_title t) st'.
Definition plt_xlabel (t : string) (st : pyplot) : pyplot :=
  let '(st', i) := gca st in modify_axes i (set_xlabel t) st'.
Definition plt_ylabel (t : string) (st : pyplot) : pyplot :=
  let '(st', i) := gca st in modify_axes i (set_ylabel t) st'.

(** ** seaborn and pandas plotting *)

(** [data[name]] for seaborn: a name that is not a column raises. *)
Definition sns_column (d : frame nat) (name : string) : result (list cell) :=
  match col_index name (columns d) with
  | Some i => Ok (map (λ r, r.2 !!! i) (rows d))
  | None => raise (ValueError ("Could not interpret value `" +:+ name +:+ "` for parameter"))
  end.

(** The levels of a categorical variable, seaborn's [categorical_order]:
    the distinct non-missing values in order of appearance, sorted when
    they are all numbers. *)
Definition uniq_step (acc : list cell) (c : cell) : list cell :=
  if isnull c then acc else if decide (Exists (λ c', c' ≡ c) acc) then acc else acc ++ [c].

Definition unique_in_order (cs : list cell) : list cell := foldl uniq_step [] cs.

Definition categorical_order (cs : list cell) : list cell :=
  if forallb (λ c, match c with CNum _ | CNaN => true | CStr _ => false end) cs
  then group_keys cs else unique_in_order cs.

(** The [(x, y)] points of two columns, rows with a missing value
    dropped; a string cannot be placed on a numeric axis. *)
Definition xy_points (xs ys : list cell) : result (list (Q * Q)) :=
  mapM (λ p, match p with
             | (CNum x, CNum y) => Ok [(x, y)]
             | (CStr _, _) | (_, CStr _) => raise (TypeError "unsupported operand type(s)")
             | _ => Ok []
             end) (zip xs ys) ≫= λ pss, mret (concat pss).

(** [sns.barplot(data=d, x=x, y=y)]: on [plt.gca()], one bar per level of
    [x], of height the mean of [y] over the rows of that level; the tick
    labels are the levels and the axes are labelled with the column names. *)
Definition barplot (d : frame nat) (x y : string) (st : pyplot) : result (pyplot * nat) :=
  xs ← sns_column d x;
  ys ← sns_column d y;
  let '(st', i) := gca st in
  let levels := categorical_order xs in
  heights ← mapM (λ k, mean (omap (λ p, if decide (p.1 ≡ k) then Some p.2 else None) (zip xs ys)))
                 levels;
  mret (modify_axes i (λ a, set_ylabel y (set_xlabel x (set_xticks levels 0
                              (add_artist (Bars levels heights) a)))) st', i).

(** [Series.hist(bins=n)]: on the current figure, or a new one. *)
Definition hist_plot (n : nat) (cs : list cell) (st : pyplot) : result (pyplot * nat) :=
  let '(st', i) := gca st in
  '(counts, edges) ← series_hist n cs;
  mret (modify_axes i (add_artist (HistBars counts edges)) st', i).

(** The [(x, y)] values of the rows whose [hue] is the level [k]. *)
Definition hue_select (hs xs ys : list cell) (k : cell) : list (cell * cell) :=
  omap (λ t, if decide (t.1 ≡ k) then Some t.2 else None) (zip hs (zip xs ys)).

(** [sns.lmplot(data=d, x=x, y=y, hue=hue, fit_reg=False)]: a new figure
    with one scatter per level of [hue], labelled with the column names. *)
Definition lmplot (d : frame nat) (x y hue : string) (st : pyplot) : result (pyplot * nat) :=
  xs ← sns_column d x;
  ys ← sns_column d y;
  hs ← sns_column d hue;
  let '(st', i) := new_figure st in
  scatters ← mapM (λ k,
      let sel := hue_select hs xs ys k in
      pts ← xy_points (map fst sel) (map snd sel); mret (Scatter k pts))
    (categorical_order hs);
  mret (modify_axes i (λ a, set_ylabel y (set_xlabel x
          (foldl (λ a s, add_artist s a) a scatters))) st', i).

(** The line [regplot] draws on the points left after dropping missing
    values: none when at most one is left, as seaborn turns the fit off
    ([if len(self.x) <= 1: self.fit_reg = False]). *)
Definition fit_artists (pts : list (Q * Q)) : list artist :=
  match pts with
  | p :: ((_ :: _) as ps) => [FitLine (reg_line p ps)]
  | _ => []
  end.

(** [sns.regplot(data=d, x=x, y=y, scatter=False, ax=ax, ci=None)]: the
    line of fit on the given axes, which it labels with the column names
    whether or not it draws a line. *)
Definition regplot (d : frame nat) (x y : string) (ax : nat) (st : pyplot) : result pyplot :=
  xs ← sns_column d x;
  ys ← sns_column d y;
  pts ← xy_points xs ys;
  mret (modify_axes ax (λ a, set_ylabel y (set_xlabel x
          (foldl (λ a s, add_artist s a) a (fit_artists pts)))) st).

(** ** The report cells *)

Inductive report_cell :=
| BarCell                                                         (* lines 164-169 *)
| HistCell (col : string) (bins : nat) (title xlabel ylabel : string)  (* 184, 211, ... *)
| LmCell (x : string) (fit : bool) (title xlabel ylabel : string).     (* 198, 225, ... *)

(** One cell on [d], from no open figure to the figures it shows. *)
Definition run_report (rc : report_cell) (d : frame nat) : result (list axes) :=
  match rc with
  | BarCell =>
      '(st, g) ← barplot d "genre" "popularity" no_figures;
      (* g.set_xticklabels(g.get_xticklabels(), rotation=90) *)
      let st := modify_axes g (λ a, set_xticks (ax_xticks a) 90 a) st in
      let '(st, ax) := gca st in
      let st := modify_axes ax (set_title "Average Popularity of Genres") st in
      let st := plt_xlabel "Genre" st in
      let st := plt_ylabel "Popularity" st in
      mret (figures st)
  | HistCell col n t xl yl =>
      s ← get_attr d col;
      '(st, _) ← hist_plot n (map snd (sdata s)) no_figures;
      let st := plt_ylabel yl (plt_xlabel xl (plt_title t st)) in
      mret (figures st)
  | LmCell x fit t xl yl =>
      '(st, g) ← lmplot d x "popularity" "genre" no_figures;
      st ← (if fit then regplot d x "popularity" g st else mret st);
      let '(st, ax) := gca st in
      let st := modify_axes ax (set_title t) st in
      let st := plt_ylabel yl (plt_xlabel xl st) in
      mret (figures st)
  end.

(** ** Lemmas *)

Lemma foldl_add_artist (a : axes) (ss : list artist) :
  foldl (λ a s, add_artist s a) a ss =
    mk_axes (ax_title a) (ax_xlabel a) (ax_ylabel a) (ax_xticks a) (ax_xtick_rotation a)
            (ax_artists a ++ ss).
Proof.
  revert a. induction ss as [|s ss IH]; intros a; simpl.
  - destruct a; simpl. by rewrite app_nil_r.
  - rewrite IH. simpl. by rewrite <- app_assoc.
Qed.

Definition str_cell (c : cell) : Prop := ∃ s, c = CStr s.

Lemma equiv_str c s : c ≡ CStr s ↔ c = CStr s.
Proof.
  destruct c as [t|q|]; unfold equiv, cell_equiv; simpl; [|done|done].
  rewrite bool_decide_eq_true. naive_solver.
Qed.

(** Distinct strings are their own levels, in order. *)
Lemma unique_in_order_strs acc cs :
  Forall str_cell cs → NoDup (acc ++ cs) → foldl uniq_step acc cs = acc ++ cs.
Proof.
  revert acc. induction cs as [|c cs IH]; intros acc Hs Hnd; simpl; [by rewrite app_nil_r|].
  apply Forall_cons in Hs as [[s ->] Hs]. unfold uniq_step at 2. simpl.
  rewrite decide_False.
  - rewrite IH, <- app_assoc; [done|done|by rewrite <- app_assoc].
  - intros (c' & Hc' & ->%equiv_str)%Exists_exists.
    apply NoDup_app in Hnd as (_ & Hdis & _). by apply (Hdis _ Hc'), list_elem_of_here.
Qed.

Lemma categorical_order_strs cs : Forall str_cell cs → NoDup cs → categorical_order cs = cs.
Proof.
  intros Hs Hnd. destruct cs as [|c cs]; [done|].
  unfold categorical_order. inversion Hs as [|? ? [s ->] _]; subst. simpl.
  apply (unique_in_order_strs [] (CStr s :: cs)); done.
Qed.

Lemma omap_none {A B} (f : A → option B) (l : list A) : (∀ x, x ∈ l → f x = None) → omap f l = [].
Proof.
  induction l as [|x l IH]; intros H; [done|]. simpl. rewrite H by by left.
  apply IH. intros y Hy. apply H. by right.
Qed.

(** Among distinct strings, a level selects the one value paired with it. *)
Lemma select_unique (gs ps : list cell) k v :
  Forall str_cell gs → NoDup gs → (k, v) ∈ zip gs ps →
  omap (λ p, if decide (p.1 ≡ k) then Some p.2 else None) (zip gs ps) = [v].
Proof.
  revert ps. induction gs as [|g gs IH]; intros [|p ps] Hs Hnd Hin;
    try by apply not_elem_of_nil in Hin.
  apply Forall_cons in Hs as [[s ->] Hs]. apply NoDup_cons in Hnd as [Hg Hnd].
  simpl. apply elem_of_cons in Hin as [[= -> ->]|Hin].
  - rewrite decide_True by done. f_equal. apply omap_none.
    intros [g' p'] Hin'%elem_of_zip_l. simpl. rewrite decide_False; [done|].
    intros ->%equiv_str. by apply Hg.
  - pose proof (elem_of_zip_l _ _ _ _ Hin) as Hk.
    rewrite decide_False; [by apply IH|].
    rewrite Forall_forall in Hs. destruct (Hs k Hk) as [t ->].
    intros [= ->]%equiv_str. by apply Hg.
Qed.

Lemma Forall2_zip_map {A B C} (P : A → C → Prop) (g : B → C) (l1 : list A) (l2 : list B) :
  length l1 = length l2 → Forall (λ p, P p.1 (g p.2)) (zip l1 l2) → Forall2 P l1 (map g l2).
Proof.
  revert l2. induction l1 as [|x l1 IH]; intros [|y l2] Hlen HF; try done.
  simpl in *. apply Forall_cons in HF as [Hxy HF]. constructor; [done|]. apply IH; [lia|done].
Qed.

(** The height of a bar over one value. *)
Definition single_mean (c : cell) : cell :=
  match nums [c] with [] => CNaN | qs => CNum (Qsum qs / inject_Z (Z.of_nat (length qs))) end.

Lemma single_mean_equiv c : float_cell c → single_mean c ≡ c.
Proof.
  intros Hc. destruct c as [s|q|]; [by destruct (Hc s)| |done].
  unfold single_mean. simpl. apply cell_equiv_CNum. unfold Qsum. simpl. field.
Qed.

Lemma bar_heights (gs ps : list cell) :
  Forall str_cell gs → NoDup gs → length gs = length ps → Forall float_cell ps →
  mapM (λ k, mean (omap (λ p, if decide (p.1 ≡ k) then Some p.2 else None) (zip gs ps))) gs =
    Ok (map single_mean ps).
Proof.
  intros Hs Hnd Hlen Hfl. apply mapM_result_Ok, Forall2_zip_map; [done|].
  apply Forall_forall. intros [k v] Hin. simpl.
  rewrite (select_unique gs ps k v) by done. rewrite mean_ok; [done|].
  intros t Ht%list_elem_of_singleton. rewrite Forall_forall in Hfl.
  exact (Hfl v (elem_of_zip_r _ _ _ _ Hin) t (eq_sym Ht)).
Qed.

(** Two columns without strings give their points; at most one per row. *)
Lemma xy_points_float xs ys :
  Forall float_cell xs → Forall float_cell ys →
  ∃ pts, xy_points xs ys = Ok pts ∧ length pts ≤ length xs.
Proof.
  intros Hx Hy. unfold xy_points.
  rewrite (mapM_result_map _ (λ p, match p with (CNum a, CNum b) => [(a, b)] | _ => [] end)).
  - eexists. split; [reflexivity|]. cbn.
    assert (∀ l : list (cell * cell),
      length (concat (map (λ p, match p with (CNum a, CNum b) => [(a, b)] | _ => [] end) l))
      ≤ length l) as Hlen.
    { induction l as [|[[] []] l IH]; simpl; lia. }
    etrans; [apply Hlen|]. rewrite length_zip. lia.
  - intros [a b] Hab. rewrite Forall_forall in Hx, Hy.
    pose proof (Hx a (elem_of_zip_l _ _ _ _ Hab)) as Ha.
    pose proof (Hy b (elem_of_zip_r _ _ _ _ Hab)) as Hb.
    destruct a as [sa| |], b as [sb| |]; try done;
      first [by destruct (Ha _ eq_refl) | by destruct (Hb _ eq_refl)].
Qed.

(** The values of a hue level are values of the columns. *)
Lemma hue_select_elem hs xs ys k a b :
  (a, b) ∈ hue_select hs xs ys k → a ∈ xs ∧ b ∈ ys.
Proof.
  unfold hue_select. intros ([h [a' b']] & Ht & Hsel)%list_elem_of_omap. simpl in Hsel.
  case_decide; [|done]. injection Hsel as <- <-. apply elem_of_zip_r in Ht. split; [eapply elem_of_zip_l|eapply elem_of_zip_r]; exact Ht.
Qed.

Lemma lm_scatters hs xs ys scatters :
  mapM (λ k, let sel := hue_select hs xs ys k in
             pts ← xy_points (map fst sel) (map snd sel); mret (Scatter k pts))
       (categorical_order hs) = Ok scatters →
  Forall2 (λ k s, ∃ pk, xy_points (map fst (hue_select hs xs ys k))
                                  (map snd (hue_select hs xs ys k)) = Ok pk ∧ s = Scatter k pk)
          (categorical_order hs) scatters.
Proof.
  intros Hm%mapM_result_Ok. eapply Forall2_impl; [exact Hm|]. intros k s Hk.
  cbv zeta in Hk. apply bind_Ok in Hk as (pk & Hpk & Hs). injection Hs as <-. eauto.
Qed.

(** ** Properties *)

(** C37: a scatter-and-fit cell (lines 198-203, 225-230) that runs shows
    exactly one figure: the one [lmplot] created, holding one scatter per
    genre with the [(x, popularity)] points of that genre's rows, then,
    when at least two points are left after dropping missing values, the
    line of fit of all of them (with one point or none seaborn turns the
    fit off), and carrying the title and the labels the cell sets.  The
    line and the titles land on the same axes because [g.axes[0, 0]] and
    [plt.gca()] are the same axes. *)
Theorem lm_cell_figure (d : frame nat) x t xl yl figs :
  run_report (LmCell x true t xl yl) d = Ok figs →
  ∃ xs ys hs pts scatters,
    sns_column d x = Ok xs ∧ sns_column d "popularity" = Ok ys ∧ sns_column d "genre" = Ok hs ∧
    Forall2 (λ k s, ∃ pk, xy_points (map fst (hue_select hs xs ys k))
                                    (map snd (hue_select hs xs ys k)) = Ok pk ∧ s = Scatter k pk)
            (categorical_order hs) scatters ∧
    xy_points xs ys = Ok pts ∧
    (∀ p ps, pts = p :: ps → ps ≠ [] →
       figs = [mk_axes t xl yl [] 0 (scatters ++ [FitLine (reg_line p ps)])]) ∧
    (length pts ≤ 1 → figs = [mk_axes t xl yl [] 0 scatters]).
Proof.
  intros Hrun. unfold run_report, lmplot, regplot in Hrun.
  destruct (sns_column d x) as [xs|] eqn:Hx; [|done].
  destruct (sns_column d "popularity") as [ys|] eqn:Hy; [|done].
  destruct (sns_column d "genre") as [hs|] eqn:Hh; [|done]. simpl in Hrun.
  destruct (mapM _ _) as [scatters|] eqn:Hsc; [|done]. simpl in Hrun.
  destruct (xy_points xs ys) as [pts|] eqn:Hpts; [|done]. simpl in Hrun.
  injection Hrun as <-. exists xs, ys, hs, pts, scatters.
  split_and!; try done; [by apply lm_scatters| |].
  - intros p ps -> Hps. destruct ps; [by destruct Hps|]. rewrite !foldl_add_artist. reflexivity.
  - intros Hlen. rewrite !foldl_add_artist. simpl.
    destruct pts as [|p [|q ps]]; simpl in *; [..|lia]; by rewrite app_nil_r.
Qed.

(** C38: on a [d] whose genres are distinct strings and whose
    popularities are numbers or NaN, the bar cell (lines 164-169) runs and
    shows one figure: one bar per row of [d], in the order of [d], with the
    genre as tick label (rotated by 90 degrees) and the popularity as
    height, titled "Average Popularity of Genres" and labelled "Genre" and
    "Popularity". *)
Theorem bar_cell_figure (d : frame nat) gi pi :
  col_index "genre" (columns d) = Some gi → col_index "popularity" (columns d) = Some pi →
  Forall (λ r, str_cell (r.2 !!! gi)) (rows d) → NoDup (map (λ r, r.2 !!! gi) (rows d)) →
  Forall (λ r, float_cell (r.2 !!! pi)) (rows d) →
  ∃ heights,
    run_report BarCell d =
      Ok [mk_axes "Average Popularity of Genres" "Genre" "Popularity"
                  (map (λ r, r.2 !!! gi) (rows d)) 90
                  [Bars (map (λ r, r.2 !!! gi) (rows d)) heights]] ∧
    Forall2 (≡) heights (map (λ r, r.2 !!! pi) (rows d)).
Proof.
  intros Hg Hp Hstr Hnd Hfl. exists (map single_mean (map (λ r, r.2 !!! pi) (rows d))). split.
  - unfold run_report, barplot, sns_column. rewrite Hg, Hp. cbn [mbind result_bind].
    rewrite categorical_order_strs by (done || by apply Forall_map).
    rewrite bar_heights by (done || by apply Forall_map || by rewrite !length_map).
    reflexivity.
  - apply Forall2_fmap_l, Forall_Forall2_diag, Forall_map.
    eapply Forall_impl; [exact Hfl|]. intros r. apply single_mean_equiv.
Qed.

(** C39: a histogram cell (lines 184-187, 211-214, ...) that runs shows
    exactly one figure, carrying the title and labels the cell sets and
    the bars of [np.histogram] over the column's non-missing values. *)
Theorem hist_cell_figure (d : frame nat) col n t xl yl figs :
  run_report (HistCell col n t xl yl) d = Ok figs →
  ∃ s counts edges,
    get_attr d col = Ok s ∧ series_hist n (map snd (sdata s)) = Ok (counts, edges) ∧
    figs = [mk_axes t xl yl [] 0 [HistBars counts edges]].
Proof.
  intros Hrun. unfold run_report, hist_plot in Hrun.
  destruct (get_attr d col) as [s|]; [|done]. simpl in Hrun.
  destruct (series_hist n _) as [[counts edges]|] eqn:Hh; [|done]. simpl in Hrun.
  injection Hrun as <-. by exists s, counts, edges.
Qed.

(** C40: when at most one genre is left in [d] (e.g. when the filter of
    line 100 keeps no movie, or only movies of one genre), a
    scatter-and-fit cell (lines 198-199, 225-226) on numeric columns raises
    nothing and draws no line of fit: seaborn's [regplot] turns the fit off
    for fewer than two points, so the figure holds the scatters of
    [lmplot] only. *)
Theorem lm_cell_no_line (d : frame nat) x t xl yl xi pi :
  length (rows d) ≤ 1 →
  col_index x (columns d) = Some xi → col_index "popularity" (columns d) = Some pi →
  "genre" ∈ columns d →
  Forall (λ r, float_cell (r.2 !!! xi) ∧ float_cell (r.2 !!! pi)) (rows d) →
  ∃ scatters, run_report (LmCell x true t xl yl) d = Ok [mk_axes t xl yl [] 0 scatters] ∧
    Forall (λ s, ∃ k pk, s = Scatter k pk) scatters.
Proof.
  intros Hlen Hxi Hpi Hg Hfl.
  destruct (col_index "genre" (columns d)) as [gi|] eqn:Hgi; [|by apply col_index_None in Hgi].
  assert (Forall float_cell (map (λ r, r.2 !!! xi) (rows d)) ∧
          Forall float_cell (map (λ r, r.2 !!! pi) (rows d))) as [Hfx Hfy].
  { split; apply Forall_map; (eapply Forall_impl; [exact Hfl|]); by intros r [? ?]. }
  set (xs := map (λ r, r.2 !!! xi) (rows d)) in *.
  set (ys := map (λ r, r.2 !!! pi) (rows d)) in *.
  set (hs := map (λ r, r.2 !!! gi) (rows d)).
  destruct (mapM_result_total (λ k, let sel := hue_select hs xs ys k in
             pts ← xy_points (map fst sel) (map snd sel); mret (Scatter k pts))
             (categorical_order hs)) as [scatters Hsc].
  { intros k _. cbv zeta.
    destruct (xy_points_float (map fst (hue_select hs xs ys k)) (map snd (hue_select hs xs ys k)))
      as (pk & -> & _).
    1,2: apply Forall_forall; intros c ([a b] & -> & Hab)%elem_of_map;
         apply hue_select_elem in Hab as [Ha Hb]; rewrite Forall_forall in Hfx, Hfy; auto.
    by eexists. }
  destruct (xy_points_float xs ys Hfx Hfy) as (pts & Hpts & Hplen).
  exists scatters. split.
  - unfold run_report, lmplot, regplot, sns_column. rewrite Hxi, Hpi, Hgi. simpl.
    fold xs ys hs. cbv zeta in Hsc. rewrite Hsc. simpl. rewrite Hpts. simpl. rewrite !foldl_add_artist.
    unfold xs in Hplen. rewrite length_map in Hplen.
    destruct pts as [|p [|q ps]]; simpl in *; [| |lia]; by rewrite app_nil_r.
  - apply lm_scatters in Hsc. eapply Forall2_Forall_r; [exact Hsc|].
    apply Forall_forall. intros k _ s (pk & _ & ->). eauto.
Qed.

(** ** Witnesses *)

(** A [d] of three genres: [genre_data.reset_index()]. *)
Definition sample_d : frame nat :=
  mk_frame ("genre" :: aggregate_columns)
    [(0, [CStr "Action"; CNum 30; CNum (5 # 2); CNum 90; CNum 110; CNum 2005; CNum 6]);
     (1, [CStr "Foreign"; CNum 1; CNum (1 # 5); CNum 2; CNum 100; CNum 2001; CNum 6]);
     (2, [CStr "Science Fiction"; CNum 40; CNum 3; CNum 120; CNum 115; CNum 2008; CNum 7])].

Definition budget_cell : report_cell :=
  LmCell "budget_adj" true "Average Adjusted Budget of Genres vs Average Popularity of Genres"
         "Adjusted Budget" "Popularity".

Definition sample_lm_figures : list axes :=
  match run_report budget_cell sample_d with Ok f => f | Err _ => [] end.

Lemma lm_cell_figure_witness :
  ∃ xs ys hs pts scatters,
    sns_column sample_d "budget_adj" = Ok xs ∧ sns_column sample_d "popularity" = Ok ys ∧
    sns_column sample_d "genre" = Ok hs ∧
    Forall2 (λ k s, ∃ pk, xy_points (map fst (hue_select hs xs ys k))
                                    (map snd (hue_select hs xs ys k)) = Ok pk ∧ s = Scatter k pk)
            (categorical_order hs) scatters ∧
    xy_points xs ys = Ok pts ∧
    (∀ p ps, pts = p :: ps → ps ≠ [] →
       sample_lm_figures =
         [mk_axes "Average Adjusted Budget of Genres vs Average Popularity of Genres"
                  "Adjusted Budget" "Popularity" [] 0 (scatters ++ [FitLine (reg_line p ps)])]) ∧
    (length pts ≤ 1 →
       sample_lm_figures =
         [mk_axes "Average Adjusted Budget of Genres vs Average Popularity of Genres"
                  "Adjusted Budget" "Popularity" [] 0 scatters]).
Proof. apply (lm_cell_figure sample_d). vm_compute. reflexivity. Defined.

Lemma bar_cell_figure_witness :
  ∃ heights,
    run_report BarCell sample_d =
      Ok [mk_axes "Average Popularity of Genres" "Genre" "Popularity"
                  (map (λ r, r.2 !!! 0) (rows sample_d)) 90
                  [Bars (map (λ r, r.2 !!! 0) (rows sample_d)) heights]] ∧
    Forall2 (≡) heights (map (λ r, r.2 !!! 2) (rows sample_d)).
Proof.
  apply (bar_cell_figure sample_d 0 2); [reflexivity|reflexivity| | |].
  - repeat constructor; eexists; reflexivity.
  - cbn. repeat constructor; intros Hin;
      repeat (apply elem_of_cons in Hin as [Hin|Hin]; [discriminate|]);
      by apply not_elem_of_nil in Hin.
  - repeat constructor; intros t; discriminate.
Defined.

Definition popularity_cell : report_cell :=
  HistCell "popularity" 8 "Distribution of Popularity" "Popularity" "Frequency of Occurence".

Definition sample_hist_figures : list axes :=
  match run_report popularity_cell sample_d with Ok f => f | Err _ => [] end.

Lemma hist_cell_figure_witness :
  ∃ s counts edges,
    get_attr sample_d "popularity" = Ok s ∧
    series_hist 8 (map snd (sdata s)) = Ok (counts, edges) ∧
    sample_hist_figures =
      [mk_axes "Distribution of Popularity" "Popularity" "Frequency of Occurence" []
               0 [HistBars counts edges]].
Proof. apply (hist_cell_figure sample_d). vm_compute. reflexivity. Defined.

(** A [d] with a single genre. *)
Definition single_d : frame nat :=
  mk_frame ("genre" :: aggregate_columns)
    [(0, [CStr "Drama"; CNum 2; CNum 3; CNum 90; CNum 110; CNum 2005; CNum 6])].

Lemma lm_cell_no_line_witness :
  ∃ scatters, run_report budget_cell single_d =
    Ok [mk_axes "Average Adjusted Budget of Genres vs Average Popularity of Genres"
                "Adjusted Budget" "Popularity" [] 0 scatters] ∧
    Forall (λ s, ∃ k pk, s = Scatter k pk) scatters.
Proof.
  apply (lm_cell_no_line single_d "budget_adj" _ _ _ 1 2); [simpl; lia|reflexivity|reflexivity| |].
  - apply (bool_decide_unpack _). vm_compute. exact I.
  - repeat constructor; intros u; discriminate.
Defined.

End Plot.
