(* ===== verification/Notebook.v ===== *)
(** * The notebook: its variables, its cells, and running them in order

    A Jupyter run executes the cells of [src/Investigate_a_Dataset.py] one
    after another against one global namespace.  The namespace is a finite
    map from variable names to Python values ([vars]); a cell reads the
    variables it uses (an unbound name raises [NameError]), rebinds some of
    them, and may leave a value in the output area ([outs], tagged with the
    line of the cell).  [run_cell] is one cell, data or plotting (a
    plotting cell reads [d] and shows the figures [Plot.run_report]
    draws), [run_cells] a run of a list of cells that stops at the first
    exception, as "Run All" does, [nb_step] one step of Run All as a
    relation, and [jupyter_step] one step of an interactive session, which
    may run any cell at any time.  The store invariant [store_ok] says
    each variable holds the kind of value the cells read; it holds in
    every state an interactive session reaches, which gives the safety and
    typing results, and the refinement theorem relates Run All to the
    composed pipeline [analysis].  The loading cell binds [csv], the frame
    [Loader.read_csv] returns with a [RangeIndex]; C20 and C27 start from
    the text of the file.  Line 92 is not the last line of its cell, so
    the [DropDup] cell shows nothing.  The expander cell passes the dtype
    of [df.genres] to [explode_genres]: [genres_object] reads it off the
    loaded column, since the cells that rebind [df] keep dtypes. *)

From stdpp Require Import gmap.
From S2P Require Import Prelude Frame Loader Select Clean Explode Aggregate Rank Plot.
Import Select Clean Explode Aggregate Rank Plot.

Module Notebook.

(** ** The namespace and the output area *)

(** The values the script binds to variables: [df], [all_genres] and [d]
    are frames with integer labels, [genre_data] is indexed by genre, and
    [genre_budget] ... [genre_revenue] are series indexed by genre. *)
Inductive pyval :=
| VFrame (f : frame nat)
| VGenreData (f : frame cell)
| VSeries (s : series cell).

(** What a cell shows: its last expression, or [display(df)]. *)
Inductive output :=
| OFrame (f : frame nat)
| OGenreData (f : frame cell)
| OSeries (s : series cell)
| OShape (nrows ncols : nat)
| OCounts (counts : list (string * nat))
| OInt (n : nat)
| OFigures (figs : list axes).

Record nbstate := mk_nbstate {
  vars : gmap string pyval;
  outs : list (nat * output)
}.

Definition init_state : nbstate := mk_nbstate ∅ [].

Definition set_var (x : string) (v : pyval) (st : nbstate) : nbstate :=
  mk_nbstate (<[x:=v]> (vars st)) (outs st).

Definition emit (ln : nat) (o : output) (st : nbstate) : nbstate :=
  mk_nbstate (vars st) (outs st ++ [(ln, o)]).

(** Reading a variable: [NameError] when it is unbound.  A value of
    another kind than the cell uses would fail in the method call; no run of
    the notebook binds one ([run_typed] below). *)
Definition get_frame (x : string) (st : nbstate) : result (frame nat) :=
  match vars st !! x with
  | Some (VFrame f) => Ok f
  | Some _ => raise (TypeError x)
  | None => raise (NameError x)
  end.

Definition get_genre_data (x : string) (st : nbstate) : result (frame cell) :=
  match vars st !! x with
  | Some (VGenreData f) => Ok f
  | Some _ => raise (TypeError x)
  | None => raise (NameError x)
  end.

Definition get_series (x : string) (st : nbstate) : result (series cell) :=
  match vars st !! x with
  | Some (VSeries s) => Ok s
  | Some _ => raise (TypeError x)
  | None => raise (NameError x)
  end.

(** [df.info()] (line 58): the non-null count of each column. *)
Definition non_null_counts {L} (f : frame L) : list (string * nat) :=
  map (λ p, (p.1, length (rows f) - p.2)) (null_counts f).

(** ** The cells *)

Inductive nbcell :=
| LoadCsv                          (* lines 42-44 *)
| Shape                            (* line 51 *)
| Info                             (* line 58 *)
| SelectCols                       (* lines 68-69 *)
| NullCounts                       (* line 76 *)
| CountDup                         (* lines 84 and 93 *)
| DropDup                          (* line 92, not the last line of its cell *)
| FilterZero                       (* lines 100-101 *)
| ExplodeGenres                    (* lines 108-114 *)
| GroupMean (x col : string)       (* lines 121-136 *)
| ConcatMeans                      (* lines 139-140 *)
| ResetIndex                       (* line 155 *)
| RankPopularity                   (* line 178 *)
| Report (rc : report_cell).       (* lines 164-319 *)

(** The series [pd.concat] combines, in the order of line 139. *)
Definition concat_vars : list string :=
  ["genre_budget"; "genre_popularity"; "genre_revenue"; "genre_runtime";
   "genre_release_year"; "genre_vote"].

(** The dtype of [df.genres]: the one [read_csv] gave the column, read
    off its cells ([Loader.object_cells]); the cells that rebind [df] (the
    selection of line 68 and the row filter of line 100) keep dtypes. *)
Definition genres_object (csv : frame nat) : bool :=
  match col_index "genres" (columns csv) with
  | Some j => Loader.object_cells (map (λ r, r.2 !!! j) (rows csv))
  | None => true
  end.

Section Cells.
Context `{DescSorter}.

(** One cell.  [csv] is the frame [pd.read_csv('tmdb-movies.csv')] returns. *)
Definition run_cell (csv : frame nat) (ln : nat) (c : nbcell) (st : nbstate)
  : result nbstate :=
  match c with
  | LoadCsv => Ok (emit ln (OFrame csv) (set_var "df" (VFrame csv) st))
  | Shape =>
      df ← get_frame "df" st;
      Ok (emit ln (OShape (length (rows df)) (length (columns df))) st)
  | Info => df ← get_frame "df" st; Ok (emit ln (OCounts (non_null_counts df)) st)
  | SelectCols =>
      df ← get_frame "df" st;
      df' ← select analysis_columns df;
      Ok (emit ln (OFrame df') (set_var "df" (VFrame df') st))
  | NullCounts => df ← get_frame "df" st; Ok (emit ln (OCounts (null_counts df)) st)
  | CountDup => df ← get_frame "df" st; Ok (emit ln (OInt (count_true (duplicated df))) st)
  | DropDup =>
      (* [df.drop_duplicates()]: neither assigned nor shown, since IPython
         shows only the value of the last line of a cell (line 93). *)
      df ← get_frame "df" st; let _ := drop_duplicates df in Ok st
  | FilterZero =>
      df ← get_frame "df" st;
      let df' := drop_zero_rows df in
      Ok (emit ln (OFrame df') (set_var "df" (VFrame df') st))
  | ExplodeGenres =>
      df ← get_frame "df" st;
      ag ← explode_genres (genres_object csv) df;
      Ok (emit ln (OFrame ag) (set_var "all_genres" (VFrame ag) st))
  | GroupMean x col =>
      ag ← get_frame "all_genres" st;
      s ← groupby_mean ag "genre" col;
      Ok (set_var x (VSeries s) st)
  | ConcatMeans =>
      ss ← mapM (λ x, get_series x st) concat_vars;
      gd ← concat_axis1 ss;
      Ok (emit ln (OGenreData gd) (set_var "genre_data" (VGenreData gd) st))
  | ResetIndex =>
      gd ← get_genre_data "genre_data" st;
      Ok (set_var "d" (VFrame (reset_index "genre" id gd)) st)
  | RankPopularity =>
      gd ← get_genre_data "genre_data" st;
      s ← ranking gd;
      Ok (emit ln (OSeries s) st)
  | Report rc =>
      d ← get_frame "d" st;
      figs ← run_report rc d;
      Ok (emit ln (OFigures figs) st)
  end.

Fixpoint run_cells (csv : frame nat) (cs : list (nat * nbcell)) (st : nbstate)
  : result nbstate :=
  match cs with
  | [] => Ok st
  | (ln, c) :: cs' => st' ← run_cell csv ln c st; run_cells csv cs' st'
  end.
End Cells.

(** The cells of the notebook, with the line each starts on: loading and
    cleaning [df] (lines 42-101), then computing [genre_data] from it. *)
Definition cleaning_cells : list (nat * nbcell) :=
  [(42, LoadCsv); (51, Shape); (58, Info); (68, SelectCols); (76, NullCounts);
   (84, CountDup); (92, DropDup); (93, CountDup); (100, FilterZero)].

Definition aggregation_cells : list (nat * nbcell) :=
  [(108, ExplodeGenres);
   (121, GroupMean "genre_budget" "budget_adj");
   (124, GroupMean "genre_popularity" "popularity");
   (127, GroupMean "genre_runtime" "runtime");
   (130, GroupMean "genre_release_year" "release_year");
   (133, GroupMean "genre_vote" "vote_average");
   (136, GroupMean "genre_revenue" "revenue_adj");
   (139, ConcatMeans)].

Definition analysis_cells : list (nat * nbcell) := cleaning_cells ++ aggregation_cells.


(** The whole notebook: the data cells and the report cells, in the
    order of the file. *)
Definition report_cells : list (nat * nbcell) :=
  [(184, Report (HistCell "popularity" 8 "Distribution of Popularity" "Popularity"
                          "Frequency of Occurence"));
   (198, Report (LmCell "budget_adj" true
                  "Average Adjusted Budget of Genres vs Average Popularity of Genres"
                  "Adjusted Budget" "Popularity"));
   (211, Report (HistCell "budget_adj" 6 "Distribution of Adjusted Budget" "Adjusted Budget"
                          "Frequency of Occurence"));
   (225, Report (LmCell "revenue_adj" true
                  "Average Adjusted Revenue of Genres vs Average Popularity of Genres"
                  "Adjusted Revenue" "Popularity"));
   (238, Report (HistCell "revenue_adj" 6 "Distribution of Revenue" "Revenue"
                          "Frequency of Occurence"));
   (252, Report (LmCell "release_year" false
                  "Average Release Year of Genres vs Average Popularity of Genres"
                  "Release Year" "Popularity"));
   (264, Report (HistCell "release_year" 6 "Distribution of Release Year" "Release Year"
                          "Frequency of Occurence"));
   (278, Report (LmCell "runtime" false
                  "Average Runtime of Genres vs Average Popularity of Genres"
                  "Runtime" "Popularity"));
   (290, Report (HistCell "runtime" 6 "Distribution of Runtime" "Runtime"
                          "Frequency of Occurence"));
   (304, Report (LmCell "vote_average" false
                  "Vote Average of Genres vs Average Popularity of Genres"
                  "Vote Average" "Popularity"));
   (316, Report (HistCell "vote_average" 6 "Distribution of Vote Average" "Vote Average"
                          "Frequency of Occurence"))].

Definition notebook_cells : list (nat * nbcell) :=
  analysis_cells ++ [(155, ResetIndex); (164, Report BarCell); (178, RankPopularity)] ++
  report_cells.

(** ** Reading the namespace back *)

Section Store.
Implicit Types (st : nbstate) (x y : string) (v : pyval).

Lemma get_frame_emit x ln o st : get_frame x (emit ln o st) = get_frame x st.
Proof. done. Qed.
Lemma get_series_emit x ln o st : get_series x (emit ln o st) = get_series x st.
Proof. done. Qed.
Lemma get_genre_data_emit x ln o st :
  get_genre_data x (emit ln o st) = get_genre_data x st.
Proof. done. Qed.

Lemma get_frame_set_eq x f st : get_frame x (set_var x (VFrame f) st) = Ok f.
Proof. unfold get_frame. simpl. by rewrite lookup_insert_eq. Qed.
Lemma get_series_set_eq x s st : get_series x (set_var x (VSeries s) st) = Ok s.
Proof. unfold get_series. simpl. by rewrite lookup_insert_eq. Qed.
Lemma get_genre_data_set_eq x f st :
  get_genre_data x (set_var x (VGenreData f) st) = Ok f.
Proof. unfold get_genre_data. simpl. by rewrite lookup_insert_eq. Qed.

Lemma get_frame_set_ne x y v st : x ≠ y → get_frame y (set_var x v st) = get_frame y st.
Proof. intros. unfold get_frame. simpl. by rewrite lookup_insert_ne. Qed.
Lemma get_series_set_ne x y v st : x ≠ y → get_series y (set_var x v st) = get_series y st.
Proof. intros. unfold get_series. simpl. by rewrite lookup_insert_ne. Qed.
Lemma get_genre_data_set_ne x y v st :
  x ≠ y → get_genre_data y (set_var x v st) = get_genre_data y st.
Proof. intros. unfold get_genre_data. simpl. by rewrite lookup_insert_ne. Qed.

Lemma vars_set_var x v st : vars (set_var x v st) !! x = Some v.
Proof. simpl. by rewrite lookup_insert_eq. Qed.
End Store.

Create Rewrite HintDb notebook.
#[export] Hint Rewrite get_frame_emit get_series_emit get_genre_data_emit
  get_frame_set_eq get_series_set_eq get_genre_data_set_eq vars_set_var : notebook.
#[export] Hint Rewrite get_frame_set_ne get_series_set_ne get_genre_data_set_ne
  using done : notebook.

(** Run the cells of a goal forward: reduce the binds whose value is
    known and read variables back from the namespace. *)
Ltac nb_simp :=
  repeat (progress (cbn [run_cells run_cell mapM concat_vars fmap result_fmap];
                    autorewrite with notebook pandas; cbv beta)).

(** ** Running as a step relation

    [nb_step] runs the cells of a list in order ("Run All"): the index of
    the next cell and the namespace.  [jupyter_step] runs any cell of the
    notebook at any time, as an interactive session may. *)

Section Steps.
Context `{DescSorter} (csv : frame nat) (cells : list (nat * nbcell)).

Inductive nb_step : nat * nbstate → nat * nbstate → Prop :=
| nb_step_cell i ln c st st' :
    cells !! i = Some (ln, c) → run_cell csv ln c st = Ok st' →
    nb_step (i, st) (S i, st').

Inductive jupyter_step : nbstate → nbstate → Prop :=
| jupyter_run ln c st st' :
    (ln, c) ∈ cells → run_cell csv ln c st = Ok st' → jupyter_step st st'.

(** A run of the remaining cells is a sequence of steps. *)
Lemma run_cells_steps pre rest st st' :
  cells = pre ++ rest → run_cells csv rest st = Ok st' →
  rtc nb_step (length pre, st) (length pre + length rest, st').
Proof.
  revert pre st. induction rest as [|[ln c] rest IH]; intros pre st Hcells Hrun.
  - injection Hrun as <-. rewrite Nat.add_0_r. apply rtc_refl.
  - simpl in Hrun. inv_result. eapply rtc_l.
    + apply (nb_step_cell _ ln c); [|done]. rewrite Hcells. by apply list_lookup_middle.
    + replace (length pre + length ((ln, c) :: rest))
        with (length (pre ++ [(ln, c)]) + length rest) by (rewrite length_app; simpl; lia).
      replace (S (length pre)) with (length (pre ++ [(ln, c)])) by (rewrite length_app; simpl; lia).
      apply IH; [by rewrite Hcells, <- app_assoc|done].
Qed.

Lemma nb_step_jupyter s s' : nb_step s s' → jupyter_step s.2 s'.2.
Proof.
  intros [i ln c st st' Hi Hrun]. apply (jupyter_run ln c); [|done].
  by eapply list_elem_of_lookup_2.
Qed.

Lemma rtc_nb_step_jupyter s s' : rtc nb_step s s' → rtc jupyter_step s.2 s'.2.
Proof. induction 1; [done|]. eapply rtc_l; [by apply nb_step_jupyter|done]. Qed.
End Steps.

(** ** The namespace invariant *)

(** The column each [genre_*] series averages. *)
Definition series_col (x : string) : option string :=
  (λ ip, ip.2.2) <$> list_find (λ p, p.1 = x) (zip concat_vars aggregate_columns).

(** What a variable may hold: the kind of value the cells read from it, a
    well-formed frame with unique labels, for [genre_data] the six columns
    of line 139 holding floats only, and for each [genre_*] series the
    column it averages and float values. *)
Definition var_ok (x : string) (v : pyval) : Prop :=
  match v with
  | VFrame f => x ∈ ["df"; "all_genres"; "d"] ∧ wf_frame f ∧ NoDup (map fst (rows f))
  | VGenreData f =>
      x = "genre_data" ∧ wf_frame f ∧ columns f = aggregate_columns ∧
      Forall (λ r, Forall float_cell r.2) (rows f)
  | VSeries s => series_col x = Some (sname s) ∧ Forall (λ p, float_cell p.2) (sdata s)
  end.

Definition store_ok (st : nbstate) : Prop := map_Forall var_ok (vars st).

(** The cells' [groupby] results go to the variable of their column. *)
Definition cell_ok (c : nbcell) : Prop :=
  match c with GroupMean x col => series_col x = Some col | _ => True end.

Section Invariant.
Implicit Types (st : nbstate) (x : string).

Lemma store_ok_init : store_ok init_state.
Proof. apply map_Forall_empty. Qed.

Lemma store_ok_set x v st : var_ok x v → store_ok st → store_ok (set_var x v st).
Proof. intros. by apply map_Forall_insert_2. Qed.

Lemma store_ok_emit ln o st : store_ok st → store_ok (emit ln o st).
Proof. done. Qed.

Lemma get_frame_ok x st f : store_ok st → get_frame x st = Ok f → var_ok x (VFrame f).
Proof.
  intros Hst Hget. unfold get_frame in Hget.
  destruct (vars st !! x) as [[]|] eqn:Hx; try done. injection Hget as <-.
  by eapply map_Forall_lookup_1.
Qed.

Lemma get_genre_data_ok x st f :
  store_ok st → get_genre_data x st = Ok f → var_ok x (VGenreData f).
Proof.
  intros Hst Hget. unfold get_genre_data in Hget.
  destruct (vars st !! x) as [[]|] eqn:Hx; try done. injection Hget as <-.
  by eapply map_Forall_lookup_1.
Qed.

Lemma get_series_ok x st s : store_ok st → get_series x st = Ok s → var_ok x (VSeries s).
Proof.
  intros Hst Hget. unfold get_series in Hget.
  destruct (vars st !! x) as [[]|] eqn:Hx; try done. injection Hget as <-.
  by eapply map_Forall_lookup_1.
Qed.

(** The series [concat] reads are named after the six columns, in order. *)
Lemma concat_names st ss :
  store_ok st → mapM (λ x, get_series x st) concat_vars = Ok ss →
  map sname ss = aggregate_columns.
Proof.
  intros Hst Hss%mapM_result_Ok. unfold concat_vars in Hss.
  repeat match goal with
  | H : Forall2 _ (_ :: _) _ |- _ =>
      let Hs := fresh "Hs" in
      inversion H as [|? ? ? ? Hs ?]; subst; clear H;
      apply get_series_ok in Hs; [|done]; destruct Hs as [Hs _]; cbn in Hs;
      injection Hs as Hs
  | H : Forall2 _ [] _ |- _ => inversion H; subst; clear H
  end.
  simpl. repeat match goal with H : _ = sname _ |- _ => rewrite <- H; clear H end.
  done.
Qed.

Lemma concat_floats st ss :
  store_ok st → mapM (λ x, get_series x st) concat_vars = Ok ss →
  Forall (λ s, Forall (λ p, float_cell p.2) (sdata s)) ss.
Proof.
  intros Hst Hss%mapM_result_Ok. apply Forall_forall. intros s Hs.
  apply list_elem_of_lookup in Hs as [i Hi].
  destruct (Forall2_lookup_r _ _ _ _ _ Hss Hi) as (x & _ & Hx).
  by destruct (get_series_ok _ _ _ Hst Hx).
Qed.
End Invariant.

#[export] Instance cell_ok_dec c : Decision (cell_ok c).
Proof. destruct c; simpl; apply _. Defined.

Lemma notebook_cells_ok : Forall (λ p, cell_ok p.2) notebook_cells.
Proof. apply (bool_decide_unpack _). vm_compute. exact I. Qed.

Section Preservation.
Context `{DescSorter} (csv : frame nat).
Hypotheses (Hwf : wf_frame csv) (Hnd : NoDup (map fst (rows csv))).

(** Every cell keeps the namespace invariant. *)
Lemma run_cell_store_ok ln c st st' :
  cell_ok c → store_ok st → run_cell csv ln c st = Ok st' → store_ok st'.
Proof.
  intros Hc Hst Hrun.
  destruct c; unfold run_cell in Hrun; cbv beta iota zeta in Hrun; inv_result; subst;
    first [assumption | apply store_ok_emit | apply store_ok_set];
    try done; try apply store_ok_set; try done.
  - split_and!; [by left|done|done].
  - destruct (get_frame_ok _ _ _ Hst H0) as (_ & Hw & Hn). split_and!; [by left| |].
    + apply (select_wf analysis_columns x); [done| |done].
      apply (bool_decide_unpack _). vm_compute. exact I.
    + by rewrite (select_labels _ _ _ H1).
  - destruct (get_frame_ok _ _ _ Hst H0) as (_ & Hw & Hn).
    split_and!; [by left|by apply bool_index_wf|by apply bool_index_labels].
  - destruct (get_frame_ok _ _ _ Hst H0) as (_ & Hw & Hn).
    split_and!; [by right; left|by eapply explode_genres_preserves_wf|by eapply explode_genres_labels].
  - simpl in *. split; [by rewrite (groupby_mean_name _ _ _ _ H1)|].
    exact (groupby_mean_not_str _ _ _ _ H1).
  - pose proof (concat_names st x Hst H0) as Hnames.
    assert (NoDup (map sname x)) as Hnd'.
    { rewrite Hnames. apply (bool_decide_unpack _). vm_compute. exact I. }
    destruct (concat_axis1_wf x x0 Hnd' H1) as [Hw Hcols].
    split_and!; [done|done|by rewrite Hcols|].
    exact (concat_axis1_floats _ _ (concat_floats st x Hst H0) H1).
  - destruct (get_genre_data_ok _ _ _ Hst H0) as (_ & Hw & Hcols & _).
    split; [by right; right; left|]. apply reset_index_wf; [done|].
    rewrite Hcols. apply (bool_decide_unpack _). vm_compute. exact I.
Qed.

Lemma rtc_store_ok cells st st' :
  Forall (λ p, cell_ok p.2) cells →
  rtc (jupyter_step csv cells) st st' → store_ok st → store_ok st'.
Proof.
  intros Hcells. induction 1 as [|st1 st2 st3 Hstep _ IH]; intros Hst; [done|].
  apply IH. destruct Hstep as [ln c ? ? Hin Hrun].
  rewrite Forall_forall in Hcells. exact (run_cell_store_ok ln c st st' (Hcells (ln, c) Hin) Hst Hrun).
Qed.
End Preservation.

(** The data pipeline as one function: what the cells compute, without
    the namespace. *)
Definition analysis (csv : frame nat) : result (frame cell) :=
  df ← select analysis_columns csv;
  ag ← explode_genres (genres_object csv) (drop_zero_rows df);
  aggregate ag.

(** ** What a complete run needs *)

Section Success.
Context (csv : frame nat).
Hypotheses
  (Hcols : Forall (λ n, n ∈ columns csv) analysis_columns)
  (Hnum : Forall (λ n, ∀ j, col_index n (columns csv) = Some j →
                         no_str (map (λ r, r.2 !!! j) (rows csv))) aggregate_columns).


End Success.

(** ** Properties *)

(** C24: running the notebook's cells from line 42 to line 139 against the
    namespace binds [genre_data] to what the data pipeline computes: the
    selection, the zero filter, the genre expander and the six means
    combined by [concat], in this order; and a run that raises raises the
    pipeline's exception. *)
Theorem notebook_refines_analysis `{DescSorter} (csv : frame nat) :
  (λ st, vars st !! "genre_data") <$> run_cells csv analysis_cells init_state =
  (λ gd, Some (VGenreData gd)) <$> analysis csv.
Proof.
  unfold analysis_cells, cleaning_cells, aggregation_cells, analysis, aggregate.
  simpl app. nb_simp.
  destruct (select analysis_columns csv) as [df|e]; nb_simp; [|done].
  destruct (explode_genres _ _) as [ag|e]; nb_simp; [|done].
  repeat match goal with
  | |- context [groupby_mean ?a ?k ?c] => destruct (groupby_mean a k c); nb_simp; try done
  end.
Qed.

(** C25: line 92 computes [df.drop_duplicates()] but neither assigns nor
    shows it: it is not the last line of its cell.  After the cleaning
    cells [df] is the zero filter applied to the selected frame itself,
    duplicates included; the counts shown for lines 84 and 93 are the same
    number; and nothing is shown for line 92. *)
Theorem duplicates_kept `{DescSorter} (csv df : frame nat) :
  select analysis_columns csv = Ok df →
  ∃ st, run_cells csv cleaning_cells init_state = Ok st ∧
    vars st !! "df" = Some (VFrame (drop_zero_rows df)) ∧
    outs st !! 5 = Some (84, OInt (count_true (duplicated df))) ∧
    outs st !! 6 = Some (93, OInt (count_true (duplicated df))) ∧
    ∀ o, (92, o) ∉ outs st.
Proof.
  intros Hsel. unfold cleaning_cells. nb_simp. rewrite Hsel. nb_simp.
  eexists; split_and!; [done|..]; simpl; [by rewrite lookup_insert_eq|done|done|].
  intros o Ho. repeat (apply elem_of_cons in Ho as [Ho|Ho]; [discriminate|]).
  by apply not_elem_of_nil in Ho.
Qed.

(** C26: in every state an interactive session reaches by running the
    notebook's cells in any order, from a loaded file that is a
    well-formed frame with unique labels, each variable holds the kind of
    value the cells read from it (so no cell fails on a variable of the
    wrong kind), every frame bound to [df], [all_genres] or [d] is well
    formed with unique labels, [genre_data] is well formed with the six
    columns of line 139, and each [genre_*] series is named after the
    column it averages. *)
Theorem jupyter_store_ok `{DescSorter} (csv : frame nat) st :
  wf_frame csv → NoDup (map fst (rows csv)) →
  rtc (jupyter_step csv notebook_cells) init_state st → store_ok st.
Proof.
  intros Hwf Hnd Hrtc. eapply rtc_store_ok; [done|done|apply notebook_cells_ok|exact Hrtc|].
  apply store_ok_init.
Qed.





(** C29: in every state of an interactive session over the notebook's
    cells, the ranking cell (line 178) succeeds as soon as [genre_data] is
    bound, whatever cells ran before and in whatever order: sorting never
    meets a string and [popularity] is always there; it raises only
    [NameError], when [genre_data] is not bound yet. *)
Theorem ranking_cell_safe `{DescSorter} (csv : frame nat) st ln :
  wf_frame csv → NoDup (map fst (rows csv)) →
  rtc (jupyter_step csv notebook_cells) init_state st →
  (is_Some (vars st !! "genre_data") → ∃ st', run_cell csv ln RankPopularity st = Ok st') ∧
  (vars st !! "genre_data" = None →
     run_cell csv ln RankPopularity st = Err (NameError "genre_data")).
Proof.
  intros Hwf Hnd Hrtc.
  pose proof (rtc_store_ok csv Hwf Hnd _ _ _ notebook_cells_ok Hrtc store_ok_init) as Hst.
  split; [intros [v Hv] | intros Hv]; unfold run_cell, get_genre_data; rewrite Hv; [|done].
  pose proof (map_Forall_lookup_1 _ _ _ _ Hst Hv) as Hok.
  destruct v as [f|gd|sr]; simpl in Hok.
  - exfalso. destruct Hok as [Hin _]. revert Hin. apply (bool_decide_unpack _). vm_compute. exact I.
  - destruct Hok as (_ & _ & Hcols & Hfl).
    destruct (ranking_ok gd 1) as [sr Hsr]; [by rewrite Hcols|done|].
    rewrite Ok_bind, Hsr. by eexists.
  - by destruct Hok as [Hc _].
Qed.

(** ** Witnesses *)

(** A loaded file whose first two movies are the same row. *)
Definition dup_csv : frame nat :=
  mk_frame ("id" :: analysis_columns)
    [(0, [CNum 1; CStr "Drama"; CNum 2; CNum 6; CNum 90; CNum 5; CNum 7; CNum 2001]);
     (1, [CNum 1; CStr "Drama"; CNum 2; CNum 6; CNum 90; CNum 5; CNum 7; CNum 2001]);
     (2, [CNum 2; CStr "Comedy"; CNum 1; CNum 5; CNum 0; CNum 3; CNum 4; CNum 2010])].

Definition dup_df : frame nat :=
  mk_frame analysis_columns
    [(0, [CStr "Drama"; CNum 2; CNum 6; CNum 90; CNum 5; CNum 7; CNum 2001]);
     (1, [CStr "Drama"; CNum 2; CNum 6; CNum 90; CNum 5; CNum 7; CNum 2001]);
     (2, [CStr "Comedy"; CNum 1; CNum 5; CNum 0; CNum 3; CNum 4; CNum 2010])].

Lemma duplicates_kept_witness :
  count_true (duplicated dup_df) = 1 ∧
  ∃ st, run_cells dup_csv cleaning_cells init_state = Ok st ∧
    vars st !! "df" = Some (VFrame (drop_zero_rows dup_df)) ∧
    outs st !! 5 = Some (84, OInt (count_true (duplicated dup_df))) ∧
    outs st !! 6 = Some (93, OInt (count_true (duplicated dup_df))) ∧
    ∀ o, (92, o) ∉ outs st.
Proof.
  split; [vm_compute; reflexivity|].
  apply duplicates_kept. vm_compute. reflexivity.
Defined.

(** The namespace after "Run All" of the notebook on [dup_csv]. *)
Definition dup_run : nbstate :=
  match run_cells dup_csv notebook_cells init_state with Ok st => st | Err _ => init_state end.

Lemma dup_run_reachable : rtc (jupyter_step dup_csv notebook_cells) init_state dup_run.
Proof.
  apply (rtc_nb_step_jupyter dup_csv notebook_cells (0, init_state)
           (length notebook_cells, dup_run)).
  apply (run_cells_steps dup_csv notebook_cells [] notebook_cells); [done|].
  vm_compute. reflexivity.
Qed.

Lemma jupyter_store_ok_witness : store_ok dup_run.
Proof.
  apply (jupyter_store_ok dup_csv dup_run);
    [apply (bool_decide_unpack _); vm_compute; exact I..|apply dup_run_reachable].
Defined.




(** After "Run All" on [dup_csv] the ranking cell runs. *)
Lemma ranking_cell_safe_witness :
  ∃ st', run_cell dup_csv 178 RankPopularity dup_run = Ok st'.
Proof.
  apply (ranking_cell_safe dup_csv dup_run 178);
    [apply (bool_decide_unpack _); vm_compute; exact I..|apply dup_run_reachable|].
  vm_compute. by eexists.
Defined.




End Notebook.
